(** * corpusama: storage, staleness, crawl and vertical formatting

    A shallow embedding of the parts of the repository that carry its
    invariants:

    - [datamgr/database/database.py]   ([Module Database])
    - [corpusama/corpus/vertical.py]   ([Module Vertical])
    - [corpusama/source/reliefweb.py]  ([Module ReliefWeb])

    Python objects are modelled by explicit state passing: a computation of
    type [M S A] runs on a state [S], may raise a Python exception and leaves
    the state it reached behind, whether it returned or raised. *)

From Stdlib Require Import ZArith Lia Ascii.
From stdpp Require Import base option list strings pretty gmap.

Open Scope string_scope.
Open Scope list_scope.
Open Scope nat_scope.

(** ** Python values, exceptions and the state-and-exception monad *)

Module Py.

(** The values a dataframe cell or a JSON response can hold. *)
#[warnings="-register-all"]
Inductive value :=
  | VNone
  | VNaN
  | VBool (b : bool)
  | VInt (z : Z)
  | VStr (s : string)
  | VList (l : list value)
  | VDict (d : list (string * value)).

(** [isinstance(v, dict)] *)
Definition is_dict (v : value) : bool :=
  match v with VDict _ => true | _ => false end.

(** The exceptions the modelled code can raise. *)
Inductive exn :=
  | KeyError (key : string)
  | ValueError (msg : string)
  | UserWarning (msg : string)
  | OperationalError (msg : string)
  | ProgrammingError (msg : string)
  | InterfaceError (msg : string)
  | UndefinedVariableError (name : string)
  | IndexError
  | AttributeError (msg : string)
  | TypeError (msg : string)
  | QuotaError
  | RequestError (msg : string)
  | OutOfFuel.

Inductive result (A : Type) :=
  | Ok (a : A)
  | Raise (e : exn).
Arguments Ok {A} a.
Arguments Raise {A} e.

Definition is_ok {A} (r : result A) : bool :=
  match r with Ok _ => true | Raise _ => false end.

(** A method of an object with state [S]: the state survives an exception. *)
Definition M (S A : Type) : Type := S → result A * S.

Definition ret {S A} (a : A) : M S A := λ s, (Ok a, s).
Definition raise {S A} (e : exn) : M S A := λ s, (Raise e, s).
Definition bind {S A B} (m : M S A) (k : A → M S B) : M S B :=
  λ s, match m s with
       | (Ok a, s') => k a s'
       | (Raise e, s') => (Raise e, s')
       end.
Definition get {S} : M S S := λ s, (Ok s, s).
Definition put {S} (s : S) : M S unit := λ _, (Ok tt, s).
Definition modify {S} (f : S → S) : M S unit := λ s, (Ok tt, f s).
Definition lift {S A} (r : result A) : M S A := λ s, (r, s).

(** The state a call leaves behind, and what it returned or raised. *)
Definition exec {S A} (m : M S A) (s : S) : S := (m s).2.
Definition outcome {S A} (m : M S A) (s : S) : result A := (m s).1.

(** [for x in l: body(x)] *)
Fixpoint for_each {S A} (l : list A) (body : A → M S unit) : M S unit :=
  match l with
  | [] => ret tt
  | x :: l' => bind (body x) (λ _, for_each l' body)
  end.

(** [[f(x) for x in l]] *)
Fixpoint map_M {S A B} (f : A → M S B) (l : list A) : M S (list B) :=
  match l with
  | [] => ret []
  | x :: l' =>
      bind (f x) (λ y, bind (map_M f l') (λ ys, ret (y :: ys)))
  end.

(** A method of a part [T] of the object, run on the object. *)
Definition zoom {S T A} (part : S → T) (update : T → S → S) (m : M T A) : M S A :=
  λ s, let (r, t) := m (part s) in (r, update t s).

(** The same loop for a pure, fallible body: the first raise ends it. *)
Fixpoint map_result {A B} (f : A → result B) (l : list A) : result (list B) :=
  match l with
  | [] => Ok []
  | x :: l' =>
      match f x with
      | Raise e => Raise e
      | Ok y => match map_result f l' with
                | Raise e => Raise e
                | Ok ys => Ok (y :: ys)
                end
      end
  end.

(** [within R E m]: from every state, [m] ends in a state related to it by
    [R], and raises only exceptions in [E]. *)
Definition within {S A} (R : S → S → Prop) (E : exn → Prop) (m : M S A) : Prop :=
  ∀ s, R s (m s).2 ∧ ∀ e, (m s).1 = Raise e → E e.

End Py.
Import Py.

Declare Scope py_scope.
Delimit Scope py_scope with py.
Notation "'let!' x ':=' m 'in' k" := (bind m (λ x, k))
  (at level 10, x name, m at level 100, k at level 200) : py_scope.
Notation "'do!' m 'in' k" := (bind m (λ _, k))
  (at level 10, m at level 100, k at level 200) : py_scope.
Open Scope py_scope.

(** ** The pandas operations the code uses *)

Module Pandas.

(** A dataframe: column labels and rows; every row is as wide as [columns]
    (a cell that is not there reads as NaN, as pandas pads it). *)
Record DataFrame := {
  columns : list string;
  rows : list (list value);
}.

Definition cell_at (r : list value) (i : nat) : value := default VNaN (r !! i).

(** The positions of label [c] from position [i] on; pandas allows a label
    more than once. *)
Fixpoint positions_from (i : nat) (c : string) (cols : list string) : list nat :=
  match cols with
  | [] => []
  | x :: cols' =>
      (if decide (x = c) then [i] else []) ++ positions_from (S i) c cols'
  end.
Definition positions (c : string) (cols : list string) : list nat :=
  positions_from 0 c cols.

(** [df.empty]: an axis of length 0. *)
Definition empty (df : DataFrame) : bool :=
  bool_decide (columns df = []) || bool_decide (rows df = []).

(** [len(df)] *)
Definition len (df : DataFrame) : nat := length (rows df).

(** [df.applymap(f)]: [f] on the cell of every column, in every row. *)
Definition applymap (f : value → value) (df : DataFrame) : DataFrame :=
  {| columns := columns df;
     rows := map (λ r, map (λ i, f (cell_at r i)) (seq 0 (length (columns df))))
                 (rows df) |}.

(** [df[cols]] for a list of labels: every column carrying a requested
    label, in the order of the request; KeyError for a label that is not
    there. *)
Definition locate (df : DataFrame) (c : string) : result (list nat) :=
  match positions c (columns df) with
  | [] => Raise (KeyError c)
  | ps => Ok ps
  end.

Definition take (ix : list nat) (df : DataFrame) : DataFrame :=
  {| columns := map (λ i, default "" (columns df !! i)) ix;
     rows := map (λ r, map (cell_at r) ix) (rows df) |}.

Definition getitem_list (cols : list string) (df : DataFrame) : result DataFrame :=
  match map_result (locate df) cols with
  | Raise e => Raise e
  | Ok idx => Ok (take (concat idx) df)
  end.

(** [df.to_records(index=False)] *)
Definition to_records (df : DataFrame) : list (list value) := rows df.

(** [df[c] = v] for a scalar [v]: overwrites the column(s) labelled [c], or
    appends a new column. *)
Definition set_cells (ps : list nat) (v : value) (r : list value) : list value :=
  imap (λ i x, if bool_decide (i ∈ ps) then v else x) r.

Definition setitem_scalar (c : string) (v : value) (df : DataFrame) : DataFrame :=
  match positions c (columns df) with
  | [] => {| columns := columns df ++ [c];
             rows := map (λ r, r ++ [v]) (rows df) |}
  | ps => {| columns := columns df;
             rows := map (set_cells ps v) (rows df) |}
  end.

(** [df.drop([c], axis=1, errors="ignore")] *)
Definition drop_column (c : string) (df : DataFrame) : DataFrame :=
  let keep := filter (λ i, i ∉ positions c (columns df)) (seq 0 (length (columns df))) in
  take keep df.

(** [df.columns = [f(x) for x in df.columns]] and [df.rename(columns=...)] *)
Definition relabel (f : string → string) (df : DataFrame) : DataFrame :=
  {| columns := map f (columns df); rows := rows df |}.

(** [pd.notna] on one cell *)
Definition notna (v : value) : bool :=
  match v with VNone | VNaN => false | _ => true end.

(** The cells of the column at position [i]. *)
Definition column_cells (i : nat) (df : DataFrame) : list value :=
  map (λ r, cell_at r i) (rows df).

(** A frame here carries no dtypes.  Where pandas decides by what it
    infers of the values of a column, the decision is a parameter:
    [str_values cells] says whether the [.str] accessor takes a column with
    these cells, as it takes a column of strings, or refuses it with
    AttributeError, as it refuses a column of numbers. *)
Class Inferred := {
  str_values : list value → bool;
}.

End Pandas.
Import Pandas.

(** ** SQLite: the tables behind the connection *)

Module Sqlite.

(** A stored value. *)
Inductive sqlval :=
  | SNull
  | SInteger (z : Z)
  | SText (s : string).

#[global] Instance sqlval_eq_dec : EqDecision sqlval.
Proof. solve_decision. Defined.

(** A table: its columns, the column its schema declares as primary key,
    and its rows in storage order.  The schema file is not part of the
    sources; the key column is the table's own datum here. *)
Record Table := {
  t_columns : list string;
  t_key : string;
  t_rows : list (list sqlval);
}.

(** sqlite3 binds None as NULL, numbers as numbers (NaN is stored as NULL),
    str as TEXT, and refuses containers. *)
Definition adapt (v : value) : result sqlval :=
  match v with
  | VNone | VNaN => Ok SNull
  | VBool b => Ok (SInteger (if b then 1 else 0))
  | VInt z => Ok (SInteger z)
  | VStr s => Ok (SText s)
  | VList _ | VDict _ => Raise (InterfaceError "Error binding parameter")
  end.

(** The key cell of a row. *)
Definition key_in (cols : list string) (key : string) (r : list sqlval) : sqlval :=
  default SNull (head (positions key cols) ≫= λ i, r !! i).

Definition key_of (t : Table) (r : list sqlval) : sqlval :=
  key_in (t_columns t) (t_key t) r.

(** The key a row is stored under: none when the key cell is NULL.  To
    SQLite two NULLs are never the same key. *)
Definition key_under (t : Table) (r : list sqlval) : option sqlval :=
  match key_of t r with
  | SNull => None
  | κ => Some κ
  end.

(** Replace-on-conflict on bare rows, for any key [k]: the rows stored
    under the key of the new row go, the new row is stored after the
    remaining ones; a row without key conflicts with no row. *)
Section put.
Context {A K : Type} `{EqDecision K} (k : A → option K).

Definition conflict (r r' : A) : Prop := is_Some (k r) ∧ k r' = k r.

Definition put (r : A) (l : list A) : list A :=
  filter (λ r', ¬ conflict r r') l ++ [r].
Definition put_all (rs : list A) (l : list A) : list A :=
  foldl (λ l r, put r l) l rs.

End put.

(** Modelled from the spec: the schema that declares the keys is missing;
    the spec has each table keyed by one column, "all records in the batch
    replace any existing row sharing the same id" and "latest write wins".
    INSERT OR REPLACE of one row, as SQLite runs it on a table with one
    key column: the rows whose key cell is that of the new row are deleted
    and the new row is stored after the remaining ones; a row whose key
    cell is NULL replaces no row. *)
Definition insert_or_replace (r : list sqlval) (t : Table) : Table :=
  {| t_columns := t_columns t;
     t_key := t_key t;
     t_rows := put (key_under t) r (t_rows t) |}.

End Sqlite.
Import Sqlite.

(** ** datamgr/database/database.py *)

Module Database.

(** The two conversions [insert] applies to every cell.  [py_str] is
    Python's [str]; [nan_like] says which strings [convert.nan_to_none]
    (not part of the sources) takes for a missing value. *)
Class Convert := {
  py_str : value → string;
  nan_like : string → bool;
}.

(** The object: [self.tables], the registry {table: [columns]}, and the
    tables behind [self.conn]. *)
Record Database := {
  tables : gmap string (list string);
  conn : gmap string Table;
}.

Definition with_conn (f : gmap string Table → gmap string Table) (db : Database) : Database :=
  {| tables := tables db; conn := f (conn db) |}.

(** [get_tables]: the registry is rebuilt from the tables that exist, for
    the five names the method asks for; it stays empty on a database
    without tables. *)
Definition queries : list string := ["_log"; "_pdf"; "_raw"; "_vert"; "_archive"].

Definition get_tables : M Database unit :=
  modify (λ db,
    {| tables :=
         if bool_decide (conn db = ∅) then ∅
         else foldl (λ acc key,
                       match conn db !! key with
                       | Some t => <[key := t_columns t]> acc
                       | None => acc
                       end) ∅ queries;
       conn := conn db |}).

Section insert.
Context `{conv : Convert}.

(** [df.astype(str)] *)
Definition astype_str (df : DataFrame) : DataFrame :=
  applymap (λ v, VStr (py_str v)) df.

(** Modelled from the spec: [convert.nan_to_none] is missing from the
    sources; the docstring of [insert] has it convert "nan-like values to
    None". *)
Definition none_if_nan (v : value) : value :=
  match v with
  | VNone | VNaN => VNone
  | VStr s => if nan_like s then VNone else VStr s
  | _ => v
  end.
Definition nan_to_none (df : DataFrame) : DataFrame := applymap none_if_nan df.

(** One execution of "INSERT OR REPLACE INTO table VALUES (?,...,?)" with
    [n] placeholders. *)
Definition execute_insert (table : string) (n : nat) (record : list value) : M Database unit :=
  if bool_decide (length record = n) then
    let! vals := lift (map_result adapt record) in
    modify (with_conn (alter (insert_or_replace vals) table))
  else raise (ProgrammingError "Incorrect number of bindings supplied").

(** [self.c.executemany(sql, records)]: the statement is compiled against
    the table, then run once per record; a record that fails leaves the
    earlier ones executed. *)
Definition executemany (table : string) (n : nat) (records : list (list value)) : M Database unit :=
  let! db := get in
  match conn db !! table with
  | None => raise (OperationalError "no such table")
  | Some t =>
      if bool_decide (length (t_columns t) = n)
      then for_each records (execute_insert table n)
      else raise (OperationalError "wrong number of values supplied")
  end.

(** [Database.insert(df, table)] *)
Definition insert (df : DataFrame) (table : string) : M Database unit :=
  (* standardize datatypes *)
  let df := astype_str df in
  let df := nan_to_none df in
  (* insert into SQL *)
  let! db := get in
  let! cols := lift (match tables db !! table with
                     | Some cols => Ok cols
                     | None => Raise (KeyError table)
                     end) in
  let! sel := lift (getitem_list cols df) in
  let records := to_records sel in
  let n_columns := length cols in
  do! executemany table n_columns records in
  (* commit: the tables are those of the one connection *)
  ret tt.

(** What [insert] is expected to hand to SQLite, said directly: the cell
    of a value, the value a row has in the column labelled [c], the rows
    of [df] cut to the registry's columns, and a batch of rows written
    one after the other. *)
Definition stored (v : value) : sqlval :=
  if nan_like (py_str v) then SNull else SText (py_str v).

Definition column_value (df : DataFrame) (r : list value) (c : string) : value :=
  cell_at r (default 0 (head (positions c (columns df)))).

Definition projection (cols : list string) (df : DataFrame) : list (list sqlval) :=
  map (λ r, map (λ c, stored (column_value df r c)) cols) (rows df).

End insert.

Definition upsert_all (rs : list (list sqlval)) (t : Table) : Table :=
  foldl (λ t r, insert_or_replace r t) t rs.

(** No two rows of the table are stored under the same key. *)
Definition keyed (t : Table) : Prop := NoDup (omap (key_under t) (t_rows t)).

Definition db_keyed (db : Database) : Prop :=
  ∀ name t, conn db !! name = Some t → keyed t.

(** The rows a table holds under one key. *)
Definition rows_under (t : Table) (κ : sqlval) : list (list sqlval) :=
  filter (λ r, key_under t r = Some κ) (t_rows t).

(** The rows a table holds without key. *)
Definition rows_without_key (t : Table) : list (list sqlval) :=
  filter (λ r, key_under t r = None) (t_rows t).

Definition text_or_null (x : sqlval) : Prop :=
  x = SNull ∨ ∃ s, x = SText s.

(** [insert] in closed form: what it raises, or the rows it writes. *)
Definition insert_plan `{conv : Convert} (df : DataFrame) (table : string) (db : Database)
  : result (list (list sqlval)) :=
  match tables db !! table with
  | None => Raise (KeyError table)
  | Some cols =>
      match map_result (locate df) cols with
      | Raise e => Raise e
      | Ok idx =>
          match conn db !! table with
          | None => Raise (OperationalError "no such table")
          | Some t =>
              if bool_decide (length (t_columns t) = length cols) then
                if bool_decide (rows df = [])
                   || bool_decide (length (concat idx) = length cols)
                then Ok (projection cols df)
                else Raise (ProgrammingError "Incorrect number of bindings supplied")
              else Raise (OperationalError "wrong number of values supplied")
          end
      end
  end.

(** An instance for the examples: Python's [repr] and [str], and the usual
    spellings of a missing value.  A string is written between single
    quotes, as Python writes one that holds no quote and no character to
    escape. *)
Fixpoint python_repr (v : value) : string :=
  match v with
  | VNone => "None"
  | VNaN => "nan"
  | VBool b => if b then "True" else "False"
  | VInt z => pretty z
  | VStr s => "'" +:+ s +:+ "'"
  | VList l => "[" +:+ String.concat ", " (map python_repr l) +:+ "]"
  | VDict d =>
      "{" +:+ String.concat ", "
                (map (λ kv, "'" +:+ kv.1 +:+ "': " +:+ python_repr kv.2) d) +:+ "}"
  end.

Definition python_str (v : value) : string :=
  match v with
  | VStr s => s
  | _ => python_repr v
  end.

Definition example_convert : Convert :=
  {| py_str := python_str;
     nan_like := λ s, bool_decide (s ∈ ["None"; "nan"; "NaN"; "null"; ""]) |}.

(** A two-column raw table keyed by [id], holding one row. *)
Definition example_db : Database :=
  {| tables := {[ "_raw" := ["id"; "title"] ]};
     conn := {[ "_raw" := {| t_columns := ["id"; "title"]; t_key := "id";
                             t_rows := [[SText "1"; SText "old"]] |} ]} |}.

Definition example_df : DataFrame :=
  {| columns := ["title"; "id"; "score"];
     rows := [[VStr "new"; VInt 1; VInt 7]; [VNaN; VInt 2; VInt 9]] |}.

End Database.
Import Database.

(** ** corpusama/corpus/vertical.py *)

Module Vertical.

(** What the tagger returns: documents of sentences of tagged words; the
    lemma is None when the tagger has none. *)
Record Word := { text : string; xpos : string; lemma : option string }.
Record Sentence := { words : list Word }.
Record Document := { sentences : list Sentence }.

(** [DocBundle]: the ids and the documents of a batch, side by side, and
    the number of tokens; [bundle.len] is the number of documents. *)
Record DocBundle (D : Type) := {
  bundle_id : list string;
  bundle_doc : list D;
  bundle_token : nat;
}.
Arguments bundle_id {D} _.
Arguments bundle_doc {D} _.
Arguments bundle_token {D} _.

(** What [logger.warning] is called with. *)
Inductive warning :=
  | LemmaMissing (id : string) (word : string)
  | EmptyVert (ids : list value).

Definition warn (w : warning) : M (list warning) unit :=
  modify (λ log, log ++ [w]).

Definition TAB : string := String "009"%char "".
Definition NL : string := String "010"%char "".

(** Modelled from the spec: [_stanza.fix_lemma] is missing from the
    sources; "if the tagger cannot produce a lemma for a word ... the lemma
    field falls back to the surface text". *)
Definition fix_lemma (w : Word) : string := default (text w) (lemma w).

Section stanza_to_vert.
Context (bundle : DocBundle Document) (tagset : gmap string (gmap string string)).

(** Logs a warning when lemmatization fails. *)
Definition lemmatize_fail (sent : Sentence) (x : nat) : M (list warning) unit :=
  for_each (words sent) (λ w,
    match lemma w with
    | None =>
        match bundle_id bundle !! x with
        | Some id => warn (LemmaMissing id (text w))
        | None => raise IndexError
        end
    | Some _ => ret tt
    end).

(** [tagset[w.xpos]["lpos"]] *)
Definition lpos (w : Word) : result string :=
  match tagset !! xpos w with
  | None => Raise (KeyError (xpos w))
  | Some entry =>
      match entry !! "lpos" with
      | None => Raise (KeyError "lpos")
      | Some suffix => Ok suffix
      end
  end.

(** Makes a list of vertical lines for a sentence. *)
Definition make_line (w : Word) : result string :=
  match lpos w with
  | Raise e => Raise e
  | Ok suffix =>
      Ok (text w +:+ TAB +:+ xpos w +:+ TAB +:+ fix_lemma w +:+ suffix +:+ NL)
  end.

Definition make_lines (sent : Sentence) : result (list string) :=
  map_result make_line (words sent).

(** Makes a vertical sentence. *)
Definition make_sentence (sent : Sentence) (x : nat) : M (list warning) string :=
  let sentence := ["<s>" +:+ NL] in
  do! lemmatize_fail sent x in
  let! lines := lift (make_lines sent) in
  let sentence := sentence ++ lines in
  let sentence := sentence ++ ["</s>" +:+ NL] in
  ret (String.concat "" sentence).

(** Overwrites bundle documents with vertical equivalent. *)
Definition make_docs : M (list warning) (DocBundle string) :=
  let! docs :=
    map_M (λ x,
      match bundle_doc bundle !! x with
      | None => raise IndexError
      | Some d =>
          let! _list := map_M (λ sent, make_sentence sent x) (sentences d) in
          ret (String.concat "" _list)
      end) (seq 0 (length (bundle_doc bundle))) in
  ret {| bundle_id := bundle_id bundle;
         bundle_doc := docs;
         bundle_token := bundle_token bundle |}.

Definition stanza_to_vert : M (list warning) (DocBundle string) := make_docs.

End stanza_to_vert.

(** [vert.str.len()] on one cell: the length of a string or of a
    container, NaN (here None) for anything else. *)
Definition str_len (v : value) : option nat :=
  match v with
  | VStr s => Some (String.length s)
  | VList l => Some (length l)
  | VDict d => Some (length d)
  | _ => None
  end.

(** [df.query("vert.str.len() ...")]: the rows whose [vert] cell has a
    length that passes the test. *)
Definition vert_len_is (test : nat → bool) (i : nat) (r : list value) : bool :=
  match str_len (cell_at r i) with
  | Some n => test n
  | None => false
  end.

Definition str_accessor_message : string :=
  "Can only use .str accessor with string values!".

Definition query_vert_len `{inf : Inferred} (test : nat → bool) (df : DataFrame)
  : result DataFrame :=
  match head (positions "vert" (columns df)) with
  | None => Raise (UndefinedVariableError "vert")
  | Some i =>
      if str_values (column_cells i df) then
        Ok {| columns := columns df;
              rows := filter (λ r, vert_len_is test i r) (rows df) |}
      else Raise (AttributeError str_accessor_message)
  end.

(** [df["id"].values] *)
Definition id_values (df : DataFrame) : result (list value) :=
  match head (positions "id" (columns df)) with
  | None => Raise (KeyError "id")
  | Some i => Ok (map (λ r, cell_at r i) (rows df))
  end.

(** Drops rows if no content after running stanza. *)
Definition drop_empty_vert `{inf : Inferred} (df : DataFrame) : M (list warning) DataFrame :=
  let! drops := lift (query_vert_len (λ n, n =? 0) df) in
  do! (if negb (empty drops)
       then let! ids := lift (id_values drops) in warn (EmptyVert ids)
       else ret tt) in
  lift (query_vert_len (λ n, 0 <? n) df).

(** A row without content, a row with content, and what [drop_empty_vert]
    is expected to return and to log, said directly. *)
Definition empty_content (i : nat) (r : list value) : Prop :=
  str_len (cell_at r i) = Some 0.
Definition has_content (i : nat) (r : list value) : Prop :=
  ∃ n, str_len (cell_at r i) = Some n ∧ 0 < n.

#[global] Instance empty_content_dec i r : Decision (empty_content i r).
Proof. unfold empty_content. apply _. Defined.

#[global] Instance has_content_dec i r : Decision (has_content i r).
Proof.
  unfold has_content. destruct (str_len (cell_at r i)) as [[|n]|].
  - right. intros (n & [= <-] & ?). lia.
  - left. exists (S n). split; [done|lia].
  - right. by intros (n & ? & _).
Defined.

Definition kept (i : nat) (df : DataFrame) : DataFrame :=
  {| columns := columns df; rows := filter (has_content i) (rows df) |}.
Definition dropped_ids (i j : nat) (df : DataFrame) : list value :=
  map (λ r, cell_at r j) (filter (empty_content i) (rows df)).
Definition logged (i j : nat) (df : DataFrame) (log : list warning) : list warning :=
  match dropped_ids i j df with
  | [] => log
  | ids => log ++ [EmptyVert ids]
  end.

(** The Corpus object, as far as [batch_run] goes. *)
Record Corpus := {
  corpus_db : Database;
  corpus_log : list warning;
  corpus_tagset : gmap string (gmap string string);
}.

Definition on_db {A} (m : M Database A) : M Corpus A :=
  zoom corpus_db
       (λ db c, {| corpus_db := db; corpus_log := corpus_log c;
                   corpus_tagset := corpus_tagset c |}) m.
Definition on_log {A} (m : M (list warning) A) : M Corpus A :=
  zoom corpus_log
       (λ log c, {| corpus_db := corpus_db c; corpus_log := log;
                    corpus_tagset := corpus_tagset c |}) m.

(** The collaborators of [batch_run] that are not part of the sources: the
    tagger run on the text column of a batch, and the conversion of a
    bundle of vertical documents into a dataframe. *)
Class Annotator := {
  stanza_run : DataFrame → result (DocBundle Document);
  docbundle_to_df : DocBundle string → DataFrame;
}.

(** Runs stanza, converts to vertical, and inserts records. *)
Definition batch_run `{conv : Convert} `{inf : Inferred} `{ann : Annotator}
    (batch : DataFrame) : M Corpus nat :=
  let! stan := lift (stanza_run batch) in
  let! c := get in
  let! vert := on_log (stanza_to_vert stan (corpus_tagset c)) in
  let df := docbundle_to_df vert in
  let! df := on_log (drop_empty_vert df) in
  do! on_db (insert df "_vert") in
  ret (bundle_token vert).

(** A timestamp as [pd.Timestamp] makes it: a point in time, or NaT. *)
Definition Timestamp := option Z.

(** [a > b]; a comparison with NaT is False. *)
Definition later (a b : Timestamp) : bool :=
  match a, b with
  | Some x, Some y => bool_decide (y < x)%Z
  | _, _ => false
  end.

(** "SELECT _vert.id, json_extract(_raw.date,'$.changed'), vert_date
     FROM _vert LEFT JOIN _raw ON _vert.id = _raw.id", on the (id,
    vert_date) rows of [_vert] and the (id, date changed) rows of [_raw]:
    a row of [_vert] without a match keeps a NULL, which reads as NaT. *)
Definition left_join (vert raw : list (Z * Timestamp)) : list (Z * Timestamp * Timestamp) :=
  flat_map (λ v,
    match filter (λ r, r.1 = v.1) raw with
    | [] => [(v.1, None, v.2)]
    | matches => map (λ r, (v.1, r.2, v.2)) matches
    end) vert.

(** Returns a list of out-of-date vertical files.  The comparison is that
    of pandas on two columns of timestamps: it is defined as here when each
    column of the join holds a date; pandas gives a column without any date
    no time zone and refuses to compare it with dates that have one. *)
Definition outdated_vert (vert raw : list (Z * Timestamp)) : list Z :=
  let df := left_join vert raw in
  let df := filter (λ row, later row.1.2 row.2) df in
  map (λ row, row.1.1) df.

(** The step of [make_vertical.batch] that skips up-to-date existing
    records; [row_id] is [x[1]], the id of a row of the batch. *)
Definition skip_up_to_date {Row} (row_id : Row → Z)
    (vert raw : list (Z * Timestamp)) (batch : list Row) : list Row :=
  let changed := outdated_vert vert raw in
  let exists_ := filter (λ x, x ∉ changed) (map fst vert) in
  filter (λ x, row_id x ∉ exists_) batch.

(** The rows of a table of timestamps given as a map. *)
Definition rows_of (m : gmap Z Z) : list (Z * Timestamp) :=
  map (λ p, (p.1, Some p.2)) (map_to_list m).

(** Instances for the examples: columns that [.str] takes when every cell
    is a string, a tagger that returns a bundle
    made beforehand, a dataframe with the id and the vertical content of
    each document, and a tagset with the suffix of the format example. *)
Definition example_inferred : Inferred :=
  {| str_values := forallb (λ v, match v with VStr _ => true | _ => false end) |}.

Definition example_annotator (stan : DocBundle Document) : Annotator :=
  {| stanza_run := λ _, Ok stan;
     docbundle_to_df := λ b,
       {| columns := ["id"; "vert"];
          rows := zip_with (λ i d, [VStr i; VStr d]) (bundle_id b) (bundle_doc b) |} |}.

Definition example_tagset : gmap string (gmap string string) :=
  {[ "NNS" := {[ "lpos" := "-n" ]}; "VBP" := {[ "lpos" := "-v" ]} ]}.

Definition example_batch : DataFrame :=
  {| columns := ["id"; "vert"];
     rows := [[VStr "101"; VStr ("<s>" +:+ NL +:+ "</s>" +:+ NL)];
              [VStr "102"; VStr ""]] |}.

(** The word of the format example. *)
Definition cats : Word := {| text := "Cats"; xpos := "NNS"; lemma := Some "cat" |}.

(** A bundle of two documents, the second without a sentence, and a corpus
    whose annotated documents are keyed by [id] and that holds none yet. *)
Definition example_bundle : DocBundle Document :=
  {| bundle_id := ["101"; "102"];
     bundle_doc := [ {| sentences := [ {| words := [cats] |} ] |};
                     {| sentences := [] |} ];
     bundle_token := 1 |}.

Definition example_corpus : Corpus :=
  {| corpus_db :=
       {| tables := {[ "_vert" := ["id"; "vert"] ]};
          conn := {[ "_vert" := {| t_columns := ["id"; "vert"]; t_key := "id";
                                   t_rows := [] |} ]} |};
     corpus_log := [];
     corpus_tagset := example_tagset |}.

End Vertical.
Import Vertical.

(** ** corpusama/source/reliefweb.py *)

Module ReliefWeb.

(** A Python dict with string keys: its items in insertion order. *)
Abbreviation dict := (list (string * value)).

Definition dict_get (k : string) (d : dict) : option value :=
  snd <$> head (filter (λ kv, kv.1 = k) d).

(** [d[k] = v] *)
Definition dict_set (k : string) (v : value) (d : dict) : dict :=
  if bool_decide (k ∈ map fst d)
  then map (λ kv, if decide (kv.1 = k) then (k, v) else kv) d
  else d ++ [(k, v)].

(** [d | update] *)
Definition dict_union (d update : dict) : dict :=
  foldl (λ d kv, dict_set kv.1 kv.2 d) d update.

(** [s.replace(old, new)] for a non-empty [old]: every occurrence, left to
    right; [skip] counts the characters of an occurrence still to pass. *)
Fixpoint starts_with (p s : string) : bool :=
  match p, s with
  | "", _ => true
  | String a p', String b s' => bool_decide (a = b) && starts_with p' s'
  | String _ _, "" => false
  end.

Fixpoint replace_go (old new : string) (skip : nat) (s : string) : string :=
  match s with
  | "" => ""
  | String a s' =>
      match skip with
      | S k => replace_go old new k s'
      | 0 =>
          if starts_with old s
          then new +:+ replace_go old new (String.length old - 1) s'
          else String a (replace_go old new 0 s')
      end
  end.
Definition replace (old new s : string) : string := replace_go old new 0 s.

(** The first occurrence of each label. *)
Fixpoint dedupe (seen l : list string) : list string :=
  match l with
  | [] => []
  | x :: l' =>
      if bool_decide (x ∈ seen) then dedupe seen l' else x :: dedupe (x :: seen) l'
  end.

(** [pd.DataFrame.from_records(records)] on flat records: the keys are the
    columns, a key a record lacks reads NaN. *)
Definition from_records (records : list dict) : DataFrame :=
  let cols := dedupe [] (flat_map (map fst) records) in
  {| columns := cols;
     rows := map (λ r, map (λ c, default VNaN (dict_get c r)) cols) records |}.

(** [pd.json_normalize(data, sep="_", max_level=1)]: the dicts one level
    down are spread into columns named parent_child. *)
Definition flatten1 (item : dict) : dict :=
  filter (λ kv, negb (is_dict kv.2)) item
  ++ flat_map (λ kv, match kv.2 with
                     | VDict d => map (λ kv2, (kv.1 +:+ "_" +:+ kv2.1, kv2.2)) d
                     | _ => []
                     end) item.

Definition json_normalize1 (data : list dict) : DataFrame :=
  from_records (map flatten1 data).

(** [pd.json_normalize] with its defaults: dicts are spread at every depth,
    the keys joined by a dot. *)
Fixpoint flatten_entry (key : string) (v : value) {struct v} : dict :=
  match v with
  | VDict d =>
      (fix go (d : list (string * value)) : dict :=
         match d with
         | [] => []
         | kv :: d' => flatten_entry (key +:+ "." +:+ kv.1) kv.2 ++ go d'
         end) d
  | _ => [(key, v)]
  end.
Definition flatten (d : dict) : dict := flat_map (λ kv, flatten_entry kv.1 kv.2) d.

(** The JSON body of a response: [count], [totalCount] and [data]. *)
Record Response := {
  count : Z;
  totalCount : Z;
  data : list dict;
}.

(** The answer to a request: a page, or none. *)
Inductive reply :=
  | Page (r : Response)
  | Failed (msg : string).

(** The object.  [db] is None without a database; [call_n] and [limit] are
    None until set.  [pages] and [sent] are there for the statements only:
    the responses received so far, in order (the object itself keeps the
    last one), and the parameters of the requests sent so far. *)
Record Job := {
  parameters : dict;
  original_parameters : dict;
  db : option Database;
  raw : gmap nat Response;
  call_n : option nat;
  limit : option nat;
  response_json : option Response;
  hash : string;
  now : string;
  field_names : list string;
  df_raw : DataFrame;
  date_changed_vals : list Timestamp;
  pages : list Response;
  sent : list dict;
}.

Definition set_parameters (x : dict) (j : Job) : Job :=
  {| parameters := x; original_parameters := original_parameters j;
     db := db j; raw := raw j; call_n := call_n j; limit := limit j;
     response_json := response_json j; hash := hash j; now := now j;
     field_names := field_names j; df_raw := df_raw j;
     date_changed_vals := date_changed_vals j; pages := pages j;
     sent := sent j |}.
Definition set_original_parameters (x : dict) (j : Job) : Job :=
  {| parameters := parameters j; original_parameters := x; db := db j;
     raw := raw j; call_n := call_n j; limit := limit j;
     response_json := response_json j; hash := hash j; now := now j;
     field_names := field_names j; df_raw := df_raw j;
     date_changed_vals := date_changed_vals j; pages := pages j;
     sent := sent j |}.
Definition set_db (x : option Database) (j : Job) : Job :=
  {| parameters := parameters j;
     original_parameters := original_parameters j; db := x; raw := raw j;
     call_n := call_n j; limit := limit j;
     response_json := response_json j; hash := hash j; now := now j;
     field_names := field_names j; df_raw := df_raw j;
     date_changed_vals := date_changed_vals j; pages := pages j;
     sent := sent j |}.
Definition set_raw (x : gmap nat Response) (j : Job) : Job :=
  {| parameters := parameters j;
     original_parameters := original_parameters j; db := db j; raw := x;
     call_n := call_n j; limit := limit j;
     response_json := response_json j; hash := hash j; now := now j;
     field_names := field_names j; df_raw := df_raw j;
     date_changed_vals := date_changed_vals j; pages := pages j;
     sent := sent j |}.
Definition set_call_n (x : option nat) (j : Job) : Job :=
  {| parameters := parameters j;
     original_parameters := original_parameters j; db := db j;
     raw := raw j; call_n := x; limit := limit j;
     response_json := response_json j; hash := hash j; now := now j;
     field_names := field_names j; df_raw := df_raw j;
     date_changed_vals := date_changed_vals j; pages := pages j;
     sent := sent j |}.
Definition set_limit (x : option nat) (j : Job) : Job :=
  {| parameters := parameters j;
     original_parameters := original_parameters j; db := db j;
     raw := raw j; call_n := call_n j; limit := x;
     response_json := response_json j; hash := hash j; now := now j;
     field_names := field_names j; df_raw := df_raw j;
     date_changed_vals := date_changed_vals j; pages := pages j;
     sent := sent j |}.
Definition set_response_json (x : option Response) (j : Job) : Job :=
  {| parameters := parameters j;
     original_parameters := original_parameters j; db := db j;
     raw := raw j; call_n := call_n j; limit := limit j;
     response_json := x; hash := hash j; now := now j;
     field_names := field_names j; df_raw := df_raw j;
     date_changed_vals := date_changed_vals j; pages := pages j;
     sent := sent j |}.
Definition set_hash (x : string) (j : Job) : Job :=
  {| parameters := parameters j;
     original_parameters := original_parameters j; db := db j;
     raw := raw j; call_n := call_n j; limit := limit j;
     response_json := response_json j; hash := x; now := now j;
     field_names := field_names j; df_raw := df_raw j;
     date_changed_vals := date_changed_vals j; pages := pages j;
     sent := sent j |}.
Definition set_now (x : string) (j : Job) : Job :=
  {| parameters := parameters j;
     original_parameters := original_parameters j; db := db j;
     raw := raw j; call_n := call_n j; limit := limit j;
     response_json := response_json j; hash := hash j; now := x;
     field_names := field_names j; df_raw := df_raw j;
     date_changed_vals := date_changed_vals j; pages := pages j;
     sent := sent j |}.
Definition set_field_names (x : list string) (j : Job) : Job :=
  {| parameters := parameters j;
     original_parameters := original_parameters j; db := db j;
     raw := raw j; call_n := call_n j; limit := limit j;
     response_json := response_json j; hash := hash j; now := now j;
     field_names := x; df_raw := df_raw j;
     date_changed_vals := date_changed_vals j; pages := pages j;
     sent := sent j |}.
Definition set_df_raw (x : DataFrame) (j : Job) : Job :=
  {| parameters := parameters j;
     original_parameters := original_parameters j; db := db j;
     raw := raw j; call_n := call_n j; limit := limit j;
     response_json := response_json j; hash := hash j; now := now j;
     field_names := field_names j; df_raw := x;
     date_changed_vals := date_changed_vals j; pages := pages j;
     sent := sent j |}.
Definition set_date_changed_vals (x : list Timestamp) (j : Job) : Job :=
  {| parameters := parameters j;
     original_parameters := original_parameters j; db := db j;
     raw := raw j; call_n := call_n j; limit := limit j;
     response_json := response_json j; hash := hash j; now := now j;
     field_names := field_names j; df_raw := df_raw j;
     date_changed_vals := x; pages := pages j; sent := sent j |}.
Definition set_pages (x : list Response) (j : Job) : Job :=
  {| parameters := parameters j;
     original_parameters := original_parameters j; db := db j;
     raw := raw j; call_n := call_n j; limit := limit j;
     response_json := response_json j; hash := hash j; now := now j;
     field_names := field_names j; df_raw := df_raw j;
     date_changed_vals := date_changed_vals j; pages := x; sent := sent j |}.
Definition set_sent (x : list dict) (j : Job) : Job :=
  {| parameters := parameters j;
     original_parameters := original_parameters j; db := db j;
     raw := raw j; call_n := call_n j; limit := limit j;
     response_json := response_json j; hash := hash j; now := now j;
     field_names := field_names j; df_raw := df_raw j;
     date_changed_vals := date_changed_vals j; pages := pages j; sent := x |}.

(** What the [Call] base class and the libraries provide; none of it is in
    the sources.  [api n p] is the answer to the request of call [n] with
    parameters [p]: a page, or none when the request fails; [params_hash]
    is the digest [_hash] takes of the parameters; [clock n] is the time of
    call [n]; [quota_allows n] and [wait_allows n] say whether
    [_enforce_quota] and [_wait] return at call [n] rather than halt the
    job.  [json_changed x] is what SQLite's json_extract(x, '$.changed')
    gives on a cell that is not NULL, [timestamp x] is pd.Timestamp(x) on
    a value that is not None, a point in time or NaT; either can raise.
    [isoformat] prints a timestamp. *)
Class Call := {
  input_name : string;
  api : nat → dict → reply;
  params_hash : dict → string;
  clock : nat → string;
  quota_allows : nat → bool;
  wait_allows : nat → bool;
  json_changed : sqlval → result sqlval;
  timestamp : sqlval → result Timestamp;
  isoformat : Z → string;
}.

Definition on_db {A} (m : M Database A) : M Job A :=
  λ j, match db j with
       | None => (Raise (AttributeError "NoneType"), j)
       | Some d => let (r, d') := m d in (r, set_db (Some d') j)
       end.

(** Modelled from the spec: [Database._add_missing_columns] is missing
    from the sources.  The spec has "if any field name is not yet a known
    column, the column is added (nullable) before insertion"; the earlier
    [insert] of datamgr/source/reliefweb.py sets the columns of the table
    that the dataframe lacks to None. *)
Definition add_column (c : string) (t : Table) : Table :=
  {| t_columns := t_columns t ++ [c];
     t_key := t_key t;
     t_rows := map (λ r, r ++ [SNull]) (t_rows t) |}.

Definition add_missing_columns (df : DataFrame) (table : string) : M Database DataFrame :=
  let! db := get in
  match tables db !! table with
  | None => raise (KeyError table)
  | Some cols =>
      let new := filter (λ c, c ∉ cols) (dedupe [] (columns df)) in
      do! modify (with_conn (alter (λ t, foldl (λ t c, add_column c t) t new) table)) in
      do! get_tables in
      let missing := filter (λ c, c ∉ columns df) cols in
      ret (foldl (λ df c, setitem_scalar c VNone df) df missing)
  end.

Section job.
Context `{conv : Convert} `{call : Call}.

Definition no_more_results : exn := UserWarning "Call aborted: no more results.".

Definition the_response : M Job Response :=
  let! j := get in
  match response_json j with
  | Some r => ret r
  | None => raise (AttributeError "response_json")
  end.

Definition the_call_n : M Job nat :=
  let! j := get in
  match call_n j with
  | Some n => ret n
  | None => raise (AttributeError "call_n")
  end.

(** Adjusts offset parameter and halts job if no more results. *)
Definition _offset : M Job unit :=
  let! n := the_call_n in
  if bool_decide (0 < n) then
    let! j := get in
    let! offset := lift (match dict_get "offset" (parameters j) with
                         | Some (VInt z) => Ok z
                         | Some _ => Raise (TypeError "offset")
                         | None => Raise (KeyError "offset")
                         end) in
    let! r := the_response in
    do! modify (set_parameters (dict_set "offset" (VInt (offset + count r)) (parameters j))) in
    if bool_decide (count r = 0%Z) then raise no_more_results else ret tt
  else ret tt.

(** Modelled from the spec: [_enforce_quota], [_request], [_hash] and
    [_wait] belong to the missing [Call] class.  The quota policy either
    lets call [n] pass or halts the job; a request sends the parameters
    and keeps the response and its time, or fails: a transport failure
    that outlasts its retries and a response that cannot be parsed are
    "fatal", and abort the run; the hash is "a deterministic digest of the
    call's parameter object". *)
Definition _enforce_quota : M Job unit :=
  let! n := the_call_n in
  if quota_allows n then ret tt else raise QuotaError.

Definition _request : M Job unit :=
  let! n := the_call_n in
  let! j := get in
  do! modify (set_sent (sent j ++ [parameters j])) in
  match api n (parameters j) with
  | Failed msg => raise (RequestError msg)
  | Page r =>
      do! modify (set_response_json (Some r)) in
      do! modify (set_now (clock n)) in
      modify (λ j, set_pages (pages j ++ [r]) j)
  end.

Definition _hash : M Job unit :=
  modify (λ j, set_hash (params_hash (parameters j)) j).

Definition _wait : M Job unit :=
  let! n := the_call_n in
  if wait_allows n then ret tt else raise QuotaError.

(** Makes a set of field names from response data. *)
Definition _get_field_names : M Job unit :=
  let! r := the_response in
  do! modify (set_field_names []) in
  for_each (data r) (λ x,
    match dict_get "fields" x with
    | Some (VDict fields) =>
        modify (λ j, set_field_names
                       (field_names j ++ dedupe (field_names j) (map fst fields)) j)
    | Some _ => raise (AttributeError "keys")
    | None => raise (KeyError "fields")
    end).

(** Inserts a log entry for a call. *)
Definition _insert_log : M Job unit :=
  let! r := the_response in
  let! j := get in
  let record := [("api_params_hash", VStr (hash j));
                 ("api_params", VDict (parameters j));
                 ("api_input", VStr input_name);
                 ("api_date", VStr (now j));
                 ("count", VInt (count r));
                 ("total_count", VInt (totalCount r))] in
  let df_log := from_records [record] in
  on_db (Database.insert df_log "_log").

(** [df[c]] for one label *)
Definition column_index (c : string) (df : DataFrame) : result nat :=
  match head (positions c (columns df)) with
  | Some i => Ok i
  | None => Raise (KeyError c)
  end.

(** [df["file"].explode()] on one cell: a list gives its items, one row
    each, an empty list gives one row that holds NaN, and anything else
    stays as it is. *)
Definition explode (v : value) : list value :=
  match v with
  | VList [] => [VNaN]
  | VList l => l
  | _ => [v]
  end.

(** [pd.json_normalize] on the items of a column: a dict is spread, the
    keys of its dicts joined by a dot; an item that is no dict gives a row
    without fields; a list among the items is refused. *)
Definition json_normalize (items : list value) : result DataFrame :=
  match map_result (λ x, match x with
                         | VDict d => Ok (flatten d)
                         | VList _ => Raise (AttributeError "keys")
                         | _ => Ok []
                         end) items with
  | Raise e => Raise e
  | Ok records => Ok (from_records records)
  end.

(** [len(v)] *)
Definition py_len (v : value) : result nat :=
  match v with
  | VStr s => Ok (String.length s)
  | VList l => Ok (length l)
  | VDict d => Ok (length d)
  | _ => Raise (TypeError "object has no len()")
  end.

(** [df[c] = values] for a list: its length must be that of the frame. *)
Definition length_message (n_values n_index : nat) : string :=
  "Length of values (" +:+ pretty n_values
  +:+ ") does not match length of index (" +:+ pretty n_index +:+ ")".

Definition setitem_list (c : string) (values : list value) (df : DataFrame)
  : result DataFrame :=
  if bool_decide (length values = len df) then
    match positions c (columns df) with
    | [] => Ok {| columns := columns df ++ [c];
                  rows := zip_with (λ r x, r ++ [x]) (rows df) values |}
    | ps => Ok {| columns := columns df;
                  rows := zip_with (λ r x, set_cells ps x r) (rows df) values |}
    end
  else Raise (ValueError (length_message (length values) (len df))).

(** [[df.iloc[x]["id"]] * len(df.iloc[x]["file"])] for the row [r] *)
Definition ids_of_row (df : DataFrame) (file : nat) (r : list value)
  : result (list value) :=
  match column_index "id" df with
  | Raise e => Raise e
  | Ok id =>
      match py_len (cell_at r file) with
      | Raise e => Raise e
      | Ok n => Ok (replicate n (cell_at r id))
      end
  end.

(** Updates pdf table after each call. *)
Definition _insert_pdf : M Job unit :=
  let! j := get in
  let! file := lift (column_index "file" (df_raw j)) in
  let df := {| columns := columns (df_raw j);
               rows := filter (λ r, notna (cell_at r file)) (rows (df_raw j)) |} in
  if negb (empty df) then
    (* make 1 row per file *)
    let! df_flat := lift (json_normalize (flat_map (λ r, explode (cell_at r file))
                                                   (rows df))) in
    let df_flat := relabel (λ c, if decide (c = "id") then "file_id" else c) df_flat in
    (* add columns *)
    let! ids := lift (map_result (ids_of_row df file) (rows df)) in
    let! df_flat := lift (setitem_list "id" (concat ids) df_flat) in
    let! df_flat := on_db (add_missing_columns df_flat "_pdf") in
    on_db (Database.insert df_flat "_pdf")
  else ret tt.

(** Reshapes and inserts ReliefWeb JSON data into db. *)
Definition insert : M Job unit :=
  let! r := the_response in
  let! j := get in
  (* normalize data *)
  let df := json_normalize1 (data r) in
  (* manage columns *)
  let df := drop_column "fields_id" df in
  let df := relabel (replace "fields_" "") df in
  let df := relabel (replace "-" "_") df in
  let df := setitem_scalar "api_input" (VStr input_name) df in
  let df := setitem_scalar "api_date" (VStr (now j)) df in
  let df := setitem_scalar "api_params_hash" (VStr (hash j)) df in
  let! df := on_db (add_missing_columns df "_raw") in
  do! modify (set_df_raw df) in
  do! (if negb (empty df)
       then on_db (Database.insert df "_raw")
       else raise no_more_results) in
  do! _insert_log in
  _insert_pdf.

(** The body of [one]: False ends the loop, True repeats it. *)
Definition one_body : M Job bool :=
  (* set variables *)
  do! modify (λ j, if call_n j is None then set_call_n (Some 0) j else j) in
  do! modify (λ j, if limit j is None then set_limit (Some 1) j else j) in
  let! j := get in
  if bool_decide (default 1 (limit j) ≤ default 0 (call_n j)) then ret false else
  (* prepare call *)
  do! _enforce_quota in
  do! _offset in
  (* make call *)
  do! _request in
  do! _get_field_names in
  do! _hash in
  (* store output *)
  do! (match db j with
       | None =>
           let! j := get in
           let! r := the_response in
           modify (set_raw (<[default 0 (call_n j) := r]> (raw j)))
       | Some _ => insert
       end) in
  do! _wait in
  do! modify (λ j, set_call_n (S <$> call_n j) j) in
  ret true.

(** Modelled from the spec: [decorator.while_loop] is missing from the
    sources; the loop is "driven by boolean-returning loop callbacks": the
    body runs again for as long as it returns True.  [fuel] bounds the
    number of rounds; running out of it is reported as its own outcome. *)
Fixpoint while_loop (fuel : nat) (body : M Job bool) : M Job unit :=
  match fuel with
  | 0 => raise OutOfFuel
  | S fuel' =>
      let! again := body in
      if again then while_loop fuel' body else ret tt
  end.

(** [one]: every round but the last makes one call, so one more round than
    there are calls left is enough. *)
Definition one : M Job unit :=
  let! j := get in
  while_loop (S (default 1 (limit j) - default 0 (call_n j))) one_body.

(** Executes API calls from parameters.  ([_set_wait], of the missing
    [Call] class, picks the time [_wait] sleeps; it has no part here.) *)
Definition all (limit : nat) : M Job unit :=
  do! modify (set_limit (Some limit)) in
  do! modify (set_call_n (Some 0)) in
  one.

(** The message of the ValueError of [new], as the source has it: two
    lines, the second indented as the source is. *)
Definition DQ : string := String "034"%char "".

Definition sort_message : string :=
  "Input parameters must be set to retrieve results sorted" +:+ NL
  +:+ "            by date.changed in ascending order. Add `"
  +:+ DQ +:+ "sort" +:+ DQ +:+ ": [" +:+ DQ +:+ "date.changed:asc" +:+ DQ +:+ "]`".

(** The configuration error of [new]. *)
Definition config_error : exn := ValueError sort_message.

(** [self.parameters.get("sort", None) == ["date.changed:asc"]] *)
Definition sorted_by_changed (p : dict) : bool :=
  match dict_get "sort" p with
  | Some (VList [VStr s]) => bool_decide (s = "date.changed:asc")
  | _ => false
  end.

(** [json_extract(x, '$.changed')] and [pd.Timestamp(x)]: NULL stays NULL,
    and None is NaT. *)
Definition json_extract_changed (x : sqlval) : result sqlval :=
  match x with
  | SNull => Ok SNull
  | _ => json_changed x
  end.

Definition pd_timestamp (x : sqlval) : result Timestamp :=
  match x with
  | SNull => Ok None
  | _ => timestamp x
  end.

(** "SELECT json_extract(_raw.date,'$.changed') FROM _raw" on the table
    [t], whose [date] column is at [i], and each value read as a timestamp:
    the changed dates of the stored raw records, NaT for a record that has
    none. *)
Definition stored_changed (t : Table) (i : nat) : result (list Timestamp) :=
  match map_result (λ r, json_extract_changed (default SNull (r !! i))) (t_rows t) with
  | Raise e => Raise e
  | Ok res => map_result pd_timestamp res
  end.

Definition select_date_changed : M Job (list Timestamp) :=
  let! j := get in
  match db j with
  | None => raise (AttributeError "NoneType")
  | Some d =>
      match conn d !! "_raw" with
      | None => raise (OperationalError "no such table")
      | Some t =>
          match head (positions "date" (t_columns t)) with
          | None => raise (OperationalError "no such column")
          | Some i => lift (stored_changed t i)
          end
      end
  end.

(** [.any()] and [.max()] on the column of timestamps, of dtype object.
    Both leave NaT out: [any] is whether a date is there.  [max] fills the
    places of NaT with -inf before it compares, and a timestamp does not
    compare with a float. *)
Definition dates (vals : list Timestamp) : list Z := omap id vals.

Definition series_any (vals : list Timestamp) : bool :=
  bool_decide (dates vals ≠ []).

Definition series_max (vals : list Timestamp) : result Z :=
  if bool_decide (Forall is_Some vals) then
    match dates vals with
    | t :: ts => Ok (foldr Z.max t ts)
    | [] => Raise (AttributeError "isoformat")
    end
  else Raise (TypeError "'>=' not supported between instances of 'Timestamp' and 'float'").

(** Updates parameter filters to start from the latest date.changed value. *)
Definition changed_from (latest : string) : value :=
  VDict [("field", VStr "date.changed"); ("value", VDict [("from", VStr latest)])].

Definition _update_filter : M Job unit :=
  let! j := get in
  (* update if database is not empty *)
  if series_any (date_changed_vals j) then
    let! latest := lift (series_max (date_changed_vals j)) in
    let latest := isoformat latest in
    (* combine new and old conditions *)
    let! filter := lift (match dict_get "filter" (original_parameters j) with
                         | None => Ok []
                         | Some (VDict d) => Ok d
                         | Some _ => Raise (AttributeError "get")
                         end) in
    let! old_conditions := lift (match dict_get "conditions" filter with
                                 | None => Ok []
                                 | Some (VList l) => Ok l
                                 | Some _ => Raise (TypeError "+")
                                 end) in
    let new_conditions := [changed_from latest] in
    (* update parameters *)
    let update := [("filter", VDict [("operator", VStr "AND");
                                     ("conditions", VList (old_conditions ++ new_conditions))])] in
    modify (set_parameters (dict_union (original_parameters j) update))
  else ret tt.

(** Executes calls starting from the latest date.changed value. *)
Definition new (limit : nat) : M Job unit :=
  do! modify (λ j, set_parameters (dict_set "offset" (VInt 0) (parameters j)) j) in
  (* ensure proper sorting parameters *)
  let! j := get in
  if negb (sorted_by_changed (parameters j)) then raise (ValueError sort_message) else
  (* get most recent date.changed value *)
  let! vals := select_date_changed in
  do! modify (set_date_changed_vals vals) in
  do! _update_filter in
  (* make call *)
  all limit.

(** The conditions of the caller's filter. *)
Definition caller_conditions (p : dict) : result (list value) :=
  match dict_get "filter" p with
  | None => Ok []
  | Some (VDict f) =>
      match dict_get "conditions" f with
      | None => Ok []
      | Some (VList l) => Ok l
      | Some _ => Raise (TypeError "+")
      end
  | Some _ => Raise (AttributeError "get")
  end.

End job.

(** The offset parameter of the job, and the result counts of a list of
    pages, added up. *)
Definition offset_of (j : Job) : option value := dict_get "offset" (parameters j).

Definition sum_counts (l : list Response) : Z :=
  foldr (λ r acc, count r + acc)%Z 0%Z l.

(** Instances for the examples: a server that answers call [n] with the
    [n]-th page of a script and, after it, with an empty page ([scripted])
    or not at all ([cut_off]); a quota that never halts; stored dates that
    are the changed date itself, written as digits. *)
Fixpoint digits (acc : Z) (s : string) : Z :=
  match s with
  | "" => acc
  | String a s' => digits (10 * acc + (Z.of_nat (nat_of_ascii a) - 48)) s'
  end.

Definition no_page : Response := {| count := 0; totalCount := 0; data := [] |}.

Definition served (after : reply) (script : list Response) : Call :=
  {| input_name := "reports.yml";
     api := λ n _, match script !! n with
                   | Some r => Page r
                   | None => after
                   end;
     params_hash := λ p, "hash-" +:+ python_str (default VNone (dict_get "offset" p));
     clock := λ n, "day-" +:+ pretty n;
     quota_allows := λ _, true;
     wait_allows := λ _, true;
     json_changed := λ v, Ok v;
     timestamp := λ v, match v with
                       | SText s => Ok (Some (digits 0 s))
                       | SInteger z => Ok (Some z)
                       | SNull => Ok None
                       end;
     isoformat := pretty |}.

Definition scripted (script : list Response) : Call := served (Page no_page) script.
Definition cut_off (script : list Response) : Call := served (Failed "timed out") script.

(** A database as the schema script leaves it: the raw records keyed by
    [id], the call log keyed by the hash of the parameters, the
    attachments; and the registry read from it. *)
Definition empty_tables : gmap string Table :=
  {[ "_raw" := {| t_columns := ["api_params_hash"; "id"; "api_input"; "api_date";
                                "date"; "file"; "title"];
                   t_key := "id"; t_rows := [] |};
     "_log" := {| t_columns := ["api_params_hash"; "api_params"; "api_input";
                                "api_date"; "count"; "total_count"];
                   t_key := "api_params_hash"; t_rows := [] |};
     "_pdf" := {| t_columns := ["id"; "file_id"; "url"];
                   t_key := "file_id"; t_rows := [] |} ]}.

Definition fresh_db : Database :=
  exec get_tables {| tables := ∅; conn := empty_tables |}.

Definition report (id : Z) (title changed : string) : dict :=
  [("id", VInt id);
   ("fields", VDict [("title", VStr title); ("date", VStr changed)])].

Definition job_with (d : option Database) (p : dict) : Job :=
  {| parameters := p; original_parameters := p; db := d; raw := ∅;
     call_n := None; limit := None; response_json := None;
     hash := ""; now := ""; field_names := [];
     df_raw := {| columns := []; rows := [] |};
     date_changed_vals := []; pages := []; sent := [] |}.

Definition sorted_parameters : dict :=
  [("offset", VInt 0); ("limit", VInt 2); ("sort", VList [VStr "date.changed:asc"])].

(** The fresh incremental run: empty storage, a page of two reports, then
    a page of none. *)
Definition two_reports : Response :=
  {| count := 2; totalCount := 2;
     data := [report 101 "Flood update" "20240105";
              report 102 "Drought appeal" "20240107"] |}.

Definition fresh_job : Job := job_with (Some fresh_db) sorted_parameters.

(** Storage that holds one raw record, changed at 20240105. *)
Definition stocked_db : Database :=
  with_conn (alter (insert_or_replace
                      [SText "hash-0"; SText "101"; SText "reports.yml";
                       SText "day-0"; SText "20240105"; SNull;
                       SText "Flood update"]) "_raw") fresh_db.

Definition stocked_job : Job := job_with (Some stocked_db) sorted_parameters.

(** *** The vocabulary of the statements about a run *)

(** What a method that works on the database can do to a job: the call
    itself, its parameters, counters, last response and pages, stays. *)
Definition same_call (j j' : Job) : Prop :=
  parameters j' = parameters j
  ∧ original_parameters j' = original_parameters j
  ∧ call_n j' = call_n j
  ∧ limit j' = limit j
  ∧ response_json j' = response_json j
  ∧ pages j' = pages j
  ∧ sent j' = sent j
  ∧ (is_Some (db j') ↔ is_Some (db j)).

Definition any_state (j j' : Job) : Prop := True.

(** The exceptions of a call: anything but the configuration error of
    [new], which is the ValueError with the message of [new], and the loop
    running out of rounds. *)
Definition not_config_error (e : exn) : Prop :=
  match e with
  | ValueError m => m ≠ sort_message
  | OutOfFuel => False
  | _ => True
  end.

Section rounds.
Context `{conv : Convert} `{call : Call}.

(** The parts of a round of [one] after the request: the output is stored,
    the job waits, the call is counted. *)
Definition store (d : option Database) : M Job unit :=
  match d with
  | None =>
      let! j := get in
      let! r := the_response in
      modify (set_raw (<[default 0 (call_n j) := r]> (raw j)))
  | Some _ => insert
  end.

Definition after_request (d : option Database) : M Job unit :=
  do! _get_field_names in
  do! _hash in
  do! store d in
  _wait.

Definition finish (d : option Database) : M Job bool :=
  do! after_request d in
  do! modify (λ j, set_call_n (S <$> call_n j) j) in
  ret true.

End rounds.

(** The job at the head of a round of a run that started with pages [p0]
    received and [n0] requests sent before it and offset [o0], has limit
    [lim], and has received [rec] since: every request of the run was
    answered. *)
Definition at_round (p0 : list Response) (n0 : nat) (o0 : Z) (lim : nat)
    (rec : list Response) (j : Job) : Prop :=
  pages j = p0 ++ rec
  ∧ length (sent j) = n0 + length rec
  ∧ call_n j = Some (length rec)
  ∧ limit j = Some lim
  ∧ (rec ≠ [] → response_json j = last rec)
  ∧ offset_of j = Some (VInt (o0 + sum_counts (removelast rec))).

(** The job when the run is over: either every request was answered, and
    the offset is where the last request had it, or one more request was
    sent than pages were received, and the offset has passed the last
    page. *)
Definition ended (p0 : list Response) (n0 : nat) (o0 : Z)
    (rec : list Response) (j : Job) : Prop :=
  pages j = p0 ++ rec
  ∧ ((length (sent j) = n0 + length rec
      ∧ offset_of j = Some (VInt (o0 + sum_counts (removelast rec))))
     ∨ (length (sent j) = n0 + S (length rec)
        ∧ offset_of j = Some (VInt (o0 + sum_counts rec)))).

(** A job at its first round, with limit 1. *)
Definition first_round (d : option Database) : Job :=
  set_limit (Some 1) (set_call_n (Some 0) (job_with d sorted_parameters)).

End ReliefWeb.

(** ** datamgr/source/reliefweb.py *)

Module Datamgr.
Import ReliefWeb.

(** The earlier ReliefWeb job, the caller of [Database.insert] in its own
    package.  Its object is the one above without [limit]; [_offset] and
    [_get_field_names] are the same text and the [Call] class is the same
    collaborator, so they are shared.  [n_calls], set when the job is made,
    is the argument of [run]. *)

(** [df.drop([c], axis=1, errors=False)]: any [errors] but "ignore" makes a
    label that is not there a KeyError. *)
Definition drop (c : string) (df : DataFrame) : result DataFrame :=
  if bool_decide (c ∈ columns df) then Ok (drop_column c df)
  else Raise (KeyError c).

(** [self.db.tables[table]] *)
Definition registry (table : string) : M Database (list string) :=
  let! db := get in
  match tables db !! table with
  | Some cols => ret cols
  | None => raise (KeyError table)
  end.

Section job.
Context `{conv : Convert} `{call : Call}.

(** Inserts a log entry for a call. *)
Definition _insert_log : M Job unit :=
  let! r := the_response in
  let! j := get in
  let record := [("api_params_hash", VStr (hash j));
                 ("parameters", VDict (parameters j));
                 ("api_input", VStr input_name);
                 ("api_date", VStr (now j));
                 ("count", VInt (count r));
                 ("total_count", VInt (totalCount r))] in
  let df_log := from_records [record] in
  on_db (Database.insert df_log "_log").

(** Updates pdf table after each call. *)
Definition _insert_pdf : M Job unit :=
  let! j := get in
  let! file := lift (column_index "file" (df_raw j)) in
  let df := {| columns := columns (df_raw j);
               rows := filter (λ r, notna (cell_at r file)) (rows (df_raw j)) |} in
  if negb (empty df) then
    (* make 1 row per file *)
    let! df_flat := lift (json_normalize (flat_map (λ r, explode (cell_at r file))
                                                   (rows df))) in
    let df_flat := relabel (λ c, if decide (c = "id") then "file_id" else c) df_flat in
    (* add report id column *)
    let! ids := lift (map_result (ids_of_row df file) (rows df)) in
    let! df_flat := lift (setitem_list "id" (concat ids) df_flat) in
    on_db (Database.insert df_flat "_pdf")
  else ret tt.

(** Reshapes and inserts ReliefWeb JSON data into db. *)
Definition insert : M Job unit :=
  let! r := the_response in
  let! j := get in
  (* normalize data *)
  let df := json_normalize1 (data r) in
  (* manage columns *)
  let! df := lift (drop "id" df) in
  let df := relabel (replace "fields_" "") df in
  let df := relabel (replace "-" "_") df in
  let df := setitem_scalar "api_input" (VStr input_name) df in
  let df := setitem_scalar "api_date" (VStr (now j)) df in
  let df := setitem_scalar "api_params_hash" (VStr (hash j)) df in
  let! cols := on_db (registry "_raw") in
  let df := foldl (λ df x, setitem_scalar x VNone df) df
                  (filter (λ x, x ∉ columns df) cols) in
  do! modify (set_df_raw df) in
  do! on_db (Database.insert df "_raw") in
  do! _insert_log in
  _insert_pdf.

(** One turn of the loop of [run], for the call number [call_n]. *)
Definition run_body (call_n : nat) : M Job unit :=
  (* execute call and prepare data *)
  do! modify (set_call_n (Some call_n)) in
  do! _enforce_quota in
  do! _offset in
  do! _request in
  do! _get_field_names in
  do! _hash in
  (* store output *)
  let! j := get in
  do! (match db j with
       | None =>
           let! r := the_response in
           modify (λ j, set_raw (<[call_n := r]> (raw j)) j)
       | Some _ => insert
       end) in
  _wait.

(** Makes API call(s) and stores response_json in dict self.raw. *)
Definition run (n_calls : nat) : M Job unit :=
  for_each (seq 0 n_calls) run_body.

End job.

End Datamgr.

(** ** The vocabulary of the further statements *)

Module Further.
Import ReliefWeb.

(** *** Vertical content *)

(** The warnings [lemmatize_fail] owes a sentence of the document [id],
    and those owed to a whole document. *)
Definition lemma_warnings (id : string) (sent : Sentence) : list warning :=
  (λ w, LemmaMissing id (text w)) <$> filter (λ w, lemma w = None) (words sent).

Definition document_warnings (id : string) (d : Document) : list warning :=
  flat_map (lemma_warnings id) (sentences d).

(** A sentence in vertical form, and [s] as the vertical form of the
    document [d]: its sentences one after the other. *)
Definition vertical_sentence (tagset : gmap string (gmap string string))
    (sent : Sentence) (v : string) : Prop :=
  ∃ lines, make_lines tagset sent = Ok lines
           ∧ v = ("<s>" +:+ NL) +:+ String.concat "" lines +:+ ("</s>" +:+ NL).

Definition vertical_document (tagset : gmap string (gmap string string))
    (d : Document) (s : string) : Prop :=
  (s = "" ↔ sentences d = [])
  ∧ ∃ sents, s = String.concat "" sents
             ∧ Forall2 (vertical_sentence tagset) (sentences d) sents.

(** Every tag of the bundle has its suffix in the tagset. *)
Definition tags_known (tagset : gmap string (gmap string string))
    (bundle : DocBundle Document) : Prop :=
  ∀ d sent w, d ∈ bundle_doc bundle → sent ∈ sentences d → w ∈ words sent →
              is_ok (lpos tagset w) = true.

(** The exceptions of a lookup: of a tag, of an index. *)
Definition lookup_error (e : exn) : Prop :=
  match e with KeyError _ | IndexError => True | _ => False end.

(** *** The crawl *)

(** The parameters [p] have the offset at [o] and every other parameter as
    [p0] has it. *)
Definition offset_at (p0 : dict) (o : Z) (p : dict) : Prop :=
  dict_get "offset" p = Some (VInt o)
  ∧ ∀ key, key ≠ "offset" → dict_get key p = dict_get key p0.

(** The requests [reqs] of a run on the parameters [p0] that started at
    offset [o0] and received the pages [rec]: the first request is sent
    with [p0] itself, request [k] with the offset at [o0] plus the result
    counts of the pages before it and every other parameter as [p0] has
    it; page [k] is the answer to request [k], and a request that no page
    answers has failed. *)
Definition requested `{call : Call} (p0 : dict) (o0 : Z)
    (rec : list Response) (reqs : list dict) : Prop :=
  ∀ k p, reqs !! k = Some p →
    offset_at p0 (o0 + sum_counts (firstn k rec)) p
    ∧ (k = 0 → p = p0)
    ∧ match rec !! k with
      | Some r => api k p = Page r
      | None => ∃ msg, api k p = Failed msg
      end.

(** A run so far, for the statements: on the job [j], a run on the
    parameters [q0] from offset [o0] has received the pages [rec] after
    the pages [p0] and sent the requests [reqs] after the requests [s0],
    as many as it received pages or one more, and the parameters of the
    job have the offset where the last of these requests had it. *)
Definition run_so_far `{call : Call} (p0 : list Response) (s0 : list dict)
    (q0 : dict) (o0 : Z) (rec : list Response) (reqs : list dict) (j : Job) : Prop :=
  pages j = p0 ++ rec
  ∧ sent j = s0 ++ reqs
  ∧ requested q0 o0 rec reqs
  ∧ length rec ≤ length reqs ≤ S (length rec)
  ∧ offset_at q0 (o0 + sum_counts (firstn (length reqs - 1) rec)) (parameters j).

(** The record [_insert_log] makes of a call, the columns it has, and the
    row of it under the columns [cols]. *)
Definition log_record `{call : Call} (j : Job) (r : Response) : dict :=
  [("api_params_hash", VStr (hash j));
   ("api_params", VDict (parameters j));
   ("api_input", VStr input_name);
   ("api_date", VStr (now j));
   ("count", VInt (count r));
   ("total_count", VInt (totalCount r))].

Definition log_columns : list string :=
  ["api_params_hash"; "api_params"; "api_input"; "api_date"; "count"; "total_count"].

Definition log_row `{conv : Convert} `{call : Call} (j : Job) (r : Response)
    (cols : list string) : list sqlval :=
  map (λ c, stored (default VNaN (dict_get c (log_record j r)))) cols.

(** Two jobs that differ in their counters at most: the call number and
    the limit. *)
Definition same_but_counters (j j' : Job) : Prop :=
  set_call_n None (set_limit None j) = set_call_n None (set_limit None j').

(** A method that neither reads nor writes the limit, and what a method
    that leaves the counters and the absence of a database alone can do to
    a job. *)
Definition ignores_limit {A} (m : M Job A) : Prop :=
  ∀ l j, m (set_limit l j) = ((m j).1, set_limit l (m j).2).

Definition keeps_counters (j j' : Job) : Prop :=
  call_n j' = call_n j ∧ limit j' = limit j ∧ (db j = None → db j' = None).

Definition any_exception (e : exn) : Prop := True.

(** The calls of one round of a job without database, from the quota to
    the wait: what [one] and the [run] of datamgr have in common. *)
Definition round_without_database `{conv : Convert} `{call : Call} : M Job unit :=
  do! _enforce_quota in
  do! _offset in
  do! _request in
  after_request None.

(** The exceptions of storing a page: anything but the warning that ends
    a crawl. *)
Definition not_warning (e : exn) : Prop :=
  match e with UserWarning _ => False | _ => True end.

End Further.
Import Further.

(** * Theorems *)

(** ** Storage *)

(** *** Column lookup *)

Lemma positions_from_bounds i c cols p :
  p ∈ positions_from i c cols → i ≤ p < i + length cols.
Proof.
  revert i. induction cols as [|x cols IH]; intros i; simpl.
  - intros Hp. by apply elem_of_nil in Hp.
  - rewrite elem_of_app. intros [Hp|Hp].
    + destruct (decide (x = c)); [|by apply elem_of_nil in Hp].
      apply list_elem_of_singleton in Hp. lia.
    + apply IH in Hp. lia.
Qed.

Lemma positions_bound c cols p : p ∈ positions c cols → p < length cols.
Proof. intros Hp. apply positions_from_bounds in Hp. lia. Qed.

Lemma map_result_ok {A B} (f : A → result B) l ys :
  map_result f l = Ok ys → Forall2 (λ x y, f x = Ok y) l ys.
Proof.
  revert ys. induction l as [|x l IH]; simpl; intros ys.
  - intros [= <-]. constructor.
  - destruct (f x) eqn:Hx; [|done].
    destruct (map_result f l) eqn:Hl; [|done].
    intros [= <-]. constructor; auto.
Qed.

Lemma map_result_total {A B} (f : A → result B) (g : A → B) l :
  (∀ x, x ∈ l → f x = Ok (g x)) → map_result f l = Ok (map g l).
Proof.
  induction l as [|x l IH]; simpl; intros Hf; [done|].
  rewrite Hf by left. rewrite IH; [done|]. intros y Hy. apply Hf. by right.
Qed.

(** When every requested label is found and as many columns come back as
    were asked for, each label occurred once. *)
Lemma concat_singletons (idx : list (list nat)) :
  Forall (λ ps, ps ≠ []) idx → length (concat idx) = length idx →
  idx = map (λ ps, [default 0 (head ps)]) idx.
Proof.
  induction idx as [|ps idx IH]; simpl; intros Hne Hlen; [done|].
  apply Forall_cons in Hne as [Hps Hne].
  assert (length idx ≤ length (concat idx)) as Hle.
  { clear -Hne. induction idx as [|qs idx IH]; simpl; [lia|].
    apply Forall_cons in Hne as [Hqs Hne]. rewrite length_app.
    destruct qs; [done|]. simpl. specialize (IH Hne). lia. }
  rewrite length_app in Hlen.
  destruct ps as [|p [|q ps]]; [done| |simpl in Hlen; lia].
  simpl in *. f_equal. apply IH; [done|lia].
Qed.

Lemma locate_all_ok df cols idx :
  map_result (locate df) cols = Ok idx →
  Forall2 (λ c ps, ps = positions c (columns df) ∧ ps ≠ []) cols idx.
Proof.
  intros Hm. apply map_result_ok in Hm.
  eapply Forall2_impl; [exact Hm|]. intros c ps. unfold locate. simpl.
  destruct (positions c (columns df)) eqn:Hp; [done|]. by intros [= <-].
Qed.

Section insert_facts.
Context `{conv : Convert}.

Lemma adapt_converted v : adapt (none_if_nan (VStr (py_str v))) = Ok (stored v).
Proof. unfold stored. simpl. by destruct (nan_like (py_str v)). Qed.

Lemma cell_at_map_seq (g : nat → value) w i :
  i < w → cell_at (map g (seq 0 w)) i = g i.
Proof.
  intros Hi. unfold cell_at. rewrite list_lookup_fmap.
  rewrite lookup_seq_lt by done. done.
Qed.

Lemma converted_columns df : columns (nan_to_none (astype_str df)) = columns df.
Proof. done. Qed.

Lemma converted_rows df :
  rows (nan_to_none (astype_str df)) =
  map (λ r, map (λ i, none_if_nan (VStr (py_str (cell_at r i))))
                (seq 0 (length (columns df)))) (rows df).
Proof.
  unfold nan_to_none, astype_str, applymap. simpl.
  rewrite map_map. apply map_ext. intros r.
  apply map_ext_in. intros i Hi. apply in_seq in Hi.
  rewrite cell_at_map_seq by lia. done.
Qed.

Lemma locate_converted df c : locate (nan_to_none (astype_str df)) c = locate df c.
Proof. done. Qed.

Lemma db_eta (db : Database.Database) : {| tables := tables db; conn := conn db |} = db.
Proof. by destruct db. Qed.

Lemma with_conn_alter_compose f g table (db : Database.Database) :
  with_conn (alter f table) (with_conn (alter g table) db)
  = with_conn (alter (f ∘ g) table) db.
Proof. unfold with_conn. simpl. f_equal. by rewrite alter_alter_eq. Qed.

Lemma with_conn_alter_id table (db : Database.Database) :
  with_conn (alter (λ t, t) table) db = db.
Proof.
  unfold with_conn. rewrite alter_id by done. apply db_eta.
Qed.

(** A batch whose records all bind: every row is written, in order. *)
Lemma for_each_execute_insert table n (records : list (list value)) vals db :
  Forall2 (λ r v, length r = n ∧ map_result adapt r = Ok v) records vals →
  for_each records (execute_insert table n) db
  = (Ok tt, with_conn (alter (upsert_all vals) table) db).
Proof.
  intros HF. revert db. induction HF as [|r v records vals [Hn Hv] HF IH]; intros db.
  - simpl. unfold ret. by rewrite with_conn_alter_id.
  - simpl. unfold bind at 1. unfold execute_insert.
    rewrite bool_decide_true by done.
    unfold bind, lift. rewrite Hv. unfold modify.
    rewrite IH. by rewrite with_conn_alter_compose.
Qed.

Lemma insert_closed_form df table db :
  insert df table db =
  match insert_plan df table db with
  | Ok P => (Ok tt, with_conn (alter (upsert_all P) table) db)
  | Raise e => (Raise e, db)
  end.
Proof.
  unfold insert, insert_plan, bind, get, lift, ret.
  destruct (tables db !! table) as [cols|] eqn:Hcols; [|done].
  unfold getitem_list.
  assert (map_result (locate (nan_to_none (astype_str df))) cols
          = map_result (locate df) cols) as -> by done.
  destruct (map_result (locate df) cols) as [idx|e] eqn:Hidx; [|done].
  unfold executemany, bind, get.
  destruct (conn db !! table) as [t|] eqn:Ht; [|done].
  case_bool_decide as Hw; [|done].
  apply locate_all_ok in Hidx.
  assert (Forall (λ i, i < length (columns df)) (concat idx)) as Hbound.
  { apply Forall_concat. clear -Hidx.
    induction Hidx as [|c ps cols idx [-> _] _ IH]; constructor; [|done].
    apply Forall_forall. intros p Hp. by apply positions_bound in Hp. }
  unfold to_records, take. cbn [rows]. rewrite converted_rows, map_map.
  destruct (rows df) as [|r0 rs] eqn:Hrows.
  { simpl. unfold ret, projection. rewrite Hrows. simpl.
    by rewrite with_conn_alter_id. }
  rewrite <-Hrows.
  destruct (decide (length (concat idx) = length cols)) as [Hlen|Hlen].
  - rewrite (bool_decide_true _ Hlen), orb_true_r.
    rewrite (for_each_execute_insert _ _ _ (projection cols df)); [done|].
    unfold projection. apply Forall2_fmap, Forall_Forall2_diag, Forall_forall.
    intros r _. split; [by rewrite length_map|].
    assert (concat idx = map (λ c, default 0 (head (positions c (columns df)))) cols)
      as ->.
    { assert (Forall (λ ps, ps ≠ []) idx) as Hne.
      { clear -Hidx. induction Hidx as [|???? [_ ?]]; constructor; done. }
      assert (length idx = length cols) as Hl by (symmetry; by eapply Forall2_length).
      rewrite <-Hl in Hlen.
      rewrite (concat_singletons idx Hne Hlen).
      clear -Hidx. induction Hidx as [|c ps cols idx [-> _] _ IH]; simpl; [done|].
      by rewrite IH. }
    assert (Forall (λ c, default 0 (head (positions c (columns df))) < length (columns df)) cols) as Hb.
    { clear -Hidx. induction Hidx as [|c ps cols idx [-> Hne] _ IH]; constructor; [|done].
      destruct (positions c (columns df)) as [|p ps] eqn:Hp; [done|]. simpl.
      apply (positions_bound c). rewrite Hp. by left. }
    clear -Hb. induction Hb as [|c cols Hc _ IH]; [done|].
    cbn [map map_result]. rewrite cell_at_map_seq by done.
    rewrite adapt_converted, IH. done.
  - rewrite (bool_decide_false _ Hlen), orb_false_r.
    rewrite bool_decide_false by (by rewrite Hrows).
    rewrite Hrows. simpl. unfold bind at 1. unfold execute_insert.
    rewrite bool_decide_false; [done|]. by rewrite length_map.
Qed.
End insert_facts.

(** *** Replace-on-conflict on the rows of one table *)

Lemma filter_all {A} (P : A → Prop) `{∀ x, Decision (P x)} (l : list A) :
  (∀ x, x ∈ l → P x) → filter P l = l.
Proof.
  induction l as [|x l IH]; intros HP; [done|].
  rewrite filter_cons_True by (apply HP; left).
  f_equal. apply IH. intros y Hy. apply HP. by right.
Qed.

Lemma filter_none {A} (P : A → Prop) `{∀ x, Decision (P x)} (l : list A) :
  (∀ x, x ∈ l → ¬ P x) → filter P l = [].
Proof.
  induction l as [|x l IH]; intros HP; [done|].
  rewrite filter_cons_False by (apply HP; left).
  apply IH. intros y Hy. apply HP. by right.
Qed.

Lemma omap_filter_sublist {A B} (f : A → option B) (P : A → Prop)
    `{∀ x, Decision (P x)} (l : list A) :
  omap f (filter P l) `sublist_of` omap f l.
Proof.
  induction l as [|x l IH]; [done|].
  destruct (decide (P x)).
  - rewrite filter_cons_True by done. simpl. destruct (f x); [by apply sublist_skip|done].
  - rewrite filter_cons_False by done. simpl. destruct (f x); [by apply sublist_cons|done].
Qed.

Section put.
Context {A K : Type} `{EqDecision K} (k : A → option K).

(** A row that a batch replaces: it has a key, and a row of the batch has
    the same. *)
Lemma put_all_snoc rs r l : put_all k (rs ++ [r]) l = put k r (put_all k rs l).
Proof. unfold put_all. by rewrite foldl_app. Qed.

Lemma put_all_split rs l :
  put_all k rs l
  = filter (λ x, ¬ (is_Some (k x) ∧ k x ∈ map k rs)) l ++ put_all k rs [].
Proof.
  induction rs as [|r rs IH] using rev_ind.
  - simpl. rewrite app_nil_r. symmetry. apply filter_all.
    intros x _ [_ Hx]. by apply elem_of_nil in Hx.
  - rewrite !put_all_snoc. unfold put. rewrite IH.
    rewrite filter_app, list_filter_filter, <-app_assoc. f_equal.
    apply list_filter_iff. intros x. rewrite map_app. simpl.
    rewrite elem_of_app, list_elem_of_singleton. unfold conflict. split.
    + intros [Hr Hrs] [Hx [Hin|Heq]]; [by apply Hrs|].
      apply Hr. split; [by rewrite <-Heq|done].
    + intros Hx. split.
      * intros [Hr Heq]. apply Hx. split; [by rewrite Heq|by right].
      * intros [Hs Hin]. apply Hx. split; [done|by left].
Qed.

Lemma put_all_from_batch rs x : x ∈ put_all k rs [] → x ∈ rs.
Proof.
  induction rs as [|r rs IH] using rev_ind; [done|].
  rewrite put_all_snoc. unfold put. rewrite !elem_of_app, list_elem_of_singleton.
  rewrite list_elem_of_filter. intros [[_ Hx]| ->]; auto.
Qed.

(** A batch whose rows all have a key, written twice, is the batch written
    once. *)
Lemma put_all_idempotent rs l :
  Forall (λ r, is_Some (k r)) rs →
  put_all k rs (put_all k rs l) = put_all k rs l.
Proof.
  intros Hkeys.
  rewrite (put_all_split rs (put_all k rs l)), (put_all_split rs l) at 1.
  rewrite filter_app, list_filter_filter.
  rewrite (list_filter_iff _ (λ x, ¬ (is_Some (k x) ∧ k x ∈ map k rs))) by tauto.
  assert (filter (λ x, ¬ (is_Some (k x) ∧ k x ∈ map k rs)) (put_all k rs []) = []) as ->.
  { apply filter_none. intros x Hx Hk. apply Hk.
    apply put_all_from_batch in Hx. split.
    - by eapply Forall_forall in Hkeys.
    - apply list_elem_of_fmap. eauto. }
  rewrite app_nil_r. symmetry. apply put_all_split.
Qed.

Lemma put_NoDup r l : NoDup (omap k l) → NoDup (omap k (put k r l)).
Proof.
  intros Hl. unfold put. rewrite omap_app. apply NoDup_app. split_and!.
  - eapply sublist_NoDup; [exact Hl|]. apply omap_filter_sublist.
  - intros κ Hκ Hr. simpl in Hr.
    assert (k r = Some κ) as Hkr.
    { clear -Hr. destruct (k r); [|by apply elem_of_nil in Hr].
      by apply list_elem_of_singleton in Hr as ->. }
    apply list_elem_of_omap in Hκ as (x & Hin & Hx).
    apply list_elem_of_filter in Hin as [Hne _]. apply Hne.
    split; [by rewrite Hkr|congruence].
  - simpl. destruct (k r); [apply NoDup_singleton|apply NoDup_nil_2].
Qed.

Lemma put_all_NoDup rs l : NoDup (omap k l) → NoDup (omap k (put_all k rs l)).
Proof.
  revert l. induction rs as [|r rs IH]; intros l Hl; [done|].
  simpl. apply IH. by apply put_NoDup.
Qed.

(** The rows stored under one key after a batch: the last row the batch
    wrote under that key, and nothing of what was there before. *)
Lemma put_all_batch_key rs κ :
  filter (λ x, k x = Some κ) (put_all k rs [])
  = option_list (last (filter (λ r, k r = Some κ) rs)).
Proof.
  induction rs as [|r rs IH] using rev_ind; [done|].
  rewrite put_all_snoc. unfold put. rewrite !filter_app, list_filter_filter.
  destruct (decide (k r = Some κ)) as [Hr|Hr].
  - rewrite (filter_none (λ x, k x = Some κ ∧ ¬ conflict k r x)).
    2:{ intros x _ [Hx Hc]. apply Hc. split; [by rewrite Hr|congruence]. }
    rewrite (filter_all (λ x, k x = Some κ) [r]) by (by intros ? ->%list_elem_of_singleton).
    by rewrite last_snoc.
  - rewrite (list_filter_iff _ (λ x, k x = Some κ)).
    2:{ intros x. split; [tauto|]. intros Hx. split; [done|].
        intros [_ Heq]. congruence. }
    rewrite (filter_none (λ x, k x = Some κ) [r]) by (by intros ? ->%list_elem_of_singleton).
    by rewrite !app_nil_r.
Qed.

Lemma put_all_key rs l κ :
  filter (λ x, k x = Some κ) (put_all k rs l)
  = if decide (Some κ ∈ map k rs)
    then option_list (last (filter (λ r, k r = Some κ) rs))
    else filter (λ x, k x = Some κ) l.
Proof.
  rewrite put_all_split, filter_app, list_filter_filter, put_all_batch_key.
  destruct (decide (Some κ ∈ map k rs)) as [Hin|Hin].
  - rewrite filter_none; [done|]. intros x _ [Hx Hn]. apply Hn.
    rewrite Hx. by split.
  - rewrite (list_filter_iff _ (λ x, k x = Some κ)).
    2:{ intros x. split; [tauto|]. intros Hx. split; [done|].
        rewrite Hx. by intros [_ ?]. }
    assert (filter (λ r, k r = Some κ) rs = []) as ->; [|by rewrite app_nil_r].
    apply filter_none. intros x Hx Hk. apply Hin. rewrite <-Hk.
    apply list_elem_of_fmap. eauto.
Qed.

(** Every row stored after a batch was there or is of the batch; and every
    row of the batch is stored, unless a later row of the batch took its
    key, which is then stored. *)
Lemma put_all_elem rs l x : x ∈ put_all k rs l → x ∈ l ∨ x ∈ rs.
Proof.
  rewrite put_all_split, elem_of_app, list_elem_of_filter.
  intros [[_ ?]|?%put_all_from_batch]; auto.
Qed.

Lemma put_all_written rs l r :
  r ∈ rs →
  ∃ r', r' ∈ put_all k rs l ∧ r' ∈ rs ∧ (r' = r ∨ (is_Some (k r) ∧ k r' = k r)).
Proof.
  induction rs as [|x rs IH] using rev_ind; [by intros ?%elem_of_nil|].
  rewrite put_all_snoc. unfold put.
  intros [Hr|Hr%list_elem_of_singleton]%elem_of_app.
  - destruct (IH Hr) as (r' & Hin & Hrs & Hrel).
    destruct (decide (conflict k x r')) as [[Hx Heq]|Hno].
    + exists x. split_and!.
      * apply elem_of_app. right. by apply list_elem_of_singleton.
      * apply elem_of_app. right. by apply list_elem_of_singleton.
      * right. destruct Hrel as [->|[Hs Hk]].
        -- split; [by rewrite Heq|done].
        -- split; [done|congruence].
    + exists r'. split_and!.
      * apply elem_of_app. left. by apply list_elem_of_filter.
      * apply elem_of_app. by left.
      * done.
  - subst x. exists r. split_and!.
    + apply elem_of_app. right. by apply list_elem_of_singleton.
    + apply elem_of_app. right. by apply list_elem_of_singleton.
    + by left.
Qed.

(** The rows without key: those that were there, and after them those of
    the batch, every time the batch is written. *)
Lemma put_all_no_key rs l :
  filter (λ x, k x = None) (put_all k rs l)
  = filter (λ x, k x = None) l ++ filter (λ x, k x = None) rs.
Proof.
  induction rs as [|r rs IH] using rev_ind; [by rewrite app_nil_r|].
  rewrite put_all_snoc. unfold put. rewrite !filter_app, list_filter_filter.
  rewrite (list_filter_iff _ (λ x, k x = None)).
  2:{ intros x. split; [tauto|]. intros Hx. split; [done|].
      intros [Hs Heq]. rewrite <-Heq, Hx in Hs. by destruct Hs. }
  by rewrite IH, app_assoc.
Qed.

End put.

Lemma upsert_all_rows rs t :
  upsert_all rs t =
  {| t_columns := t_columns t; t_key := t_key t;
     t_rows := put_all (key_under t) rs (t_rows t) |}.
Proof.
  revert t. induction rs as [|r rs IH]; intros t; [by destruct t|].
  unfold upsert_all in *. simpl. rewrite IH. done.
Qed.

Lemma upsert_all_idempotent rs t :
  Forall (λ r, is_Some (key_under t r)) rs →
  upsert_all rs (upsert_all rs t) = upsert_all rs t.
Proof.
  intros Hkeys.
  rewrite (upsert_all_rows rs (upsert_all rs t)), (upsert_all_rows rs t).
  simpl. f_equal. by apply (put_all_idempotent (key_under t)).
Qed.

Lemma upsert_all_keyed rs t : keyed t → keyed (upsert_all rs t).
Proof.
  unfold keyed. rewrite upsert_all_rows. simpl. apply (put_all_NoDup (key_under t)).
Qed.

Section insert_theorems.
Context `{conv : Convert}.

Lemma insert_plan_stable df table f db :
  (∀ t, t_columns (f t) = t_columns t) →
  insert_plan df table (with_conn (alter f table) db) = insert_plan df table db.
Proof.
  intros Hf. unfold insert_plan. simpl.
  destruct (tables db !! table) as [cols|]; [|done].
  destruct (map_result (locate df) cols) as [idx|]; [|done].
  rewrite lookup_alter_eq. destruct (conn db !! table) as [t|]; [|done].
  simpl. by rewrite Hf.
Qed.

Lemma insert_keeps_keyed df table db :
  db_keyed db → db_keyed (exec (insert df table) db).
Proof.
  intros Hk. unfold exec. rewrite insert_closed_form.
  destruct (insert_plan df table db) as [P|e]; [|done].
  simpl. intros name t'. simpl.
  destruct (decide (name = table)) as [->|Hne].
  - rewrite lookup_alter_eq. destruct (conn db !! table) as [t|] eqn:Ht; [|done].
    intros [= <-]. apply upsert_all_keyed. by eapply Hk.
  - rewrite lookup_alter_ne by done. apply Hk.
Qed.

Lemma insert_plan_projection df table db cols P :
  tables db !! table = Some cols → insert_plan df table db = Ok P →
  P = projection cols df.
Proof.
  intros Hcols. unfold insert_plan. rewrite Hcols.
  repeat case_match; try done. by intros [= <-].
Qed.

(** C1, as the code has it.  Inserting a batch a second time leaves the
    database as the first insert left it when every row of the batch has
    its key, that is, a key cell that is not NULL.  Along any sequence of
    inserts no table comes to hold two rows under the same key.  After an
    insert the rows stored under a key the batch wrote are exactly the last
    row the batch wrote under it, whole, while the rows under every other
    key are the ones that were there; and the rows without key are the
    ones that were there followed by those of the batch: a row whose key
    cell is NULL replaces nothing and is stored again by every insert. *)
Theorem upsert_idempotent_and_keyed (df : DataFrame) (table : string) (db : Database) :
  let once := exec (insert df table) db in
  ((∀ cols t, tables db !! table = Some cols → conn db !! table = Some t →
              Forall (λ r, is_Some (key_under t r)) (projection cols df)) →
   exec (insert df table) once = once)
  ∧ (∀ batches : list DataFrame,
        db_keyed db →
        db_keyed (foldl (λ d b, exec (insert b table) d) db batches))
  ∧ (∀ cols t t',
        tables db !! table = Some cols →
        conn db !! table = Some t →
        outcome (insert df table) db = Ok tt →
        conn once !! table = Some t' →
        (∀ κ, rows_under t' κ =
              if decide (Some κ ∈ key_under t <$> projection cols df)
              then option_list (last (filter (λ r, key_under t r = Some κ)
                                             (projection cols df)))
              else rows_under t κ)
        ∧ rows_without_key t'
          = rows_without_key t
            ++ filter (λ r, key_under t r = None) (projection cols df)).
Proof.
  split_and!.
  - intros Hkeys. unfold exec. rewrite !insert_closed_form.
    destruct (insert_plan df table db) as [P|e] eqn:HP; simpl.
    + rewrite insert_plan_stable by (intros t; by rewrite upsert_all_rows).
      rewrite HP. simpl. rewrite with_conn_alter_compose.
      unfold with_conn. f_equal. apply alter_ext. intros t Ht. simpl.
      apply upsert_all_idempotent.
      destruct (tables db !! table) as [cols|] eqn:Hcols.
      * rewrite (insert_plan_projection _ _ _ _ _ Hcols HP). by apply Hkeys.
      * unfold insert_plan in HP. by rewrite Hcols in HP.
    + by rewrite HP.
  - intros batches. revert db. induction batches as [|b batches IH]; intros db Hk; [done|].
    simpl. apply IH. by apply insert_keeps_keyed.
  - intros cols t t' Hcols Ht. unfold outcome, exec. rewrite insert_closed_form.
    unfold insert_plan. rewrite Hcols, Ht.
    destruct (map_result (locate df) cols) as [idx|]; [|done].
    case_bool_decide; [|done].
    destruct (_ || _); [|done]. simpl. intros _.
    rewrite lookup_alter_eq, Ht. simpl. intros [= <-].
    unfold rows_under, rows_without_key. rewrite upsert_all_rows. simpl. split.
    + intros κ. apply (put_all_key (key_under t)).
    + apply (put_all_no_key (key_under t)).
Qed.
End insert_theorems.

Lemma positions_from_label i c cols : positions_from i c cols ≠ [] → c ∈ cols.
Proof.
  revert i. induction cols as [|x cols IH]; intros i; simpl; [done|].
  destruct (decide (x = c)) as [->|]; [left|]. simpl. intros Hp. right. eauto.
Qed.

Section insert_columns.
Context `{conv : Convert}.

Lemma stored_text_or_null v : text_or_null (stored v).
Proof. unfold stored, text_or_null. destruct (nan_like _); eauto. Qed.

Lemma projection_shape cols df :
  Forall (λ r, length r = length cols ∧ Forall text_or_null r) (projection cols df).
Proof.
  unfold projection. apply Forall_fmap, Forall_forall. intros r _. simpl. split.
  - by rewrite length_map.
  - apply Forall_fmap, Forall_forall. intros c _. apply stored_text_or_null.
Qed.

(** C10. For a table of the registry, [insert] either raises and leaves the
    database as it was, or writes, for every row of the dataframe, one row
    made of the registry's columns in the registry's order and of nothing
    else; every cell it writes is a string or NULL, whatever the datatype of
    the input; and it does write when the registry's columns are each found
    once in the dataframe and the table has as many columns. *)
Theorem insert_writes_registry_columns
    (df : DataFrame) (table : string) (cols : list string) (db : Database) :
  tables db !! table = Some cols →
  match insert df table db with
  | (Ok _, db') =>
      (∀ c, c ∈ cols → c ∈ columns df)
      ∧ db' = with_conn (alter (upsert_all (projection cols df)) table) db
  | (Raise _, db') => db' = db
  end
  ∧ Forall (λ r, length r = length cols ∧ Forall text_or_null r) (projection cols df)
  ∧ (∀ t, conn db !! table = Some t →
          length (t_columns t) = length cols →
          (∀ c, c ∈ cols → length (positions c (columns df)) = 1) →
          outcome (insert df table) db = Ok tt).
Proof.
  intros Hcols. split_and!.
  - rewrite insert_closed_form. unfold insert_plan. rewrite Hcols.
    destruct (map_result (locate df) cols) as [idx|] eqn:Hidx; [|done].
    destruct (conn db !! table) as [t|]; [|done].
    case_bool_decide; [|done]. destruct (_ || _); [|done].
    split; [|done]. intros c Hc. apply locate_all_ok in Hidx.
    apply list_elem_of_lookup in Hc as [i Hi].
    destruct (Forall2_lookup_l _ _ _ _ _ Hidx Hi) as (ps & _ & -> & Hne).
    by apply positions_from_label in Hne.
  - apply projection_shape.
  - intros t Ht Hw Hone. unfold outcome. rewrite insert_closed_form.
    unfold insert_plan. rewrite Hcols, Ht.
    assert (map_result (locate df) cols
            = Ok (map (λ c, positions c (columns df)) cols)) as ->.
    { apply map_result_total. intros c Hc. unfold locate.
      specialize (Hone c Hc). by destruct (positions c (columns df)). }
    rewrite (bool_decide_true _ Hw).
    assert (length (concat (map (λ c, positions c (columns df)) cols)) = length cols) as ->.
    { clear -Hone. induction cols as [|c cols IH]; [done|].
      simpl. rewrite length_app, Hone by left. f_equal. apply IH.
      intros c' Hc'. apply Hone. by right. }
    rewrite (bool_decide_true (length cols = length cols)) by done. by rewrite orb_true_r.
Qed.

End insert_columns.

Lemma insert_writes_registry_columns_witness :
  tables example_db !! "_raw" = Some ["id"; "title"]
  ∧ insert (conv := example_convert) example_df "_raw" example_db
    = (Ok tt,
       {| tables := {[ "_raw" := ["id"; "title"] ]};
          conn := {[ "_raw" := {| t_columns := ["id"; "title"]; t_key := "id";
                                  t_rows := [[SText "1"; SText "new"];
                                             [SText "2"; SNull]] |} ]} |})
  ∧ Forall (λ r, length r = 2 ∧ Forall text_or_null r)
           (projection (conv := example_convert) ["id"; "title"] example_df).
Proof.
  pose proof (insert_writes_registry_columns (conv := example_convert)
                example_df "_raw" ["id"; "title"] example_db eq_refl) as (_ & Hshape & _).
  split_and!; [reflexivity|vm_compute; reflexivity|exact Hshape].
Defined.

Lemma upsert_idempotent_and_keyed_witness :
  let once := exec (insert (conv := example_convert) example_df "_raw") example_db in
  exec (insert (conv := example_convert) example_df "_raw") once = once
  ∧ db_keyed once
  ∧ rows_under {| t_columns := ["id"; "title"]; t_key := "id";
                  t_rows := [[SText "1"; SText "new"]; [SText "2"; SNull]] |}
               (SText "1")
    = [[SText "1"; SText "new"]].
Proof.
  pose proof (upsert_idempotent_and_keyed (conv := example_convert)
                example_df "_raw" example_db) as (Hidem & Hkeyed & Hlast).
  split_and!.
  - apply Hidem. intros cols t Hcols Ht.
    assert (cols = ["id"; "title"]) as -> by (vm_compute in Hcols; congruence).
    assert (t = {| t_columns := ["id"; "title"]; t_key := "id";
                   t_rows := [[SText "1"; SText "old"]] |}) as ->
      by (vm_compute in Ht; congruence).
    vm_compute. repeat (constructor; [by eexists|]). constructor.
  - apply (Hkeyed [example_df]). intros name t.
    destruct (decide (name = "_raw")) as [->|Hne].
    + intros [= <-]. unfold keyed. simpl. apply NoDup_singleton.
    + unfold example_db. simpl. rewrite lookup_singleton_ne by done. done.
  - exact (proj1 (Hlast ["id"; "title"]
             {| t_columns := ["id"; "title"]; t_key := "id";
                t_rows := [[SText "1"; SText "old"]] |}
             {| t_columns := ["id"; "title"]; t_key := "id";
                t_rows := [[SText "1"; SText "new"]; [SText "2"; SNull]] |}
             eq_refl eq_refl eq_refl eq_refl) (SText "1")).
Defined.

(** Against C1 as stated: a record without id is stored with a NULL id,
    and a second insert of the same batch stores it again; the table then
    holds two rows with the same, missing, id. *)
Lemma upsert_twice_without_id :
  let df := {| columns := ["id"; "title"]; rows := [[VNaN; VStr "flood"]] |} in
  let once := exec (insert (conv := example_convert) df "_raw") example_db in
  let twice := exec (insert (conv := example_convert) df "_raw") once in
  (t_rows <$> conn once !! "_raw")
  = Some [[SText "1"; SText "old"]; [SNull; SText "flood"]]
  ∧ (t_rows <$> conn twice !! "_raw")
    = Some [[SText "1"; SText "old"]; [SNull; SText "flood"]; [SNull; SText "flood"]]
  ∧ twice ≠ once.
Proof.
  split_and!; [by vm_compute..|].
  intros Heq.
  apply (f_equal (λ d, length <$> (t_rows <$> conn d !! "_raw"))) in Heq.
  by vm_compute in Heq.
Qed.

(** ** Staleness and vertical content *)

(** *** Staleness *)

Lemma left_join_spec vert raw i c d :
  (i, c, d) ∈ left_join vert raw ↔
  (i, d) ∈ vert ∧ ((i, c) ∈ raw ∨ (c = None ∧ ∀ c', (i, c') ∉ raw)).
Proof.
  unfold left_join. rewrite (list_elem_of_In (flat_map _ _)), in_flat_map. split.
  - intros ([j d'] & Hv%list_elem_of_In & Hin%list_elem_of_In). cbn [fst snd] in Hin.
    destruct (filter (λ r, r.1 = j) raw) as [|m ms] eqn:Hf.
    + apply list_elem_of_singleton in Hin as [= -> -> ->]. split; [done|].
      right. split; [done|]. intros c' Hc'.
      assert ((j, c') ∈ filter (λ r : Z * Timestamp, r.1 = j) raw) as Hm
        by (by apply list_elem_of_filter).
      rewrite Hf in Hm. by apply elem_of_nil in Hm.
    + rewrite <-Hf in Hin. apply list_elem_of_fmap in Hin as ([j' c'] & [= -> -> ->] & Hm).
      apply list_elem_of_filter in Hm as [Hj Hm]. simpl in Hj. subst. auto.
  - intros [Hv Hr]. exists (i, d). split; [by apply list_elem_of_In|].
    apply list_elem_of_In. cbn [fst snd].
    destruct (filter (λ r, r.1 = i) raw) as [|m ms] eqn:Hf.
    + destruct Hr as [Hr|[-> _]]; [|by left].
      assert ((i, c) ∈ filter (λ r : Z * Timestamp, r.1 = i) raw) as Hm
        by (by apply list_elem_of_filter).
      rewrite Hf in Hm. by apply elem_of_nil in Hm.
    + rewrite <-Hf. destruct Hr as [Hr|[-> Hr]].
      * apply list_elem_of_fmap. exists (i, c). split; [done|].
        by apply list_elem_of_filter.
      * exfalso. destruct m as [j c']. apply (Hr c').
        assert ((j, c') ∈ filter (λ r : Z * Timestamp, r.1 = i) raw) as Hm
          by (rewrite Hf; left).
        apply list_elem_of_filter in Hm as [Hj Hm]. simpl in Hj. by subst.
Qed.

Lemma outdated_vert_spec vert raw i :
  i ∈ outdated_vert vert raw ↔
  ∃ c d, (i, Some c) ∈ raw ∧ (i, Some d) ∈ vert ∧ (d < c)%Z.
Proof.
  unfold outdated_vert. rewrite list_elem_of_fmap. split.
  - intros ([[j c] d] & -> & Hin). simpl.
    apply list_elem_of_filter in Hin as [Hl Hin]. simpl in Hl.
    apply left_join_spec in Hin as [Hv Hr].
    destruct c as [c|]; [|done]. destruct d as [d|]; [|done].
    apply bool_decide_unpack in Hl.
    destruct Hr as [Hr|[? _]]; [|done]. eauto.
  - intros (c & d & Hr & Hv & Hlt). exists (i, Some c, Some d). split; [done|].
    apply list_elem_of_filter. split.
    + simpl. by apply bool_decide_pack.
    + apply left_join_spec. auto.
Qed.

Lemma skip_up_to_date_spec {Row} (row_id : Row → Z) vert raw batch x :
  x ∈ skip_up_to_date row_id vert raw batch ↔
  x ∈ batch ∧ (row_id x ∉ map fst vert
               ∨ ∃ c d, (row_id x, Some c) ∈ raw ∧ (row_id x, Some d) ∈ vert ∧ (d < c)%Z).
Proof.
  unfold skip_up_to_date. rewrite list_elem_of_filter, list_elem_of_filter.
  rewrite <-outdated_vert_spec.
  destruct (decide (row_id x ∈ map fst vert)); destruct (decide (row_id x ∈ outdated_vert vert raw)); tauto.
Qed.

Lemma elem_of_rows_of m i t : (i, t) ∈ rows_of m ↔ ∃ z, t = Some z ∧ m !! i = Some z.
Proof.
  unfold rows_of. rewrite list_elem_of_fmap. split.
  - intros ([j z] & [= -> ->] & Hin). apply elem_of_map_to_list in Hin. eauto.
  - intros (z & -> & Hm). exists (i, z). split; [done|]. by apply elem_of_map_to_list.
Qed.

Lemma elem_of_rows_of_ids m i : i ∈ map fst (rows_of m) ↔ is_Some (m !! i).
Proof.
  rewrite list_elem_of_fmap. split.
  - intros ([j t] & -> & Hin). apply elem_of_rows_of in Hin as (z & _ & Hz). eauto.
  - intros [z Hz]. exists (i, Some z). split; [done|]. apply elem_of_rows_of. eauto.
Qed.

(** C2. The rows of a batch that are kept as due are exactly those whose id
    has no annotated document, or whose raw changed timestamp is strictly
    greater than the creation timestamp of its annotated document; so an id
    with equal timestamps is not due, an id absent from the annotations is
    due, and an annotated id whose raw timestamp is not greater is not due.
    The computation is a function of the two tables and the batch, and
    reads them only. *)
Theorem due_set_exact {Row} (row_id : Row → Z) (R A : gmap Z Z) (batch : list Row) :
  let due := skip_up_to_date row_id (rows_of A) (rows_of R) batch in
  (∀ x, x ∈ due ↔
        x ∈ batch ∧ (A !! row_id x = None
                     ∨ ∃ r a, R !! row_id x = Some r ∧ A !! row_id x = Some a ∧ (a < r)%Z))
  ∧ (∀ x t, R !! row_id x = Some t → A !! row_id x = Some t → x ∉ due)
  ∧ (∀ x, x ∈ batch → A !! row_id x = None → x ∈ due)
  ∧ (∀ x r a, R !! row_id x = Some r → A !! row_id x = Some a → (r ≤ a)%Z → x ∉ due).
Proof.
  intros due.
  assert (∀ x, x ∈ due ↔
        x ∈ batch ∧ (A !! row_id x = None
                     ∨ ∃ r a, R !! row_id x = Some r ∧ A !! row_id x = Some a ∧ (a < r)%Z))
    as Hdue.
  { intros x. unfold due. rewrite skip_up_to_date_spec, elem_of_rows_of_ids.
    rewrite <-eq_None_not_Some.
    assert ((∃ c d, (row_id x, Some c) ∈ rows_of R ∧ (row_id x, Some d) ∈ rows_of A ∧ (d < c)%Z)
            ↔ ∃ r a, R !! row_id x = Some r ∧ A !! row_id x = Some a ∧ (a < r)%Z) as ->; [|done].
    split.
    - intros (c & d & (? & [= <-] & ?)%elem_of_rows_of & (? & [= <-] & ?)%elem_of_rows_of & ?). eauto.
    - intros (r & a & ? & ? & ?). exists r, a. rewrite !elem_of_rows_of. eauto 10. }
  split_and!.
  - exact Hdue.
  - intros x t HR HA [_ [Hn|(r & a & Hr & Ha & Hlt)]]%Hdue; [congruence|].
    rewrite HR in Hr. rewrite HA in Ha. simplify_eq. lia.
  - intros x Hx HA. apply Hdue. auto.
  - intros x r a HR HA Hle [_ [Hn|(r' & a' & Hr & Ha & Hlt)]]%Hdue; [congruence|].
    rewrite HR in Hr. rewrite HA in Ha. simplify_eq. lia.
Qed.

(** *** Vertical lines *)

Lemma append_nil_r (s : string) : s +:+ "" = s.
Proof.
  induction s as [|a s IH]; [done|].
  change (String a (s +:+ "") = String a s). by rewrite IH.
Qed.

Lemma append_assoc (s1 s2 s3 : string) : (s1 +:+ s2) +:+ s3 = s1 +:+ (s2 +:+ s3).
Proof.
  induction s1 as [|a s1 IH]; [done|].
  change (String a ((s1 +:+ s2) +:+ s3) = String a (s1 +:+ (s2 +:+ s3))).
  by rewrite IH.
Qed.

Lemma join_cons (x : string) (xs : list string) :
  String.concat "" (x :: xs) = x +:+ String.concat "" xs.
Proof. destruct xs; simpl; [by rewrite append_nil_r|done]. Qed.

Lemma join_app (l1 l2 : list string) :
  String.concat "" (l1 ++ l2) = String.concat "" l1 +:+ String.concat "" l2.
Proof.
  induction l1 as [|x l1 IH]; [done|].
  rewrite <-app_comm_cons, !join_cons, IH. by rewrite append_assoc.
Qed.

Lemma for_each_ok {S A} (l : list A) (body : A → M S unit) (f : A → S → S) s :
  (∀ x s, x ∈ l → body x s = (Ok tt, f x s)) →
  for_each l body s = (Ok tt, foldl (λ s x, f x s) s l).
Proof.
  revert s. induction l as [|x l IH]; intros s Hb; [done|].
  simpl. unfold bind at 1. rewrite Hb by left. apply IH.
  intros y s' Hy. apply Hb. by right.
Qed.

Section format.
Context (bundle : DocBundle Document) (tagset : gmap string (gmap string string)).


(** C9. A word "Cats" tagged NNS with lemma "cat", under a tagset whose
    entry for NNS has the suffix "-n", makes the line Cats TAB NNS TAB cat-n
    NEWLINE; and whenever a sentence is formatted, the result is the start
    marker line, then one line per word made of surface text, tag and lemma
    with the suffix of the tag, tab-separated and newline-terminated, then
    the end marker line.  A sentence is formatted whenever every tag has a
    suffix and the document index is one of the bundle. *)
Theorem vertical_format_deterministic :
  (∀ entry, tagset !! "NNS" = Some entry → entry !! "lpos" = Some "-n" →
     make_line tagset cats
     = Ok ("Cats" +:+ TAB +:+ "NNS" +:+ TAB +:+ "cat-n" +:+ NL)
     ∧ ∀ x log,
         make_sentence bundle tagset {| words := [cats] |} x log
         = (Ok ("<s>" +:+ NL +:+ "Cats" +:+ TAB +:+ "NNS" +:+ TAB +:+ "cat-n" +:+ NL
                +:+ "</s>" +:+ NL), log))
  ∧ (∀ sent x log s log',
       make_sentence bundle tagset sent x log = (Ok s, log') →
       ∃ lines,
         s = ("<s>" +:+ NL) +:+ String.concat "" lines +:+ ("</s>" +:+ NL)
         ∧ Forall2 (λ w line, ∃ suffix,
                      lpos tagset w = Ok suffix
                      ∧ line = text w +:+ TAB +:+ xpos w +:+ TAB
                               +:+ fix_lemma w +:+ suffix +:+ NL)
                   (words sent) lines)
  ∧ (∀ sent x log,
       x < length (bundle_id bundle) →
       Forall (λ w, is_ok (lpos tagset w)) (words sent) →
       is_ok (outcome (make_sentence bundle tagset sent x) log)).
Proof.
  split_and!.
  - intros entry Htag Hlpos.
    assert (make_line tagset cats
            = Ok ("Cats" +:+ TAB +:+ "NNS" +:+ TAB +:+ "cat-n" +:+ NL)) as Hline.
    { unfold make_line, lpos. simpl. by rewrite Htag, Hlpos. }
    split; [done|]. intros x log.
    unfold make_sentence, bind, lift, ret, make_lines. simpl.
    unfold bind, ret. simpl. by rewrite Hline.
  - intros sent x log s log'. unfold make_sentence, bind, lift, ret. cbv zeta.
    destruct (lemmatize_fail bundle sent x log) as [[[]|e] log1]; [|done].
    destruct (make_lines tagset sent) as [lines|e] eqn:Hlines; [|done].
    intros [= <- <-]. exists lines. split.
    + transitivity (String.concat "" (("<s>" +:+ NL) :: (lines ++ ["</s>" +:+ NL])));
        [done|].
      rewrite join_cons, join_app. done.
    + apply map_result_ok in Hlines. eapply Forall2_impl; [exact Hlines|].
      intros w line. unfold make_line. simpl.
      destruct (lpos tagset w) as [suffix|]; [|done]. intros [= <-]. eauto.
  - intros sent x log Hx Htags. unfold outcome, make_sentence, bind, lift, ret.
    apply lookup_lt_is_Some_2 in Hx as [id Hid]. unfold lemmatize_fail.
    rewrite (for_each_ok _ _ (λ w l, match lemma w with
                                     | None => l ++ [LemmaMissing id (text w)]
                                     | Some _ => l end)).
    2:{ intros w l _. rewrite Hid. by destruct (lemma w). }
    assert (is_ok (make_lines tagset sent)) as Hok.
    { unfold make_lines. induction Htags as [|w ws Hw _ IH]; [done|].
      simpl. unfold make_line at 1. destruct (lpos tagset w); [|done].
      by destruct (map_result (make_line tagset) ws). }
    by destruct (make_lines tagset sent).
Qed.

End format.

Lemma vertical_format_deterministic_witness :
  example_tagset !! "NNS" = Some {[ "lpos" := "-n" ]}
  ∧ make_line example_tagset cats
    = Ok ("Cats" +:+ TAB +:+ "NNS" +:+ TAB +:+ "cat-n" +:+ NL).
Proof.
  split; [reflexivity|].
  destruct (vertical_format_deterministic
              {| bundle_id := ["101"]; bundle_doc := []; bundle_token := 0 |}
              example_tagset) as (Hcats & _).
  exact (proj1 (Hcats {[ "lpos" := "-n" ]} eq_refl eq_refl)).
Defined.

(** *** Empty vertical content *)

Lemma vert_len_zero i r : vert_len_is (λ n, n =? 0) i r ↔ empty_content i r.
Proof.
  unfold vert_len_is, empty_content. destruct (str_len (cell_at r i)) as [[|n]|]; simpl; split; try done.
Qed.

Lemma vert_len_pos i r : vert_len_is (λ n, 0 <? n) i r ↔ has_content i r.
Proof.
  unfold vert_len_is, has_content. destruct (str_len (cell_at r i)) as [[|n]|]; simpl; split; try done.
  - intros (n & [= <-] & ?). lia.
  - intros _. exists (S n). split; [done|lia].
  - by intros (n & ? & _).
Qed.

Section drop.
Context `{conv : Convert} `{inf : Inferred} `{ann : Annotator}.

Lemma drop_empty_vert_spec df log i j :
  head (positions "vert" (columns df)) = Some i →
  head (positions "id" (columns df)) = Some j →
  str_values (column_cells i df) = true →
  drop_empty_vert df log = (Ok (kept i df), logged i j df log).
Proof.
  intros Hi Hj Hstr. unfold drop_empty_vert, bind, lift, query_vert_len.
  rewrite Hi, Hstr. unfold empty. cbn [columns rows].
  assert (columns df ≠ []) as Hne by (intros Hc; by rewrite Hc in Hi).
  rewrite (bool_decide_false _ Hne). simpl.
  rewrite (list_filter_iff _ (empty_content i)) by (intros; apply vert_len_zero).
  rewrite (list_filter_iff (λ r, vert_len_is (λ n, 0 <? n) i r) (has_content i))
    by (intros; apply vert_len_pos).
  unfold logged, dropped_ids, id_values. cbn [columns rows]. rewrite Hj.
  destruct (filter (empty_content i) (rows df)) as [|r rs] eqn:Hf.
  - rewrite bool_decide_true by done. done.
  - rewrite bool_decide_false by done. done.
Qed.

Lemma projection_kept cols i df :
  projection cols (kept i df)
  = map (λ r, map (λ c, stored (column_value df r c)) cols)
        (filter (has_content i) (rows df)).
Proof. done. Qed.

(** C8. In a batch of annotated documents that has its [vert] and [id]
    columns, the [vert] column one that pandas takes for strings, the
    documents whose content has length zero are named in one warning and
    left out: [drop_empty_vert] returns, with every other document of the
    batch, in order.  [batch_run] then writes these and returns: when the
    [_vert] table is there as the registry has it and the batch has the
    registry's columns, the table afterwards holds the rows it held and
    the rows of the documents with content, replaced on conflict in the
    order of the batch; every row in it was there before or is the row of
    a document with content, and the row of every document with content is
    in it, unless a later document with content of the batch took its
    key, whose row is then in it. *)
Theorem empty_documents_dropped (df : DataFrame) (log : list warning) (i j : nat) :
  head (positions "vert" (columns df)) = Some i →
  head (positions "id" (columns df)) = Some j →
  str_values (column_cells i df) = true →
  drop_empty_vert df log = (Ok (kept i df), logged i j df log)
  ∧ Forall (has_content i) (rows (kept i df))
  ∧ (∀ r, r ∈ rows df → has_content i r → r ∈ rows (kept i df))
  ∧ (∀ r, r ∈ rows df → empty_content i r →
          (r ∉ rows (kept i df))
          ∧ (∃ ids, logged i j df log = log ++ [EmptyVert ids] ∧ cell_at r j ∈ ids))
  ∧ (∀ batch stan c vert cols t,
        stanza_run batch = Ok stan →
        stanza_to_vert stan (corpus_tagset c) (corpus_log c) = (Ok vert, log) →
        docbundle_to_df vert = df →
        tables (corpus_db c) !! "_vert" = Some cols →
        conn (corpus_db c) !! "_vert" = Some t →
        length (t_columns t) = length cols →
        (∀ x, x ∈ cols → length (positions x (columns df)) = 1) →
        let row_of := λ r, map (λ x, stored (column_value df r x)) cols in
        outcome (batch_run batch) c = Ok (bundle_token stan)
        ∧ corpus_log (exec (batch_run batch) c) = logged i j df log
        ∧ ∃ t', conn (corpus_db (exec (batch_run batch) c)) !! "_vert" = Some t'
                ∧ t_rows t'
                  = put_all (key_under t)
                            (map row_of (filter (has_content i) (rows df))) (t_rows t)
                ∧ (∀ row, row ∈ t_rows t' →
                          row ∈ t_rows t
                          ∨ ∃ r, r ∈ rows df ∧ has_content i r ∧ row = row_of r)
                ∧ (∀ r, r ∈ rows df → has_content i r →
                        ∃ r', r' ∈ rows df ∧ has_content i r'
                              ∧ row_of r' ∈ t_rows t'
                              ∧ (row_of r' = row_of r
                                 ∨ (is_Some (key_under t (row_of r))
                                    ∧ key_under t (row_of r')
                                      = key_under t (row_of r))))).
Proof.
  intros Hi Hj Hstr. split_and!.
  - by apply drop_empty_vert_spec.
  - apply Forall_forall. intros r Hr. simpl in Hr.
    by apply list_elem_of_filter in Hr as [? _].
  - intros r Hr Hc. simpl. by apply list_elem_of_filter.
  - intros r Hr He. split.
    + simpl. intros [(n & Hn & Hpos) _]%list_elem_of_filter.
      unfold empty_content in He. rewrite He in Hn. simplify_eq. lia.
    + unfold logged. assert (cell_at r j ∈ dropped_ids i j df) as Hin.
      { unfold dropped_ids. apply list_elem_of_fmap. exists r. split; [done|].
        by apply list_elem_of_filter. }
      destruct (dropped_ids i j df) as [|v vs]; [by apply elem_of_nil in Hin|]. eauto.
  - intros batch stan c vert cols t Hstan Hvert Hdf Hcols Ht Hw Hone row_of.
    assert (bundle_token vert = bundle_token stan) as Htoken.
    { revert Hvert. unfold stanza_to_vert, make_docs. unfold bind at 1.
      destruct (map_M _ _ _) as [[docs|e] l]; [|done]. by intros [= <- _]. }
    assert (insert (kept i df) "_vert" (corpus_db c)
            = (Ok tt, with_conn (alter (upsert_all (projection cols (kept i df))) "_vert")
                                (corpus_db c))) as Hins.
    { rewrite insert_closed_form. unfold insert_plan. rewrite Hcols, Ht.
      assert (map_result (locate (kept i df)) cols
              = Ok (map (λ x, positions x (columns df)) cols)) as ->.
      { apply map_result_total. intros x Hx. unfold locate. cbn [kept columns].
        specialize (Hone x Hx). by destruct (positions x (columns df)). }
      rewrite (bool_decide_true _ Hw).
      assert (length (concat (map (λ x, positions x (columns df)) cols)) = length cols) as ->.
      { clear -Hone. induction cols as [|x cols IH]; [done|].
        simpl. rewrite length_app, Hone by left. f_equal. apply IH.
        intros x' Hx'. apply Hone. by right. }
      rewrite (bool_decide_true (length cols = length cols)) by done.
      by rewrite orb_true_r. }
    assert (batch_run batch c =
            (Ok (bundle_token vert),
             {| corpus_db := with_conn (alter (upsert_all (projection cols (kept i df)))
                                              "_vert") (corpus_db c);
                corpus_log := logged i j df log;
                corpus_tagset := corpus_tagset c |})) as Hrun.
    { unfold batch_run, bind, lift, get. rewrite Hstan.
      unfold on_log, zoom. rewrite Hvert. cbn [corpus_log]. rewrite Hdf.
      rewrite (drop_empty_vert_spec df log i j Hi Hj Hstr).
      unfold on_db, zoom. cbn [corpus_db corpus_log corpus_tagset].
      by rewrite Hins. }
    unfold outcome, exec. rewrite Hrun. cbn [fst snd corpus_db corpus_log].
    split_and!; [by rewrite Htoken|done|].
    exists (upsert_all (projection cols (kept i df)) t).
    cbn [with_conn conn]. rewrite lookup_alter_eq, Ht. split; [done|].
    rewrite upsert_all_rows, projection_kept. cbn [t_rows]. split_and!.
    + done.
    + intros row [Hold|Hnew]%put_all_elem; [by left|right].
      apply list_elem_of_fmap in Hnew as (r & -> & [Hc Hr]%list_elem_of_filter).
      by exists r.
    + intros r Hr Hc.
      destruct (put_all_written (key_under t)
                  (map row_of (filter (has_content i) (rows df))) (t_rows t) (row_of r))
        as (row' & Hin & Hbatch & Hrel).
      { apply list_elem_of_fmap. exists r. split; [done|]. by apply list_elem_of_filter. }
      apply list_elem_of_fmap in Hbatch as (r' & -> & [Hc' Hr']%list_elem_of_filter).
      exists r'. by split_and!.
Qed.

End drop.

Lemma empty_documents_dropped_witness :
  let run := batch_run (conv := example_convert) (inf := example_inferred)
                       (ann := example_annotator example_bundle) example_batch in
  let cats_doc := "<s>" +:+ NL +:+ "Cats" +:+ TAB +:+ "NNS" +:+ TAB +:+ "cat-n"
                  +:+ NL +:+ "</s>" +:+ NL in
  drop_empty_vert (inf := example_inferred) example_batch []
  = (Ok {| columns := ["id"; "vert"];
           rows := [[VStr "101"; VStr ("<s>" +:+ NL +:+ "</s>" +:+ NL)]] |},
     [EmptyVert [VStr "102"]])
  ∧ outcome run example_corpus = Ok 1
  ∧ corpus_log (exec run example_corpus) = [EmptyVert [VStr "102"]]
  ∧ (t_rows <$> conn (corpus_db (exec run example_corpus)) !! "_vert")
    = Some [[SText "101"; SText cats_doc]].
Proof.
  intros run cats_doc. split.
  { exact (proj1 (empty_documents_dropped
                    (conv := example_convert) (inf := example_inferred)
                    (ann := example_annotator example_bundle)
                    example_batch [] 1 0 eq_refl eq_refl eq_refl)). }
  set (vert := {| bundle_id := ["101"; "102"]; bundle_doc := [cats_doc; ""];
                  bundle_token := 1 |}).
  set (df := {| columns := ["id"; "vert"];
                rows := [[VStr "101"; VStr cats_doc]; [VStr "102"; VStr ""]] |}).
  pose proof (empty_documents_dropped
                (conv := example_convert) (inf := example_inferred)
                (ann := example_annotator example_bundle)
                df [] 1 0 eq_refl eq_refl eq_refl) as (_ & _ & _ & _ & Hrun).
  assert (∀ x, x ∈ ["id"; "vert"] → length (positions x (columns df)) = 1) as Hone.
  { intros x Hx. repeat (apply elem_of_cons in Hx as [->|Hx]; [reflexivity|]).
    by apply elem_of_nil in Hx. }
  destruct (Hrun example_batch example_bundle example_corpus vert ["id"; "vert"]
              {| t_columns := ["id"; "vert"]; t_key := "id"; t_rows := [] |}
              eq_refl eq_refl eq_refl eq_refl eq_refl eq_refl Hone)
    as (Hout & Hlog & t' & Ht' & Hrows & _).
  split_and!.
  - exact Hout.
  - etrans; [exact Hlog|reflexivity].
  - unfold run. rewrite Ht'. simpl. rewrite Hrows. reflexivity.
Defined.

(** ** The crawl *)

Import ReliefWeb.

(** *** A frame rule for methods *)

Section within.
Context {S : Type} (R : S → S → Prop) (E : exn → Prop).
Context `{!Reflexive R} `{!Transitive R}.

Lemma within_ret {A} (a : A) : within R E (ret a).
Proof. intros s. split; [reflexivity|done]. Qed.

Lemma within_get : within R E get.
Proof. intros s. split; [reflexivity|done]. Qed.

Lemma within_raise {A} e : E e → within R E (raise (A := A) e).
Proof. intros He s. split; [reflexivity|]. by intros e' [= <-]. Qed.

Lemma within_lift {A} (r : result A) :
  (∀ e, r = Raise e → E e) → within R E (lift r).
Proof. intros Hr s. split; [reflexivity|done]. Qed.

Lemma within_modify (f : S → S) : (∀ s, R s (f s)) → within R E (modify f).
Proof. intros Hf s. split; [apply Hf|done]. Qed.

Lemma within_bind {A B} (m : M S A) (k : A → M S B) :
  within R E m → (∀ a, within R E (k a)) → within R E (bind m k).
Proof.
  intros Hm Hk s. unfold bind. destruct (Hm s) as [HR HE].
  destruct (m s) as [[a|e] s1]; simpl in *.
  - destruct (Hk a s1) as [HR' HE']. split; [by etrans|done].
  - split; [done|]. intros e' [= <-]. by apply HE.
Qed.

Lemma within_for_each {A} (l : list A) (body : A → M S unit) :
  (∀ x, within R E (body x)) → within R E (for_each l body).
Proof.
  intros Hb. induction l as [|x l IH]; simpl.
  - apply within_ret.
  - apply within_bind; [apply Hb|]. intros _. apply IH.
Qed.

End within.

#[global] Instance same_call_refl : Reflexive same_call.
Proof. intros j. by repeat split. Qed.

#[global] Instance same_call_trans : Transitive same_call.
Proof.
  intros j1 j2 j3 (?&?&?&?&?&?&?&Hd) (?&?&?&?&?&?&?&Hd').
  unfold same_call. split_and!; try congruence. tauto.
Qed.

Lemma map_result_raises {A B} (E : exn → Prop) (f : A → result B) l e :
  (∀ x e, f x = Raise e → E e) → map_result f l = Raise e → E e.
Proof.
  intros Hf. induction l as [|x l IH]; simpl; [done|].
  destruct (f x) eqn:Hx; [|intros [= <-]; eauto].
  destruct (map_result f l); [done|]. intros [= <-]. by apply IH.
Qed.

Ltac wstep :=
  first
    [ by (apply within_ret; try apply _)
    | by (apply within_get; try apply _)
    | by (apply within_raise; try apply _; exact I)
    | apply within_bind; try apply _; [|intros ?]
    | apply within_for_each; try apply _; intros ?
    | apply within_modify; try apply _ ].

Section database.
Context `{conv : Convert}.

Lemma database_insert_raises df table :
  within (λ _ _, True) not_config_error (Database.insert df table).
Proof.
  intros db. split; [done|]. intros e. rewrite insert_closed_form.
  unfold insert_plan.
  destruct (tables db !! table) as [cols|]; [|by intros [= <-]].
  destruct (map_result (locate df) cols) as [idx|e'] eqn:Hidx.
  - destruct (conn db !! table); [|by intros [= <-]].
    case_bool_decide; [|by intros [= <-]].
    destruct (_ || _); [done|by intros [= <-]].
  - intros [= <-]. eapply (map_result_raises not_config_error); [|exact Hidx].
    intros c e. unfold locate. destruct (positions c (columns df)); [|done].
    by intros [= <-].
Qed.

Lemma add_missing_columns_raises df table :
  within (λ _ _, True) not_config_error (add_missing_columns df table).
Proof.
  intros db. split; [done|]. intros e. unfold add_missing_columns, bind, get.
  destruct (tables db !! table); [done|]. by intros [= <-].
Qed.

End database.

Lemma within_on_db {A} (m : M Database.Database A) :
  within (λ _ _, True) not_config_error m →
  within same_call not_config_error (ReliefWeb.on_db m).
Proof.
  intros Hm j. unfold ReliefWeb.on_db.
  destruct (db j) as [d|] eqn:Hd.
  - destruct (Hm d) as [_ HE]. destruct (m d) as [r d']. simpl in *. split; [|done].
    unfold same_call. simpl. rewrite Hd. repeat split; eauto.
  - simpl. split; [reflexivity|]. by intros e [= <-].
Qed.

Section job_frames.
Context `{conv : Convert} `{call : Call}.

Lemma the_response_within : within same_call not_config_error the_response.
Proof.
  unfold the_response. wstep; [wstep|]. destruct (response_json a); wstep.
Qed.

Lemma the_call_n_within : within same_call not_config_error the_call_n.
Proof.
  unfold the_call_n. wstep; [wstep|]. destruct (call_n a); wstep.
Qed.

Lemma _insert_log_within : within same_call not_config_error _insert_log.
Proof.
  unfold _insert_log. wstep; [apply the_response_within|]. wstep; [wstep|].
  apply within_on_db, database_insert_raises.
Qed.

Lemma column_index_raises c df e : column_index c df = Raise e → not_config_error e.
Proof.
  unfold column_index. destruct (head (positions c (columns df))); [done|].
  by intros [= <-].
Qed.

Lemma length_message_not_sort a b : length_message a b ≠ sort_message.
Proof.
  intros Heq.
  apply (f_equal (λ s, match s with String c _ => c | EmptyString => "000"%char end)) in Heq.
  vm_compute in Heq. discriminate.
Qed.

Lemma json_normalize_raises items e : json_normalize items = Raise e → not_config_error e.
Proof.
  unfold json_normalize.
  destruct (map_result _ items) as [records|e'] eqn:Hm; [done|]. intros [= <-].
  eapply (map_result_raises not_config_error); [|exact Hm].
  intros x e''. by destruct x; intros [= <-].
Qed.

Lemma ids_of_row_raises df file r e : ids_of_row df file r = Raise e → not_config_error e.
Proof.
  unfold ids_of_row. destruct (column_index "id" df) as [id|e'] eqn:Hid.
  - unfold py_len. by destruct (cell_at r file); intros [= <-].
  - intros [= <-]. by eapply column_index_raises.
Qed.

Lemma setitem_list_raises c values df e :
  setitem_list c values df = Raise e → not_config_error e.
Proof.
  unfold setitem_list. case_bool_decide.
  - by destruct (positions c (columns df)).
  - intros [= <-]. apply length_message_not_sort.
Qed.

Lemma _insert_pdf_within : within same_call not_config_error _insert_pdf.
Proof.
  unfold _insert_pdf. wstep; [wstep|].
  wstep.
  { apply within_lift; try apply _. apply column_index_raises. }
  cbv zeta. case_match; [|wstep].
  wstep.
  { apply within_lift; try apply _. apply json_normalize_raises. }
  wstep.
  { apply within_lift; try apply _. intros e. apply map_result_raises.
    intros r e'. apply ids_of_row_raises. }
  wstep.
  { apply within_lift; try apply _. apply setitem_list_raises. }
  wstep; [apply within_on_db, add_missing_columns_raises|].
  apply within_on_db, database_insert_raises.
Qed.

Lemma insert_within : within same_call not_config_error ReliefWeb.insert.
Proof.
  unfold ReliefWeb.insert. wstep; [apply the_response_within|]. wstep; [wstep|].
  cbv zeta. wstep; [apply within_on_db, add_missing_columns_raises|].
  wstep; [wstep; intros s; by repeat split|].
  wstep.
  { case_match; [apply within_on_db, database_insert_raises|wstep]. }
  wstep; [apply _insert_log_within|apply _insert_pdf_within].
Qed.

End job_frames.

Section job_frames2.
Context `{conv : Convert} `{call : Call}.

Lemma _get_field_names_within : within same_call not_config_error _get_field_names.
Proof.
  unfold _get_field_names. wstep; [apply the_response_within|].
  wstep; [wstep; intros s; by repeat split|].
  wstep. destruct (dict_get "fields" x) as [[]|]; try wstep.
  intros s; by repeat split.
Qed.

Lemma _hash_within : within same_call not_config_error _hash.
Proof. unfold _hash. wstep. intros s; by repeat split. Qed.

Lemma store_within d : within same_call not_config_error (store d).
Proof.
  destruct d; simpl; [apply insert_within|].
  wstep; [wstep|]. wstep; [apply the_response_within|].
  wstep. intros s; by repeat split.
Qed.

Lemma _wait_within : within same_call not_config_error _wait.
Proof.
  unfold _wait. wstep; [apply the_call_n_within|]. destruct (wait_allows _); wstep.
Qed.

Lemma after_request_within d : within same_call not_config_error (after_request d).
Proof.
  unfold after_request.
  wstep; [apply _get_field_names_within|].
  wstep; [apply _hash_within|].
  wstep; [apply store_within|]. apply _wait_within.
Qed.

Lemma bind_assoc {S A B C} (m : M S A) (f : A → M S B) (g : B → M S C) s :
  bind (bind m f) g s = bind m (λ a, bind (f a) g) s.
Proof. unfold bind. by destruct (m s) as [[a|e] s']. Qed.

Lemma bind_ext {S A B} (m : M S A) (f g : A → M S B) s :
  (∀ a s', f a s' = g a s') → bind m f s = bind m g s.
Proof. intros Hfg. unfold bind. destruct (m s) as [[a|e] s']; [apply Hfg|done]. Qed.

Lemma one_body_unfold j n lim :
  call_n j = Some n → limit j = Some lim →
  one_body j =
  if bool_decide (lim ≤ n) then (Ok false, j)
  else (do! _enforce_quota in do! _offset in do! _request in finish (db j)) j.
Proof.
  intros Hn Hl. unfold one_body. unfold bind at 1. unfold modify at 1.
  rewrite Hn. unfold bind at 1. unfold modify at 1. rewrite Hl.
  unfold bind at 1. unfold get at 1. rewrite Hn, Hl. simpl.
  case_bool_decide; [done|].
  apply bind_ext. intros _ s1. apply bind_ext. intros _ s2.
  apply bind_ext. intros _ s3. unfold finish, after_request.
  rewrite !bind_assoc. apply bind_ext. intros _ s4.
  rewrite !bind_assoc. apply bind_ext. intros _ s5.
  rewrite !bind_assoc. done.
Qed.

Lemma finish_spec d j :
  same_call j (set_call_n (call_n j) (finish d j).2)
  ∧ match (finish d j).1 with
    | Ok b => b = true ∧ call_n (finish d j).2 = S <$> call_n j
    | Raise e => not_config_error e ∧ call_n (finish d j).2 = call_n j
    end.
Proof.
  unfold finish, bind, modify, ret.
  destruct (after_request_within d j) as [(?&?&?&?&?&?&?&?) HE].
  destruct (after_request d j) as [[[]|e] j1]; simpl in *.
  - split; [unfold same_call; simpl; by split_and!|]. split; [done|]. congruence.
  - split; [unfold same_call; simpl; by split_and!|]. split; [by apply HE|done].
Qed.

End job_frames2.

(** *** Dicts *)

Lemma dict_get_cons k k0 v0 d :
  dict_get k ((k0, v0) :: d) = if decide (k0 = k) then Some v0 else dict_get k d.
Proof.
  unfold dict_get. rewrite filter_cons. simpl.
  by destruct (decide (k0 = k)).
Qed.

Lemma dict_get_None k d : k ∉ map fst d → dict_get k d = None.
Proof.
  induction d as [|[k0 v0] d IH]; [done|]. simpl. intros Hk.
  rewrite dict_get_cons. apply not_elem_of_cons in Hk as [Hne Hk].
  destruct (decide (k0 = k)); [done|]. by apply IH.
Qed.

Lemma dict_get_set_eq k v d : dict_get k (dict_set k v d) = Some v.
Proof.
  unfold dict_set. case_bool_decide as Hin.
  - induction d as [|[k0 v0] d IH]; [by apply elem_of_nil in Hin|].
    simpl. destruct (decide (k0 = k)) as [->|Hne].
    + rewrite dict_get_cons. by rewrite decide_True.
    + rewrite dict_get_cons, decide_False by done. apply IH.
      simpl in Hin. apply elem_of_cons in Hin as [?|?]; [congruence|done].
  - induction d as [|[k0 v0] d IH]; simpl.
    + rewrite dict_get_cons. by rewrite decide_True.
    + simpl in Hin. apply not_elem_of_cons in Hin as [Hne Hin].
      rewrite dict_get_cons, decide_False by done. by apply IH.
Qed.

Lemma dict_get_set_ne k k' v d : k ≠ k' → dict_get k' (dict_set k v d) = dict_get k' d.
Proof.
  intros Hne. unfold dict_set. case_bool_decide as Hin.
  - clear Hin. induction d as [|[k0 v0] d IH]; [done|].
    simpl. destruct (decide (k0 = k)) as [->|Hk].
    + rewrite !dict_get_cons, !decide_False by done. apply IH.
    + rewrite !dict_get_cons. destruct (decide (k0 = k')); [done|apply IH].
  - clear Hin. induction d as [|[k0 v0] d IH]; simpl.
    + rewrite dict_get_cons. by rewrite decide_False.
    + rewrite !dict_get_cons. destruct (decide (k0 = k')); [done|apply IH].
Qed.

(** *** Counting pages *)

Lemma sum_counts_app l1 l2 : sum_counts (l1 ++ l2) = (sum_counts l1 + sum_counts l2)%Z.
Proof. induction l1 as [|r l1 IH]; simpl; [done|]. rewrite IH. lia. Qed.

Lemma removelast_snoc {A} (l : list A) x : removelast (l ++ [x]) = l.
Proof. apply removelast_last. Qed.

Lemma sum_counts_last l r :
  last l = Some r → sum_counts l = (sum_counts (removelast l) + count r)%Z.
Proof.
  intros Hl. destruct l as [|x l] using rev_ind; [done|].
  rewrite last_snoc in Hl. simplify_eq.
  rewrite removelast_snoc, sum_counts_app. simpl. lia.
Qed.

Section rounds.
Context `{conv : Convert} `{call : Call}.

Lemma at_round_ended p0 n0 o0 lim rec j :
  at_round p0 n0 o0 lim rec j → ended p0 n0 o0 rec j.
Proof. intros (?&?&?&?&?&?). split; [done|]. by left. Qed.

Lemma _offset_at_round p0 n0 o0 lim rec j :
  at_round p0 n0 o0 lim rec j →
  match last rec with
  | None => _offset j = (Ok tt, j)
  | Some r =>
      _offset j =
      (if bool_decide (count r = 0%Z) then Raise no_more_results else Ok tt,
       set_parameters (dict_set "offset" (VInt (o0 + sum_counts rec)) (parameters j)) j)
  end.
Proof.
  intros (Hp & Hs & Hn & Hl & Hr & Ho). destruct rec as [|x rec _] using rev_ind.
  - simpl. unfold _offset, the_call_n, bind, get, ret. cbv beta. by rewrite Hn.
  - rewrite last_snoc.
    unfold _offset, the_call_n, the_response, lift, modify, bind, get, ret. cbv beta.
    rewrite Hn. rewrite length_app. simpl.
    rewrite bool_decide_true by lia.
    unfold offset_of in Ho. rewrite Ho.
    rewrite Hr by (by destruct rec). rewrite last_snoc. simpl.
    rewrite removelast_snoc, sum_counts_app. simpl.
    replace (o0 + sum_counts rec + count x)%Z with (o0 + (sum_counts rec + (count x + 0)))%Z by lia.
    by case_bool_decide.
Qed.

Lemma _request_spec j n :
  call_n j = Some n →
  _request j =
  match api n (parameters j) with
  | Page r =>
      (Ok tt, set_pages (pages j ++ [r])
                (set_now (clock n)
                   (set_response_json (Some r)
                      (set_sent (sent j ++ [parameters j]) j))))
  | Failed msg =>
      (Raise (RequestError msg), set_sent (sent j ++ [parameters j]) j)
  end.
Proof.
  intros Hn. unfold _request, the_call_n, bind, get, ret, modify. cbv beta.
  rewrite Hn. by destruct (api n (parameters j)).
Qed.

Lemma _enforce_quota_spec j n :
  call_n j = Some n →
  _enforce_quota j = (if quota_allows n then Ok tt else Raise QuotaError, j).
Proof.
  intros Hn. unfold _enforce_quota, the_call_n, bind, get, ret. cbv beta. rewrite Hn.
  by destruct (quota_allows n).
Qed.

(** One round of the loop. *)
Lemma one_round p0 n0 o0 lim rec j :
  at_round p0 n0 o0 lim rec j →
  match one_body j with
  | (Ok true, j') => length rec < lim ∧ ∃ r, at_round p0 n0 o0 lim (rec ++ [r]) j'
  | (Ok false, j') => lim ≤ length rec ∧ j' = j
  | (Raise e, j') =>
      not_config_error e
      ∧ ((ended p0 n0 o0 rec j'
          ∧ (length (sent j') = n0 + S (length rec) → ∃ msg, e = RequestError msg))
         ∨ (length rec < lim
            ∧ ∃ r, at_round p0 n0 o0 lim (rec ++ [r]) (set_call_n (Some (S (length rec))) j')
                   ∧ ∀ x, last rec = Some x → count x ≠ 0%Z))
  end.
Proof.
  intros Hat. pose proof Hat as (Hp & Hs & Hn & Hl & Hr & Ho).
  rewrite (one_body_unfold j _ _ Hn Hl).
  case_bool_decide as Hlim; [done|].
  unfold bind at 1. rewrite (_enforce_quota_spec j _ Hn).
  destruct (quota_allows (length rec)).
  2:{ split; [done|]. left. split; [by apply (at_round_ended _ _ _ lim)|]. lia. }
  unfold bind at 1. pose proof (_offset_at_round _ _ _ _ _ _ Hat) as Hoff.
  set (j1 := (_offset j).2).
  assert (call_n j1 = Some (length rec) ∧ limit j1 = Some lim
          ∧ pages j1 = p0 ++ rec ∧ sent j1 = sent j ∧ db j1 = db j
          ∧ response_json j1 = response_json j
          ∧ offset_of j1 = Some (VInt (o0 + sum_counts rec))
          ∧ ((_offset j).1 = Ok tt ∨ ((_offset j).1 = Raise no_more_results
                                      ∧ ∃ x, last rec = Some x ∧ count x = 0%Z))
          ∧ ((_offset j).1 = Ok tt → ∀ x, last rec = Some x → count x ≠ 0%Z))
    as (Hn1 & Hl1 & Hp1 & Hs1 & Hd1 & Hr1 & Ho1 & Hres & Hnz).
  { unfold j1. destruct (last rec) as [x|] eqn:Hlast.
    - rewrite Hoff. simpl. split_and!; try done.
      + unfold offset_of. simpl. by rewrite dict_get_set_eq.
      + case_bool_decide; [right|left]; eauto.
      + case_bool_decide; [done|]. by intros _ ? [= <-].
    - rewrite Hoff. simpl. apply last_None in Hlast. subst rec. simpl in *.
      rewrite Z.add_0_r in Ho. split_and!; try done; [by rewrite Z.add_0_r|by left]. }
  destruct (_offset j) as [[[]|e] j1'] eqn:Hoffj; simpl in j1; subst j1.
  2:{ destruct Hres as [?|[[= ->] (x & Hx & Hc)]]; [done|].
      split; [done|]. left. split; [|rewrite Hs1; lia]. split; [done|]. left.
      split; [by rewrite Hs1|].
      rewrite Ho1. do 3 f_equal. rewrite (sum_counts_last _ _ Hx). lia. }
  unfold bind at 1. rewrite (_request_spec _ _ Hn1).
  destruct (api (length rec) (parameters j1')) as [r|msg] eqn:Hapi.
  2:{ split; [done|]. left. split; [|by eauto]. split; [done|]. right.
      simpl. rewrite length_app, Hs1, Hs. simpl. split; [lia|done]. }
  set (j2 := set_pages _ _).
  pose proof (finish_spec (db j) j2) as [(Hs1'&Hs2&Hs3&Hs4&Hs5&Hs6&Hs7&Hs8) Hfin].
  simpl in Hs1', Hs2, Hs3, Hs4, Hs5, Hs6, Hs7.
  assert (∀ j3, j3 = (finish (db j) j2).2 →
                at_round p0 n0 o0 lim (rec ++ [r]) (set_call_n (Some (S (length rec))) j3))
    as Hnext.
  { intros j3 ->. unfold at_round. simpl. split_and!.
    - rewrite Hs6. unfold j2. simpl. by rewrite Hp1, app_assoc.
    - rewrite Hs7. unfold j2. simpl. rewrite !length_app, Hs1, Hs. simpl. lia.
    - f_equal. rewrite length_app. simpl. lia.
    - rewrite Hs4. unfold j2. simpl. done.
    - intros _. rewrite Hs5. unfold j2. simpl. by rewrite last_snoc.
    - unfold offset_of. simpl. rewrite Hs1'. unfold j2. simpl.
      by rewrite removelast_snoc. }
  destruct (finish (db j) j2) as [[b|e] j3]; simpl in *.
  - destruct Hfin as [-> Hcn]. split; [lia|]. exists r.
    specialize (Hnext j3 eq_refl).
    assert (set_call_n (Some (S (length rec))) j3 = j3) as Hsame.
    { destruct j3. simpl in *. rewrite Hcn. unfold j2. simpl. by rewrite Hn1. }
    by rewrite Hsame in Hnext.
  - destruct Hfin as [He _]. split; [done|]. right. split; [lia|].
    exists r. split; [by apply Hnext|]. apply Hnz. done.
Qed.

(** The loop: it ends, and not for want of rounds. *)
Lemma while_loop_one_body p0 n0 o0 lim fuel rec j :
  at_round p0 n0 o0 lim rec j → length rec ≤ lim → lim - length rec < fuel →
  ∃ rec', ended p0 n0 o0 rec' (exec (while_loop fuel one_body) j)
          ∧ length rec' ≤ lim
          ∧ outcome (while_loop fuel one_body) j ≠ Raise OutOfFuel
          ∧ (length (sent (exec (while_loop fuel one_body) j)) = n0 + S (length rec') →
             ∃ msg, outcome (while_loop fuel one_body) j = Raise (RequestError msg)).
Proof.
  revert rec j. induction fuel as [|fuel IH]; intros rec j Hat Hle Hfuel; [lia|].
  unfold exec, outcome. simpl. unfold bind.
  pose proof (one_round _ _ _ _ _ _ Hat) as Hround.
  destruct (one_body j) as [[[|]|e] j'].
  - destruct Hround as (Hlt & r & Hat').
    apply (IH (rec ++ [r]) j' Hat'); rewrite length_app; simpl; lia.
  - destruct Hround as [_ ->]. exists rec. simpl.
    split; [by apply (at_round_ended _ _ _ lim)|]. split_and!; [done|done|].
    destruct Hat as (_ & Hs & _). intros ?. lia.
  - destruct Hround as [He [[Hend Hfail]|(Hlt & r & Hat' & _)]]; simpl.
    + exists rec. split_and!; [done|done|by intros [= ->]|].
      intros Hlen. destruct (Hfail Hlen) as [msg ->]. eauto.
    + exists (rec ++ [r]). pose proof Hat' as (_ & Hs' & _). simpl in Hs'.
      apply at_round_ended in Hat'.
      destruct Hat' as [Hp Ho]. simpl in Hp, Ho.
      split_and!.
      * split; [done|]. done.
      * rewrite length_app. simpl. lia.
      * by intros [= ->].
      * intros Hlen. lia.
Qed.

Lemma all_unfold limit j :
  all limit j
  = while_loop (S limit) one_body (set_call_n (Some 0) (set_limit (Some limit) j)).
Proof.
  unfold all, one, bind, modify, get. simpl. by rewrite Nat.sub_0_r.
Qed.

(** C3, as the code has it.  A run started at offset [o0] that receives
    the pages [received] has sent as many requests as it received pages,
    or one more, which failed and ended the run.  When every request was
    answered, the run ends with the offset parameter at [o0] plus the
    result counts of all the pages but the last, the offset the last
    request was sent with: that is [o0] plus the counts of all the pages
    exactly when the last page counted no result.  When the last request
    failed, the offset had been advanced for it: the run ends with the
    offset at [o0] plus the counts of all the pages received.  The run
    receives at most [limit] pages and the loop always ends. *)
Theorem offset_after_run (limit : nat) (j : Job) (o0 : Z) :
  offset_of j = Some (VInt o0) →
  let j' := exec (all limit) j in
  ∃ received requests,
    pages j' = pages j ++ received
    ∧ length (sent j') = length (sent j) + requests
    ∧ length received ≤ limit
    ∧ outcome (all limit) j ≠ Raise OutOfFuel
    ∧ ((requests = length received
        ∧ offset_of j' = Some (VInt (o0 + sum_counts (removelast received)))
        ∧ (∀ r, last received = Some r →
                offset_of j' = Some (VInt (o0 + sum_counts received))
                ↔ count r = 0%Z))
       ∨ (requests = S (length received)
          ∧ offset_of j' = Some (VInt (o0 + sum_counts received))
          ∧ ∃ msg, outcome (all limit) j = Raise (RequestError msg))).
Proof.
  intros Ho j'. unfold j', exec, outcome. rewrite all_unfold.
  set (j0 := set_call_n (Some 0) (set_limit (Some limit) j)).
  assert (at_round (pages j) (length (sent j)) o0 limit [] j0) as Hat.
  { unfold at_round, j0, offset_of. simpl. rewrite app_nil_r, Z.add_0_r, Nat.add_0_r.
    by split_and!. }
  destruct (while_loop_one_body _ _ _ _ (S limit) _ _ Hat)
    as (rec & [Hp Hoff] & Hlen & Hfuel & Hfail); [simpl; lia..|].
  unfold exec, outcome in *.
  destruct Hoff as [[Hs Hoff]|[Hs Hoff]].
  - exists rec, (length rec). split_and!; try done. left. split_and!; try done.
    intros r Hr. rewrite Hoff.
    rewrite (sum_counts_last _ _ Hr). split.
    + intros [= Heq]. lia.
    + intros ->. do 3 f_equal. lia.
  - exists rec, (S (length rec)). split_and!; try done. right. split_and!; try done.
    by apply Hfail.
Qed.

End rounds.

(** *** The configuration error *)

#[global] Instance any_state_refl : Reflexive any_state.
Proof. done. Qed.
#[global] Instance any_state_trans : Transitive any_state.
Proof. done. Qed.

Lemma within_weaken {S A} (R R' : S → S → Prop) (E E' : exn → Prop) (m : M S A) :
  (∀ s s', R s s' → R' s s') → (∀ e, E e → E' e) →
  within R E m → within R' E' m.
Proof. intros HR HE Hm s. destruct (Hm s). split; auto. Qed.

Lemma call_within {A} (m : M Job A) :
  within same_call not_config_error m → within any_state not_config_error m.
Proof. by apply within_weaken. Qed.

Lemma not_config_error_ne e : not_config_error e → e ≠ config_error.
Proof. intros He ->. by apply He. Qed.

Section config.
Context `{conv : Convert} `{call : Call}.

Lemma one_body_within : within any_state not_config_error one_body.
Proof.
  unfold one_body.
  wstep; [by wstep|]. wstep; [by wstep|]. wstep; [wstep|].
  case_bool_decide; [wstep|].
  wstep.
  { unfold _enforce_quota. wstep; [apply call_within, the_call_n_within|].
    destruct (quota_allows _); wstep. }
  wstep.
  { unfold _offset. wstep; [apply call_within, the_call_n_within|].
    case_bool_decide; [|wstep]. wstep; [wstep|].
    wstep. { apply within_lift; try apply _. intros e. by repeat case_match; intros [= <-]. }
    wstep; [apply call_within, the_response_within|].
    wstep; [by wstep|]. case_bool_decide; wstep. }
  wstep.
  { unfold _request. wstep; [apply call_within, the_call_n_within|].
    wstep; [wstep|]. wstep; [by wstep|]. destruct (api _ _); [|wstep].
    repeat (wstep; [by wstep|]). by wstep. }
  wstep; [apply call_within, _get_field_names_within|].
  wstep; [apply call_within, _hash_within|].
  wstep; [apply call_within, (store_within (db a1))|].
  wstep; [apply call_within, _wait_within|].
  wstep; [by wstep|]. wstep.
Qed.

Lemma while_loop_within fuel :
  within any_state (λ e, e ≠ config_error) (while_loop fuel one_body).
Proof.
  induction fuel as [|fuel IH]; simpl.
  - by apply within_raise; try apply _.
  - apply within_bind; try apply _.
    + eapply within_weaken; [done|apply not_config_error_ne|apply one_body_within].
    + intros []; [apply IH|by apply within_ret; apply _].
Qed.

Lemma all_within limit : within any_state (λ e, e ≠ config_error) (all limit).
Proof.
  unfold all, one.
  apply within_bind; try apply _; [by apply within_modify; try apply _|]. intros _.
  apply within_bind; try apply _; [by apply within_modify; try apply _|]. intros _.
  apply within_bind; try apply _; [by apply within_get; apply _|]. intros j.
  apply while_loop_within.
Qed.

Lemma sorted_by_changed_offset v p :
  sorted_by_changed (dict_set "offset" v p) = sorted_by_changed p.
Proof. unfold sorted_by_changed. by rewrite dict_get_set_ne. Qed.

Lemma stored_changed_raises t i e :
  (∀ x, json_changed x ≠ Raise config_error) →
  (∀ x, timestamp x ≠ Raise config_error) →
  stored_changed t i = Raise e → e ≠ config_error.
Proof.
  intros Hjson Hts. unfold stored_changed.
  destruct (map_result _ (t_rows t)) as [res|e'] eqn:Hres.
  - apply (map_result_raises (λ e, e ≠ config_error)).
    intros x e' Hx ->. destruct x; try done; by apply Hts in Hx.
  - intros [= <-]. revert Hres. apply (map_result_raises (λ e, e ≠ config_error)).
    intros r e'' Hx ->. unfold json_extract_changed in Hx.
    destruct (default SNull (r !! i)); try done; by apply Hjson in Hx.
Qed.

(** C7. Starting an incremental run raises the configuration error, the
    ValueError that carries the message of [new], exactly when the declared
    sort is not ["date.changed:asc"]; it is then raised at once: the offset
    parameter has been set to 0 and nothing else has happened, no request
    has been issued, nothing is tried again.  (What reads the stored dates
    is not part of the sources; it is taken not to raise this very
    error.) *)
Theorem incremental_requires_sort (limit : nat) (j : Job) :
  (∀ x, json_changed x ≠ Raise config_error) →
  (∀ x, timestamp x ≠ Raise config_error) →
  (outcome (new limit) j = Raise config_error
   ↔ sorted_by_changed (parameters j) = false)
  ∧ (sorted_by_changed (parameters j) = false →
     new limit j
     = (Raise config_error,
        set_parameters (dict_set "offset" (VInt 0) (parameters j)) j)
     ∧ sent (exec (new limit) j) = sent j
     ∧ pages (exec (new limit) j) = pages j).
Proof.
  intros Hjson Hts.
  assert (sorted_by_changed (parameters j) = false →
          new limit j
          = (Raise config_error,
             set_parameters (dict_set "offset" (VInt 0) (parameters j)) j)) as Hbad.
  { intros Hs. unfold new, bind, modify, get. simpl.
    by rewrite sorted_by_changed_offset, Hs. }
  split.
  2:{ intros Hs. unfold exec. by rewrite (Hbad Hs). }
  split.
  - intros Hm. destruct (sorted_by_changed (parameters j)) eqn:Hs; [|done].
    exfalso. revert Hm. unfold outcome, new.
    unfold bind at 1. unfold modify at 1. unfold bind at 1. unfold get at 1.
    simpl. rewrite sorted_by_changed_offset, Hs. simpl.
    set (j1 := set_parameters _ j).
    assert (within any_state (λ e, e ≠ config_error)
              (let! vals := select_date_changed in
               do! modify (set_date_changed_vals vals) in
               do! _update_filter in all limit)) as Hrest.
    { apply within_bind; try apply _.
      { unfold select_date_changed.
        apply within_bind; try apply _; [by apply within_get; apply _|]. intros a.
        destruct (db a) as [d|]; [|by apply within_raise; try apply _].
        destruct (conn d !! "_raw") as [t|]; [|by apply within_raise; try apply _].
        destruct (head _) as [i|]; [|by apply within_raise; try apply _].
        apply within_lift; try apply _. intros e. by apply stored_changed_raises. }
      intros vals.
      apply within_bind; try apply _; [by apply within_modify; try apply _|]. intros _.
      apply within_bind; try apply _; [|intros _; apply all_within].
      unfold _update_filter.
      apply within_bind; try apply _; [by apply within_get; apply _|]. intros a.
      destruct (series_any _); [|by apply within_ret; apply _].
      apply within_bind; try apply _.
      { apply within_lift; try apply _. intros e. unfold series_max.
        by repeat case_match; intros [= <-]. }
      intros latest. cbv zeta.
      apply within_bind; try apply _.
      { apply within_lift; try apply _. intros e. by repeat case_match; intros [= <-]. }
      intros f.
      apply within_bind; try apply _.
      { apply within_lift; try apply _. intros e. by repeat case_match; intros [= <-]. }
      intros old. by apply within_modify; try apply _. }
    intros Hm. destruct (Hrest j1) as [_ HE]. by apply HE in Hm.
  - intros Hs. unfold outcome. by rewrite (Hbad Hs).
Qed.

End config.

(** *** A page without results *)

Lemma setitem_scalar_no_rows c v df : rows df = [] → rows (setitem_scalar c v df) = [].
Proof.
  intros Hr. unfold setitem_scalar. destruct (positions c (columns df)); simpl; by rewrite Hr.
Qed.

Lemma setitem_scalars_no_rows cs v df :
  rows df = [] → rows (foldl (λ df c, setitem_scalar c v df) df cs) = [].
Proof.
  revert df. induction cs as [|c cs IH]; intros df Hr; [done|].
  simpl. apply IH. by apply setitem_scalar_no_rows.
Qed.

Lemma add_columns_rows cs t :
  length (t_rows (foldl (λ t c, add_column c t) t cs)) = length (t_rows t).
Proof.
  revert t. induction cs as [|c cs IH]; intros t; [done|].
  simpl. rewrite IH. simpl. by rewrite length_map.
Qed.

Lemma add_missing_columns_spec df table d cols :
  tables d !! table = Some cols →
  ∃ d',
    add_missing_columns df table d
    = (Ok (foldl (λ df c, setitem_scalar c VNone df) df
                 (filter (λ c, c ∉ columns df) cols)), d')
    ∧ conn d' = alter (λ t, foldl (λ t c, add_column c t) t
                               (filter (λ c, c ∉ cols) (dedupe [] (columns df))))
                      table (conn d).
Proof.
  intros Hcols. unfold add_missing_columns, bind, get. rewrite Hcols.
  unfold modify, get_tables, modify, ret. simpl. eauto.
Qed.

Section empty_page.
Context `{conv : Convert} `{call : Call}.

Lemma the_response_spec j r : response_json j = Some r → the_response j = (Ok r, j).
Proof. intros Hr. unfold the_response, bind, get, ret. cbv beta. by rewrite Hr. Qed.

Lemma the_call_n_spec j n : call_n j = Some n → the_call_n j = (Ok n, j).
Proof. intros Hn. unfold the_call_n, bind, get, ret. cbv beta. by rewrite Hn. Qed.

Lemma _get_field_names_empty j r :
  response_json j = Some r → data r = [] →
  _get_field_names j = (Ok tt, set_field_names [] j).
Proof.
  intros Hr Hd. unfold _get_field_names. unfold bind at 1.
  rewrite (the_response_spec _ _ Hr). rewrite Hd. done.
Qed.

(** With a database, the page is refused by [insert]: nothing is written,
    nothing is logged. *)
Lemma insert_empty_page j r d cols :
  response_json j = Some r → data r = [] →
  db j = Some d → tables d !! "_raw" = Some cols →
  ∃ df d',
    ReliefWeb.insert j = (Raise no_more_results, set_df_raw df (set_db (Some d') j))
    ∧ conn d' !! "_log" = conn d !! "_log"
    ∧ (length ∘ t_rows) <$> conn d' !! "_raw" = (length ∘ t_rows) <$> conn d !! "_raw".
Proof.
  intros Hr Hd Hdb Hcols. unfold ReliefWeb.insert. unfold bind at 1.
  rewrite (the_response_spec _ _ Hr). unfold bind at 1. unfold get at 1.
  rewrite Hd. cbv zeta.
  set (df0 := setitem_scalar "api_params_hash" _ _).
  assert (rows df0 = []) as Hrows by done.
  destruct (add_missing_columns_spec df0 "_raw" d cols Hcols) as (d' & Hadd & Hconn).
  unfold bind at 1. unfold ReliefWeb.on_db at 1. rewrite Hdb, Hadd.
  set (df := foldl _ df0 _).
  assert (empty df = true) as Hempty.
  { unfold empty. apply orb_true_iff. right. apply bool_decide_eq_true.
    by apply setitem_scalars_no_rows. }
  exists df, d'. split_and!.
  - unfold bind at 1. unfold modify at 1. unfold bind at 1.
    by rewrite Hempty.
  - rewrite Hconn. by rewrite lookup_alter_ne.
  - rewrite Hconn, lookup_alter_eq. destruct (conn d !! "_raw") as [t|]; [|done].
    simpl. f_equal. apply add_columns_rows.
Qed.

Lemma set_parameters_same j : set_parameters (parameters j) j = j.
Proof. by destruct j. Qed.

Lemma _offset_frame j : ∃ p, (_offset j).2 = set_parameters p j.
Proof.
  assert (∃ p, j = set_parameters p j) as Hsame
    by (exists (parameters j); by rewrite set_parameters_same).
  destruct (call_n j) as [n|] eqn:Hn.
  2:{ unfold _offset, the_call_n, bind, get, raise. cbv beta. by rewrite Hn. }
  unfold _offset. unfold bind at 1. rewrite (the_call_n_spec _ _ Hn).
  case_bool_decide; [|done].
  unfold bind at 1. unfold get at 1. unfold bind at 1. unfold lift at 1.
  destruct (dict_get "offset" (parameters j)) as [[]|]; try done.
  unfold bind at 1. unfold the_response, bind, get. cbv beta.
  destruct (response_json j) as [r|]; simpl; [|done].
  eexists. by case_bool_decide.
Qed.

Lemma _hash_spec j : _hash j = (Ok tt, set_hash (params_hash (parameters j)) j).
Proof. done. Qed.

Lemma _wait_spec j n :
  call_n j = Some n →
  _wait j = (if wait_allows n then Ok tt else Raise QuotaError, j).
Proof.
  intros Hn. unfold _wait. unfold bind. rewrite (the_call_n_spec _ _ Hn).
  by destruct (wait_allows n).
Qed.

Lemma store_none_spec j n r :
  call_n j = Some n → response_json j = Some r →
  store None j = (Ok tt, set_raw (<[n := r]> (raw j)) j).
Proof.
  intros Hn Hr. unfold store. unfold bind at 1. unfold get at 1.
  unfold bind at 1. rewrite (the_response_spec _ _ Hr).
  unfold modify. by rewrite Hn.
Qed.

(** C4, as the code has it.  In a round that reaches its request, a page
    without results ends the crawl by raising the warning "Call aborted: no
    more results.", at any call number and any offset, the first page at
    offset zero included.  With a database the warning comes from [insert]:
    the page has been received, no row of it is written and the call is not
    logged.  Without a database the page is kept and the round returns; the
    next round raises the warning before it requests anything, unless the
    limit is reached, in which case the loop just ends. *)
Theorem empty_page_ends_crawl (j j1 : Job) (n lim : nat) (r : Response) :
  call_n j = Some n → limit j = Some lim → n < lim →
  quota_allows n = true →
  _offset j = (Ok tt, j1) →
  api n (parameters j1) = Page r →
  data r = [] → count r = 0%Z →
  (∀ d cols, db j = Some d → tables d !! "_raw" = Some cols →
     outcome one_body j = Raise no_more_results
     ∧ pages (exec one_body j) = pages j ++ [r]
     ∧ ∃ d', db (exec one_body j) = Some d'
             ∧ conn d' !! "_log" = conn d !! "_log"
             ∧ (length ∘ t_rows) <$> conn d' !! "_raw"
               = (length ∘ t_rows) <$> conn d !! "_raw")
  ∧ (db j = None → wait_allows n = true →
     outcome one_body j = Ok true
     ∧ pages (exec one_body j) = pages j ++ [r]
     ∧ (lim ≤ S n → outcome one_body (exec one_body j) = Ok false)
     ∧ (S n < lim → quota_allows (S n) = true →
        (∃ o, offset_of j1 = Some (VInt o)) →
        outcome one_body (exec one_body j) = Raise no_more_results
        ∧ pages (exec one_body (exec one_body j)) = pages (exec one_body j))).
Proof.
  intros Hn Hl Hlt Hq Hoff Hapi Hdata Hcount.
  destruct (_offset_frame j) as [p Hp]. rewrite Hoff in Hp. simpl in Hp.
  assert (call_n j1 = Some n) as Hn1 by (by rewrite Hp).
  assert (pages j1 = pages j) as Hpg by (by rewrite Hp).
  assert (db j1 = db j) as Hdb1 by (by rewrite Hp).
  assert (limit j1 = limit j) as Hl1 by (by rewrite Hp).
  clear p Hp.
  assert (one_body j =
          finish (db j) (set_pages (pages j ++ [r])
                           (set_now (clock n)
                              (set_response_json (Some r)
                                 (set_sent (sent j1 ++ [parameters j1]) j1)))))
    as Hbody.
  { rewrite (one_body_unfold _ _ _ Hn Hl). rewrite bool_decide_false by lia.
    unfold bind at 1. rewrite (_enforce_quota_spec _ _ Hn), Hq.
    unfold bind at 1. rewrite Hoff. unfold bind at 1.
    rewrite (_request_spec _ _ Hn1), Hapi. by rewrite Hpg. }
  set (j2 := set_pages _ _) in Hbody.
  assert (after_request (db j) j2
          = (do! store (db j) in _wait)
              (set_hash (params_hash (parameters j1)) (set_field_names [] j2)))
    as Hafter.
  { unfold after_request. unfold bind at 1.
    rewrite (_get_field_names_empty j2 r) by done.
    unfold bind at 1. by rewrite _hash_spec. }
  set (j4 := set_hash _ _) in Hafter.
  split.
  - intros d cols Hdb Hcols.
    destruct (insert_empty_page j4 r d cols) as (df & d' & Hins & Hlog & Hraw);
      [done|done|by rewrite <-Hdb, <-Hdb1|done|].
    unfold outcome, exec. rewrite Hbody. unfold finish. unfold bind at 1 3 5.
    rewrite Hafter, Hdb. unfold bind at 1 3 5. simpl. rewrite Hins. simpl.
    split_and!; [done|done|]. exists d'. done.
  - intros Hdb Hw.
    assert (one_body j = (Ok true, set_call_n (Some (S n)) (set_raw (<[n := r]> (raw j4)) j4)))
      as Hone.
    { rewrite Hbody. unfold finish. unfold bind at 1. rewrite Hafter, Hdb.
      unfold bind at 1. rewrite (store_none_spec j4 n r) by done.
      rewrite (_wait_spec _ n) by done. rewrite Hw.
      unfold bind, modify, ret. simpl. by rewrite Hn1. }
    unfold outcome, exec. rewrite Hone. simpl.
    set (j6 := set_call_n _ _).
    assert (limit j6 = Some lim) as Hl6 by (simpl; by rewrite Hl1).
    split_and!; [done|done|..].
    + intros Hlim. rewrite (one_body_unfold j6 (S n) lim) by done.
      by rewrite bool_decide_true.
    + intros Hlim Hq' [o Ho].
      assert (_offset j6 = (Raise no_more_results,
                            set_parameters (dict_set "offset" (VInt (o + count r)) (parameters j6)) j6))
        as Hoff6.
      { unfold _offset. unfold bind at 1. rewrite (the_call_n_spec j6 (S n)) by done.
        rewrite bool_decide_true by lia. unfold bind at 1. unfold get at 1.
        unfold offset_of in Ho. simpl. rewrite Ho. unfold bind at 1. unfold lift at 1.
        unfold bind at 1. rewrite (the_response_spec j6 r) by done.
        unfold bind at 1. unfold modify at 1. by rewrite Hcount. }
      assert (one_body j6 = (Raise no_more_results,
                             set_parameters (dict_set "offset" (VInt (o + count r)) (parameters j6)) j6))
        as ->.
      { rewrite (one_body_unfold j6 (S n) lim) by done.
        rewrite bool_decide_false by lia.
        unfold bind at 1. rewrite (_enforce_quota_spec j6 (S n)) by done.
        rewrite Hq'. unfold bind at 1. by rewrite Hoff6. }
      done.
Qed.

End empty_page.

(** *** The incremental filter *)



Section filter.
Context `{conv : Convert} `{call : Call}.

Lemma select_date_changed_spec j d t i :
  db j = Some d → conn d !! "_raw" = Some t →
  head (positions "date" (t_columns t)) = Some i →
  select_date_changed j = (stored_changed t i, j).
Proof.
  intros Hd Ht Hi. unfold select_date_changed, bind, get. cbv beta.
  by rewrite Hd, Ht, Hi.
Qed.

Lemma new_sorted limit j d t i T :
  db j = Some d → conn d !! "_raw" = Some t →
  head (positions "date" (t_columns t)) = Some i →
  sorted_by_changed (parameters j) = true →
  stored_changed t i = Ok T →
  new limit j
  = (do! _update_filter in all limit)
      (set_date_changed_vals T
         (set_parameters (dict_set "offset" (VInt 0) (parameters j)) j)).
Proof.
  intros Hd Ht Hi Hs HT.
  unfold new. unfold bind at 1. unfold modify at 1. unfold bind at 1.
  unfold get at 1. cbn [parameters set_parameters].
  rewrite sorted_by_changed_offset, Hs. cbn [negb].
  unfold bind at 1. rewrite (select_date_changed_spec _ d t i) by done.
  rewrite HT. unfold bind at 1. done.
Qed.



End filter.

(** *** The runs of the examples *)

(** C5, as the code has it.  The fresh incremental run over empty storage
    whose two pages count 2 and 0 results stores the two raw records, logs
    the first call only, and ends at the second page with the warning
    "Call aborted: no more results.": the page without results is refused
    before its call is logged. *)
Theorem fresh_incremental_run :
  let run := new (conv := example_convert)
                 (call := scripted [two_reports; no_page]) 1000 in
  let after := exec run fresh_job in
  outcome run fresh_job = Raise no_more_results
  ∧ map count (pages after) = [2; 0]%Z
  ∧ offset_of after = Some (VInt 2)
  ∧ (db after ≫= λ d, t_rows <$> conn d !! "_raw")
    = Some [[SText "hash-0"; SText "101"; SText "reports.yml"; SText "day-0";
             SText "20240105"; SNull; SText "Flood update"];
            [SText "hash-0"; SText "102"; SText "reports.yml"; SText "day-0";
             SText "20240107"; SNull; SText "Drought appeal"]]
  ∧ (db after ≫= λ d, t_rows <$> conn d !! "_log")
    = Some [[SText "hash-0";
             SText "{'offset': 0, 'limit': 2, 'sort': ['date.changed:asc']}";
             SText "reports.yml"; SText "day-0"; SText "2"; SText "2"]].
Proof. vm_compute. by split_and!. Qed.

(** The same run against C5 as stated: it does not end without an error
    with two calls logged. *)
Lemma fresh_incremental_run_as_stated :
  let run := new (conv := example_convert)
                 (call := scripted [two_reports; no_page]) 1000 in
  let after := exec run fresh_job in
  ¬ (outcome run fresh_job = Ok tt
     ∧ (db after ≫= λ d, length <$> (t_rows <$> conn d !! "_log")) = Some 2).
Proof. vm_compute. by intros [? _]. Qed.

(** Against C3 as stated: a run of one call that receives one page of two
    results ends with the offset at 0, not at 2. *)
Lemma offset_is_not_the_total :
  let run := all (conv := example_convert) (call := scripted [two_reports]) 1 in
  let after := exec run (job_with None sorted_parameters) in
  map count (pages after) = [2]%Z
  ∧ offset_of after = Some (VInt 0)
  ∧ offset_of after ≠ Some (VInt (sum_counts (pages after))).
Proof. vm_compute. by split_and!. Qed.

(** A run whose second request fails: one page of two results received,
    two requests sent, and the offset at 2, where the request that failed
    had it. *)
Lemma offset_after_failed_request :
  let run := all (conv := example_convert) (call := cut_off [two_reports]) 5 in
  let after := exec run (job_with None sorted_parameters) in
  outcome run (job_with None sorted_parameters) = Raise (RequestError "timed out")
  ∧ map count (pages after) = [2]%Z
  ∧ length (sent after) = 2
  ∧ offset_of after = Some (VInt 2).
Proof. vm_compute. by split_and!. Qed.

(** Against C4 as stated: on a first page without results, at offset zero,
    the run ends by raising. *)
Lemma empty_first_page_raises :
  let run := all (conv := example_convert) (call := scripted []) 1 in
  let j := job_with (Some fresh_db) sorted_parameters in
  map count (pages (exec run j)) = [0]%Z
  ∧ outcome run j = Raise (UserWarning "Call aborted: no more results.")
  ∧ outcome run j ≠ Ok tt.
Proof. vm_compute. by split_and!. Qed.


(** *** The theorems at concrete inputs *)

Lemma offset_after_run_witness :
  let j := job_with None sorted_parameters in
  let run := all (conv := example_convert) (call := cut_off [two_reports]) 5 in
  offset_of j = Some (VInt 0)
  ∧ ∃ received requests,
      pages (exec run j) = [] ++ received
      ∧ length (sent (exec run j)) = 0 + requests
      ∧ length received ≤ 5.
Proof.
  intros j run. split; [reflexivity|].
  destruct (offset_after_run (conv := example_convert) (call := cut_off [two_reports])
              5 j 0 eq_refl)
    as (received & requests & Hpages & Hsent & Hlen & _).
  exists received, requests. by split_and!.
Defined.

Lemma empty_page_ends_crawl_witness :
  call_n (first_round (Some fresh_db)) = Some 0
  ∧ limit (first_round (Some fresh_db)) = Some 1
  ∧ 0 < 1
  ∧ outcome (one_body (conv := example_convert) (call := scripted []))
            (first_round (Some fresh_db))
    = Raise no_more_results.
Proof.
  split_and!; [reflexivity|reflexivity|lia|].
  destruct (empty_page_ends_crawl (conv := example_convert) (call := scripted [])
              (first_round (Some fresh_db)) (first_round (Some fresh_db)) 0 1 no_page
              eq_refl eq_refl (Nat.lt_0_succ 0) eq_refl eq_refl eq_refl eq_refl eq_refl)
    as [Hdb _].
  destruct (Hdb fresh_db ["api_params_hash"; "id"; "api_input"; "api_date";
                          "date"; "file"; "title"] eq_refl eq_refl) as [Hout _].
  exact Hout.
Defined.


Lemma incremental_requires_sort_witness :
  sorted_by_changed (parameters (job_with None [("offset", VInt 40)])) = false
  ∧ new (conv := example_convert) (call := scripted [two_reports]) 1000
        (job_with None [("offset", VInt 40)])
    = (Raise config_error,
       set_parameters [("offset", VInt 0)] (job_with None [("offset", VInt 40)])).
Proof.
  split; [reflexivity|].
  refine (proj1 (proj2 (incremental_requires_sort (conv := example_convert)
                          (call := scripted [two_reports]) 1000
                          (job_with None [("offset", VInt 40)]) _ _) eq_refl)).
  - by intros x.
  - by intros [].
Defined.

(** ** More on storage *)

(** *** The registry *)

Lemma registry_fold (m : gmap string Table) (qs : list string)
    (acc : gmap string (list string)) (name : string) :
  foldl (λ acc key, match m !! key with
                    | Some t => <[key := t_columns t]> acc
                    | None => acc
                    end) acc qs !! name
  = if bool_decide (name ∈ qs)
    then match m !! name with
         | Some t => Some (t_columns t)
         | None => acc !! name
         end
    else acc !! name.
Proof.
  revert acc. induction qs as [|q qs IH]; intros acc; simpl.
  - done.
  - rewrite IH. destruct (decide (name = q)) as [->|Hne].
    + rewrite (bool_decide_true (q ∈ q :: qs)) by left.
      destruct (m !! q) as [t|] eqn:Hq.
      * case_bool_decide; [done|]. by rewrite lookup_insert_eq.
      * by case_bool_decide.
    + assert (bool_decide (name ∈ q :: qs) = bool_decide (name ∈ qs)) as ->.
      { apply bool_decide_ext. rewrite elem_of_cons. tauto. }
      destruct (m !! q) as [t|]; [|done].
      rewrite lookup_insert_ne by done. done.
Qed.

Lemma get_tables_lookup (db : Database.Database) (name : string) :
  tables (exec get_tables db) !! name
  = if bool_decide (name ∈ queries) then t_columns <$> conn db !! name else None.
Proof.
  unfold exec, get_tables, modify. cbn [snd tables].
  case_bool_decide as Hempty.
  - rewrite Hempty, !lookup_empty. by case_bool_decide.
  - rewrite registry_fold, lookup_empty.
    case_bool_decide; [|done]. by destruct (conn db !! name).
Qed.

(** X1. [get_tables] rebuilds the registry from the tables of the
    connection: it leaves the tables alone, registers exactly those of
    [_log], [_pdf], [_raw], [_vert] and [_archive] that exist, each with its
    columns, whatever the registry held before, and running it again changes
    nothing.  A table of any other name is never registered, so that
    [insert] on it raises KeyError and writes nothing, whether the table
    exists or not. *)
Theorem get_tables_registers_known_tables `{conv : Convert}
    (db : Database.Database) (name : string) :
  let db' := exec get_tables db in
  conn db' = conn db
  ∧ tables db' !! name
    = (if bool_decide (name ∈ queries) then t_columns <$> conn db !! name else None)
  ∧ exec get_tables db' = db'
  ∧ (name ∉ queries →
     ∀ df, Database.insert df name db' = (Raise (KeyError name), db')).
Proof.
  intros db'. split_and!.
  - done.
  - apply get_tables_lookup.
  - done.
  - intros Hname df. rewrite insert_closed_form. unfold insert_plan.
    unfold db'. rewrite get_tables_lookup.
    by rewrite bool_decide_false.
Qed.

(** *** What an insert leaves alone *)

Section put_more.
Context {A K C : Type} `{EqDecision K} (k : A → option K) (c : A → C).
Context (Hcell : ∀ x y, is_Some (k x) → k y = k x → c y = c x).

Lemma put_keeps_cells r l κ : κ ∈ map c l → κ ∈ map c (put k r l).
Proof.
  intros (x & -> & Hx)%list_elem_of_fmap. unfold put. rewrite map_app.
  apply elem_of_app. destruct (decide (conflict k r x)) as [[Hs Heq]|Hne].
  - right. simpl. rewrite (Hcell r x Hs Heq). left.
  - left. apply list_elem_of_fmap. exists x. split; [done|].
    by apply list_elem_of_filter.
Qed.

Lemma put_all_keeps_cells rs l κ : κ ∈ map c l → κ ∈ map c (put_all k rs l).
Proof.
  revert l. induction rs as [|r rs IH]; intros l Hκ; [done|].
  simpl. apply IH. by apply put_keeps_cells.
Qed.

Lemma put_all_length rs l : length (put_all k rs l) ≤ length l + length rs.
Proof.
  revert l. induction rs as [|r rs IH]; intros l; simpl; [lia|].
  etrans; [apply IH|]. unfold put. rewrite length_app. simpl.
  pose proof (length_filter (λ r', ¬ conflict k r r') l). lia.
Qed.

Lemma filter_other_keys_length r l :
  NoDup (omap k l) → length l ≤ S (length (filter (λ r', ¬ conflict k r r') l)).
Proof.
  induction l as [|x l IH]; simpl; [lia|].
  intros Hl. destruct (decide (conflict k r x)) as [[Hs Heq]|Hne].
  - rewrite filter_cons_False by (intros Hn; apply Hn; by split).
    rewrite filter_all; [lia|].
    intros y Hy [_ Hyr]. destruct Hs as [κ Hκ].
    rewrite Heq, Hκ in Hl. apply NoDup_cons in Hl as [Hx _]. apply Hx.
    apply list_elem_of_omap. exists y. split; [done|congruence].
  - rewrite filter_cons_True by done. simpl.
    assert (NoDup (omap k l)) as Hl'.
    { destruct (k x); [by apply NoDup_cons in Hl as [_ ?]|done]. }
    specialize (IH Hl'). lia.
Qed.

Lemma put_all_grows rs l : NoDup (omap k l) → length l ≤ length (put_all k rs l).
Proof.
  revert l. induction rs as [|r rs IH]; intros l Hl; [done|].
  simpl. etrans; [|apply IH, put_NoDup, Hl].
  unfold put. rewrite length_app. simpl.
  pose proof (filter_other_keys_length r l Hl). lia.
Qed.

End put_more.

Lemma key_under_key_of t x y :
  is_Some (key_under t x) → key_under t y = key_under t x → key_of t y = key_of t x.
Proof.
  unfold key_under. intros [κ Hκ].
  destruct (key_of t x), (key_of t y); simplify_eq/=; congruence.
Qed.

Lemma insert_frame `{conv : Convert} (df : DataFrame) (table : string)
    (db : Database.Database) :
  tables (Database.insert df table db).2 = tables db
  ∧ ∀ other, other ≠ table →
             conn (Database.insert df table db).2 !! other = conn db !! other.
Proof.
  rewrite insert_closed_form.
  destruct (insert_plan df table db) as [P|e]; simpl; [|done].
  split; [done|]. intros other Hne. by rewrite lookup_alter_ne.
Qed.

(** X2. [insert] into one table leaves the registry, every other table,
    and the columns and key of the table itself as they were, and it creates
    no table.  No key stored in the table is lost; the table grows by at most
    the number of rows of the dataframe, and a table that holds no two rows
    under one key never shrinks. *)
Theorem insert_keeps_the_rest `{conv : Convert}
    (df : DataFrame) (table : string) (db : Database.Database) :
  let db' := exec (Database.insert df table) db in
  tables db' = tables db
  ∧ (∀ other, other ≠ table → conn db' !! other = conn db !! other)
  ∧ (conn db !! table = None → conn db' !! table = None)
  ∧ (∀ t, conn db !! table = Some t →
       ∃ t', conn db' !! table = Some t'
             ∧ t_columns t' = t_columns t ∧ t_key t' = t_key t
             ∧ (∀ κ, κ ∈ key_of t <$> t_rows t → κ ∈ key_of t <$> t_rows t')
             ∧ length (t_rows t') ≤ length (t_rows t) + len df
             ∧ (keyed t → length (t_rows t) ≤ length (t_rows t'))).
Proof.
  intros db'. unfold db', exec. rewrite insert_closed_form.
  destruct (insert_plan df table db) as [P|e] eqn:HP; cbn [snd].
  - assert (length P = len df) as HlenP.
    { revert HP. unfold insert_plan. repeat case_match; try done.
      intros [= <-]. unfold projection, len. by rewrite length_map. }
    split_and!.
    + done.
    + intros other Hne. simpl. by rewrite lookup_alter_ne.
    + intros Hnone. simpl. by rewrite lookup_alter_eq, Hnone.
    + intros t Ht. exists (upsert_all P t). simpl.
      rewrite lookup_alter_eq, Ht. rewrite upsert_all_rows. simpl.
      split_and!; [by rewrite upsert_all_rows|done|done|..].
      * intros κ. apply (put_all_keeps_cells (key_under t) (key_of t)).
        apply key_under_key_of.
      * rewrite <-HlenP. apply (put_all_length (key_under t)).
      * apply (put_all_grows (key_under t)).
  - split_and!; try done. intros t Ht. exists t.
    split_and!; try done. lia.
Qed.

(** *** A dataframe without rows, a table or a column that is missing *)

Lemma locate_present df c : c ∈ columns df → locate df c = Ok (positions c (columns df)).
Proof.
  intros Hc. unfold locate.
  destruct (positions c (columns df)) as [|p ps] eqn:Hp; [|done].
  exfalso. clear -Hc Hp. unfold positions in Hp. revert Hp. generalize 0.
  induction (columns df) as [|x cols IH]; intros i; simpl.
  - by apply elem_of_nil in Hc.
  - destruct (decide (x = c)) as [->|Hne]; [done|]. simpl.
    apply elem_of_cons in Hc as [->|Hc]; [done|]. by apply IH.
Qed.

Lemma locate_absent df c : c ∉ columns df → locate df c = Raise (KeyError c).
Proof.
  intros Hc. unfold locate.
  destruct (positions c (columns df)) as [|p ps] eqn:Hp; [done|].
  exfalso. apply Hc. apply (positions_from_label 0). unfold positions in Hp.
  by rewrite Hp.
Qed.

Lemma map_result_first_raise {A B} (f : A → result B) l x :
  x ∈ l → (∃ e, f x = Raise e) → ∃ y e, y ∈ l ∧ f y = Raise e ∧ map_result f l = Raise e.
Proof.
  induction l as [|a l IH]; [by intros ?%elem_of_nil|].
  intros Hx Hfx. simpl. destruct (f a) as [b|e] eqn:Ha.
  - apply elem_of_cons in Hx as [->|Hx]; [destruct Hfx; congruence|].
    destruct (IH Hx Hfx) as (y & e & Hy & Hfy & ->).
    exists y, e. split_and!; [by right|done|done].
  - exists a, e. split_and!; [left|done|done].
Qed.

(** X3. The edges of [insert].  A table that is not in the registry gives
    KeyError on the table's name; a dataframe that lacks a column of the
    registry gives KeyError; in both cases nothing is written.  A dataframe
    that has each column of the registry once but no rows is accepted and leaves the database as
    it was, provided the table exists with as many columns as the registry
    lists; without the table the statement is still refused. *)
Theorem insert_edges `{conv : Convert}
    (df : DataFrame) (table : string) (db : Database.Database) :
  (tables db !! table = None →
   Database.insert df table db = (Raise (KeyError table), db))
  ∧ (∀ cols c, tables db !! table = Some cols → c ∈ cols → c ∉ columns df →
       ∃ key, Database.insert df table db = (Raise (KeyError key), db))
  ∧ (∀ cols, tables db !! table = Some cols → NoDup cols →
       (∀ c, c ∈ cols → ∃ i, positions c (columns df) = [i]) → rows df = [] →
       match conn db !! table with
       | Some t =>
           length (t_columns t) = length cols →
           Database.insert df table db = (Ok tt, db)
       | None =>
           ∃ msg, Database.insert df table db = (Raise (OperationalError msg), db)
       end).
Proof.
  split_and!.
  - intros Hnone. rewrite insert_closed_form. unfold insert_plan. by rewrite Hnone.
  - intros cols c Hcols Hc Hdf. rewrite insert_closed_form. unfold insert_plan.
    rewrite Hcols.
    destruct (map_result_first_raise (locate df) cols c Hc) as (y & e & Hy & Hfy & ->).
    { exists (KeyError c). by apply locate_absent. }
    unfold locate in Hfy. destruct (positions y (columns df)); [|done].
    simplify_eq. eauto.
  - intros cols Hcols _ Hall Hrows. rewrite insert_closed_form. unfold insert_plan.
    rewrite Hcols.
    rewrite (map_result_total _ (λ c, positions c (columns df)))
      by (intros c Hc; destruct (Hall c Hc) as [i Hi]; unfold locate; by rewrite Hi).
    destruct (conn db !! table) as [t|] eqn:Ht; [|eauto].
    intros Hw. rewrite (bool_decide_true _ Hw), (bool_decide_true _ Hrows). simpl.
    unfold projection. rewrite Hrows. simpl. by rewrite with_conn_alter_id.
Qed.

Lemma insert_edges_witness :
  tables example_db !! "_log" = None
  ∧ Database.insert (conv := example_convert) example_df "_log" example_db
    = (Raise (KeyError "_log"), example_db).
Proof.
  split; [reflexivity|].
  exact (proj1 (insert_edges (conv := example_convert) example_df "_log" example_db)
               eq_refl).
Defined.

(** ** More on vertical content *)

(** *** Loops that collect results *)

Lemma map_M_inv {S A B} (f : A → M S B) (I : list A → S → Prop)
    (Q : A → B → Prop) (l : list A) :
  (∀ seen x s y s', x ∈ l → I seen s → f x s = (Ok y, s') →
                    Q x y ∧ I (seen ++ [x]) s') →
  ∀ seen s ys s', I seen s → map_M f l s = (Ok ys, s') →
                  Forall2 Q l ys ∧ I (seen ++ l) s'.
Proof.
  induction l as [|a l IH]; intros Hstep seen s ys s' HI.
  - intros [= <- <-]. rewrite app_nil_r. by split.
  - simpl. unfold bind at 1. destruct (f a s) as [[y|e] s1] eqn:Ha; [|done].
    unfold bind at 1.
    destruct (map_M f l s1) as [[ys1|e] s2] eqn:Hl; [|done].
    intros [= <- <-].
    destruct (Hstep seen a s y s1) as [HQ HI1]; [left|done|done|].
    destruct (IH (λ seen x s y s' Hx, Hstep seen x s y s' (list_elem_of_further _ _ _ Hx))
                 (seen ++ [a]) s1 ys1 s2 HI1 Hl) as [HF HI2].
    rewrite <-app_assoc in HI2. by split; [constructor|].
Qed.

Lemma map_M_total {S A B} (f : A → M S B) (l : list A) :
  (∀ x s, x ∈ l → is_ok (f x s).1 = true) → ∀ s, is_ok (map_M f l s).1 = true.
Proof.
  induction l as [|a l IH]; intros Hf s; [done|].
  simpl. unfold bind at 1. specialize (Hf a s (list_elem_of_here _ _)) as Ha.
  destruct (f a s) as [[y|e] s1]; [|done]. unfold bind at 1.
  specialize (IH (λ x s Hx, Hf x s (list_elem_of_further _ _ _ Hx)) s1).
  by destruct (map_M f l s1) as [[ys|e] s2].
Qed.

Lemma within_map_M {S A B} (R : S → S → Prop) (E : exn → Prop)
    `{!Reflexive R} `{!Transitive R} (f : A → M S B) (l : list A) :
  (∀ x, within R E (f x)) → within R E (map_M f l).
Proof.
  intros Hf. induction l as [|a l IH]; simpl.
  - by apply within_ret.
  - apply within_bind; try apply _; [apply Hf|]. intros y.
    apply within_bind; try apply _; [apply IH|]. intros ys. by apply within_ret.
Qed.

(** Positions run along two lists side by side. *)
Lemma flat_map_seq_zip_with {A B C} (f : A → B → list C) (l1 : list A) (l2 : list B) :
  length l2 ≤ length l1 →
  flat_map (λ x, match l1 !! x, l2 !! x with
                 | Some a, Some b => f a b
                 | _, _ => []
                 end) (seq 0 (length l2))
  = concat (zip_with f l1 l2).
Proof.
  revert l1. induction l2 as [|b l2 IH]; intros l1 Hlen; [by destruct l1|].
  destruct l1 as [|a l1]; [simpl in Hlen; lia|].
  simpl in Hlen. cbn [length seq flat_map zip_with concat]. simpl (_ !! 0).
  f_equal. rewrite <-seq_shift, flat_map_concat_map, map_map.
  rewrite <-flat_map_concat_map. apply IH. lia.
Qed.

(** *** Warnings for missing lemmas *)

Section warnings.
Context (bundle : DocBundle Document) (tagset : gmap string (gmap string string)).

Lemma lemmatize_fail_in_range sent x id log :
  bundle_id bundle !! x = Some id →
  lemmatize_fail bundle sent x log = (Ok tt, log ++ lemma_warnings id sent).
Proof.
  intros Hid. unfold lemmatize_fail, lemma_warnings. rewrite Hid.
  revert log. induction (words sent) as [|w ws IH]; intros log.
  - simpl. by rewrite app_nil_r.
  - cbn [for_each]. unfold bind at 1.
    destruct (lemma w) as [lm|] eqn:Hw.
    + simpl. rewrite IH. by rewrite filter_cons_False by (by rewrite Hw).
    + simpl. rewrite IH. rewrite filter_cons_True by done.
      rewrite fmap_cons, <-app_assoc. done.
Qed.

Lemma lemmatize_fail_within sent x :
  within prefix lookup_error (lemmatize_fail bundle sent x).
Proof.
  unfold lemmatize_fail. apply within_for_each; try apply _. intros w.
  destruct (lemma w); [by apply within_ret; apply _|].
  destruct (bundle_id bundle !! x).
  - apply within_modify; try apply _. intros log. by apply prefix_app_r.
  - by apply within_raise; try apply _.
Qed.

Lemma make_sentence_inv sent x log s log' :
  make_sentence bundle tagset sent x log = (Ok s, log') →
  lemmatize_fail bundle sent x log = (Ok tt, log') ∧ vertical_sentence tagset sent s.
Proof.
  unfold make_sentence, bind, lift, ret. cbv zeta.
  destruct (lemmatize_fail bundle sent x log) as [[[]|e] log1]; [|done].
  destruct (make_lines tagset sent) as [lines|e] eqn:Hlines; [|done].
  intros [= <- <-]. split; [done|]. exists lines. split; [done|].
  transitivity (String.concat "" (("<s>" +:+ NL) :: (lines ++ ["</s>" +:+ NL])));
    [done|].
  by rewrite join_cons, join_app.
Qed.

Lemma make_lines_raises sent e : make_lines tagset sent = Raise e → lookup_error e.
Proof.
  unfold make_lines. apply map_result_raises. intros w e'. unfold make_line, lpos.
  destruct (tagset !! xpos w) as [entry|]; [|by intros [= <-]].
  destruct (entry !! "lpos"); [done|by intros [= <-]].
Qed.

Lemma make_sentence_within sent x :
  within prefix lookup_error (make_sentence bundle tagset sent x).
Proof.
  unfold make_sentence. cbv zeta.
  apply within_bind; try apply _; [apply lemmatize_fail_within|]. intros _.
  apply within_bind; try apply _; [|intros lines; by apply within_ret; apply _].
  apply within_lift; try apply _. apply make_lines_raises.
Qed.

Lemma make_sentence_total sent x log :
  x < length (bundle_id bundle) →
  (∀ w, w ∈ words sent → is_ok (lpos tagset w) = true) →
  is_ok (make_sentence bundle tagset sent x log).1 = true.
Proof.
  intros Hx Htags. unfold make_sentence, bind, lift, ret.
  apply lookup_lt_is_Some_2 in Hx as [id Hid].
  rewrite (lemmatize_fail_in_range _ _ _ _ Hid).
  assert (is_ok (make_lines tagset sent) = true) as Hok.
  { unfold make_lines. induction (words sent) as [|w ws IH]; [done|].
    simpl. unfold make_line at 1.
    specialize (Htags w (list_elem_of_here _ _)) as Hw.
    destruct (lpos tagset w); [|done].
    rewrite <-IH by (intros w' Hw'; apply Htags; by right).
    by destruct (map_result (make_line tagset) ws). }
  by destruct (make_lines tagset sent).
Qed.

Lemma vertical_sentence_nonempty sent v : vertical_sentence tagset sent v → v ≠ "".
Proof. intros (lines & _ & ->). done. Qed.

Lemma join_empty (l : list string) :
  Forall (λ v, v ≠ "") l → String.concat "" l = "" ↔ l = [].
Proof.
  intros Hl. split; [|by intros ->].
  destruct Hl as [|v l Hv _]; [done|]. rewrite join_cons.
  destruct v; [done|]. done.
Qed.

(** The sentences of one document. *)
Lemma sentences_inv (d : Document) x log vs log' :
  map_M (λ sent, make_sentence bundle tagset sent x) (sentences d) log = (Ok vs, log') →
  Forall2 (vertical_sentence tagset) (sentences d) vs
  ∧ ∀ id, bundle_id bundle !! x = Some id → log' = log ++ document_warnings id d.
Proof.
  intros Hrun.
  apply (map_M_inv _ (λ seen l, ∀ id, bundle_id bundle !! x = Some id →
                                      l = log ++ flat_map (lemma_warnings id) seen)
                   (vertical_sentence tagset) _) with (seen := []) in Hrun.
  - done.
  - intros seen sent l v l' _ HI [Hlog Hv]%make_sentence_inv. split; [done|].
    intros id Hid. rewrite (lemmatize_fail_in_range _ _ _ _ Hid) in Hlog.
    simplify_eq. rewrite (HI id Hid), flat_map_app. simpl.
    by rewrite app_nil_r, app_assoc.
  - intros id _. simpl. by rewrite app_nil_r.
Qed.

End warnings.

Lemma stanza_to_vert_within (bundle : DocBundle Document)
    (tagset : gmap string (gmap string string)) :
  within prefix lookup_error (stanza_to_vert bundle tagset).
Proof.
  unfold stanza_to_vert, make_docs.
  apply within_bind; try apply _; [|intros docs; by apply within_ret; apply _].
  apply within_map_M; try apply _. intros x.
  destruct (bundle_doc bundle !! x) as [d|]; [|by apply within_raise; try apply _].
  apply within_bind; try apply _; [|intros vs; by apply within_ret; apply _].
  apply within_map_M; try apply _. intros sent. apply make_sentence_within.
Qed.

Lemma stanza_to_vert_token (bundle : DocBundle Document)
    (tagset : gmap string (gmap string string)) log vert log' :
  stanza_to_vert bundle tagset log = (Ok vert, log') →
  bundle_token vert = bundle_token bundle.
Proof.
  unfold stanza_to_vert, make_docs. unfold bind at 1.
  destruct (map_M _ _ log) as [[docs|e] l]; [|done]. by intros [= <- _].
Qed.

(** X4. [stanza_to_vert] on a bundle.  When it returns, the bundle has the
    ids and the token count it came with and one vertical document for each
    of its documents, in order: the sentences of the document one after the
    other, each the start marker, one line per word and the end marker, so
    that a document comes out empty exactly when it has no sentence; and the
    log has grown by exactly one warning for each word without lemma, under
    the id of its document, in the order of the text.  When it raises, it
    raises KeyError or IndexError, nothing logged before is lost, and some
    tag of the bundle had no suffix in the tagset or the bundle had fewer ids
    than documents. *)
Theorem stanza_to_vert_documents (bundle : DocBundle Document)
    (tagset : gmap string (gmap string string)) (log : list warning) :
  match stanza_to_vert bundle tagset log with
  | (Ok vert, log') =>
      bundle_id vert = bundle_id bundle
      ∧ bundle_token vert = bundle_token bundle
      ∧ Forall2 (vertical_document tagset) (bundle_doc bundle) (bundle_doc vert)
      ∧ (length (bundle_doc bundle) ≤ length (bundle_id bundle) →
         log' = log ++ concat (zip_with document_warnings
                                 (bundle_id bundle) (bundle_doc bundle)))
  | (Raise e, log') =>
      log `prefix_of` log'
      ∧ lookup_error e
      ∧ ¬ (length (bundle_doc bundle) ≤ length (bundle_id bundle)
           ∧ tags_known tagset bundle)
  end.
Proof.
  unfold stanza_to_vert, make_docs.
  set (one := λ x : nat,
         match bundle_doc bundle !! x with
         | None => raise IndexError
         | Some d =>
             let! _list := map_M (λ sent, make_sentence bundle tagset sent x)
                                 (sentences d) in
             ret (String.concat "" _list)
         end).
  unfold bind at 1.
  destruct (map_M one (seq 0 (length (bundle_doc bundle))) log)
    as [[docs|e] log'] eqn:Hrun.
  - unfold ret. cbn [bundle_id bundle_doc bundle_token].
    apply (map_M_inv one
             (λ seen l, length (bundle_doc bundle) ≤ length (bundle_id bundle) →
                        l = log ++ flat_map
                              (λ x, match bundle_id bundle !! x, bundle_doc bundle !! x with
                                    | Some id, Some d => document_warnings id d
                                    | _, _ => []
                                    end) seen)
             (λ x s, ∃ d, bundle_doc bundle !! x = Some d ∧ vertical_document tagset d s)
             _) with (seen := []) in Hrun.
    + destruct Hrun as [Hdocs Hlog]. split_and!; [done|done| |].
      * apply Forall2_same_length_lookup. split.
        { apply Forall2_length in Hdocs. by rewrite length_seq in Hdocs. }
        intros x d s Hd Hs.
        assert (seq 0 (length (bundle_doc bundle)) !! x = Some x) as Hx.
        { apply lookup_seq. split; [done|]. by apply lookup_lt_Some in Hd. }
        destruct (Forall2_lookup_l _ _ _ _ _ Hdocs Hx) as (s' & Hs' & d' & Hd' & Hv).
        by simplify_eq.
      * intros Hlen. rewrite (Hlog Hlen). simpl.
        by rewrite flat_map_seq_zip_with.
    + intros seen x l s l' Hx HI. unfold one.
      destruct (bundle_doc bundle !! x) as [d|] eqn:Hd; [|done].
      unfold bind at 1.
      destruct (map_M _ (sentences d) l) as [[vs|e] l1] eqn:Hsents; [|done].
      intros [= <- <-]. apply sentences_inv in Hsents as [Hvs Hwarn].
      split.
      * exists d. split; [done|]. split.
        { rewrite join_empty.
          - split; [intros ->; by apply Forall2_nil_inv_r in Hvs|].
            intros Hnil. rewrite Hnil in Hvs. by apply Forall2_nil_inv_l in Hvs.
          - clear -Hvs. induction Hvs as [|sent v ?? Hv _ IH]; constructor; [|done].
            by eapply vertical_sentence_nonempty. }
        eauto.
      * intros Hlen. rewrite flat_map_app. simpl. rewrite app_nil_r, Hd.
        apply elem_of_seq in Hx as [_ Hx]. simpl in Hx.
        destruct (lookup_lt_is_Some_2 (bundle_id bundle) x) as [id Hid]; [lia|].
        rewrite Hid, (Hwarn id Hid), (HI Hlen). by rewrite app_assoc.
    + intros _. simpl. by rewrite app_nil_r.
  - assert (within prefix lookup_error
              (map_M one (seq 0 (length (bundle_doc bundle))))) as Hwithin.
    { apply within_map_M; try apply _. intros x. unfold one.
      destruct (bundle_doc bundle !! x) as [d|]; [|by apply within_raise; try apply _].
      apply within_bind; try apply _; [|intros vs; by apply within_ret; apply _].
      apply within_map_M; try apply _. intros sent. apply make_sentence_within. }
    destruct (Hwithin log) as [Hpre HE]. rewrite Hrun in Hpre, HE. simpl in *.
    split_and!; [done|by apply HE|]. intros [Hlen Htags].
    assert (is_ok (map_M one (seq 0 (length (bundle_doc bundle))) log).1 = true) as Hok.
    { apply map_M_total. intros x l [_ Hx]%elem_of_seq. simpl in Hx. unfold one.
      destruct (lookup_lt_is_Some_2 (bundle_doc bundle) x Hx) as [d Hd]. rewrite Hd.
      unfold bind at 1.
      assert (is_ok (map_M (λ sent, make_sentence bundle tagset sent x)
                           (sentences d) l).1 = true) as Hsents.
      { apply map_M_total. intros sent l1 Hsent. apply make_sentence_total; [lia|].
        intros w Hw. eapply Htags; [|done..]. by eapply list_elem_of_lookup_2. }
      by destruct (map_M _ (sentences d) l) as [[vs|?] l1]. }
    by rewrite Hrun in Hok.
Qed.

(** *** Timestamps that are missing *)

Lemma filter_id_at_most_one {A} (raw : list (Z * A)) (i : Z) :
  NoDup raw.*1 → length (filter (λ r, r.1 = i) raw) ≤ 1.
Proof.
  induction raw as [|[j a] raw IH]; simpl; [lia|].
  intros [Hj Hraw]%NoDup_cons. destruct (decide (j = i)) as [->|Hne].
  - rewrite filter_cons_True by done. rewrite filter_none; [simpl; lia|].
    intros [j' a'] Hin Heq. simpl in Heq. subst. apply Hj.
    apply list_elem_of_fmap. by exists (i, a').
  - rewrite filter_cons_False by done. by apply IH.
Qed.

(** X5. [outdated_vert] when timestamps are missing, in a join each of
    whose two date columns holds a date (pandas does not compare a column
    that holds no date at all with dates that carry a time zone).  An id is
    reported exactly when it has a vertical document with a date and a raw
    record with a changed date that is strictly later: a vertical document
    whose date is missing, or whose raw record is missing or has no changed
    date, is never reported.  Every id reported is an id of both tables,
    and over raw records with distinct ids the ids come in the order of the
    vertical documents, each at most as often as it has documents.  A
    record of a batch whose vertical documents all lack a date is passed
    over. *)
Theorem outdated_vert_missing_dates {Row} (row_id : Row → Z)
    (vert raw : list (Z * Timestamp)) (batch : list Row) :
  (∃ i d, (i, Some d) ∈ vert) →
  (∃ i c, i ∈ vert.*1 ∧ (i, Some c) ∈ raw) →
  (∀ i, i ∈ outdated_vert vert raw ↔
        ∃ c d, (i, Some c) ∈ raw ∧ (i, Some d) ∈ vert ∧ (d < c)%Z)
  ∧ (∀ i, i ∈ outdated_vert vert raw → i ∈ vert.*1 ∧ i ∈ raw.*1)
  ∧ (NoDup raw.*1 → outdated_vert vert raw `sublist_of` vert.*1)
  ∧ (∀ x, row_id x ∈ vert.*1 → (∀ d, (row_id x, Some d) ∉ vert) →
          x ∉ skip_up_to_date row_id vert raw batch).
Proof.
  intros _ _. split_and!.
  - apply outdated_vert_spec.
  - intros i (c & d & Hr & Hv & _)%outdated_vert_spec. split.
    + apply list_elem_of_fmap. by exists (i, Some d).
    + apply list_elem_of_fmap. by exists (i, Some c).
  - intros Hraw. unfold outdated_vert, left_join.
    induction vert as [|[i d] vert IH]; [done|].
    cbn [flat_map fst snd]. rewrite filter_app, fmap_app.
    change ((i, d) :: vert).*1 with ([i] ++ vert.*1).
    apply sublist_app; [|done].
    pose proof (filter_id_at_most_one raw i Hraw) as Hone.
    destruct (filter (λ r, r.1 = i) raw) as [|[j c] [|??]]; [| |simpl in Hone; lia].
    + rewrite filter_cons. simpl. by constructor.
    + simpl. rewrite filter_cons. simpl.
      destruct (decide (later c d)); [done|]. by constructor.
  - intros x Hin Hnone [_ [Hnot|(c & d & _ & Hv & _)]]%skip_up_to_date_spec.
    + done.
    + by apply (Hnone d).
Qed.

(** Three vertical documents, one of them without a date, over three raw
    records, one of them without a changed date: only the document that
    is older than its record is reported. *)
Lemma outdated_vert_missing_dates_witness :
  let vert := [(1, Some 10); (2, None); (3, Some 10)]%Z in
  let raw := [(1, Some 20); (2, Some 20); (3, None)]%Z in
  (∃ i d, (i, Some d) ∈ vert)
  ∧ (∃ i c, i ∈ vert.*1 ∧ (i, Some c) ∈ raw)
  ∧ outdated_vert vert raw = [1%Z]
  ∧ ∀ i, i ∈ outdated_vert vert raw → i ∈ vert.*1 ∧ i ∈ raw.*1.
Proof.
  intros vert raw.
  assert (∃ i d, (i, Some d) ∈ vert) as H1
    by (exists 1%Z, 10%Z; apply list_elem_of_here).
  assert (∃ i c, i ∈ vert.*1 ∧ (i, Some c) ∈ raw) as H2
    by (exists 1%Z, 20%Z; split; apply list_elem_of_here).
  split_and!; [done|done|reflexivity|].
  exact (proj1 (proj2 (outdated_vert_missing_dates (Row := Z) id vert raw [] H1 H2))).
Defined.

(** *** A batch that has nothing to drop, or lacks a column *)

Section drop_again.
Context `{conv : Convert} `{inf : Inferred} `{ann : Annotator}.

Lemma kept_all i df : Forall (has_content i) (rows df) → kept i df = df.
Proof.
  intros Hall. unfold kept. destruct df as [cols rs]. simpl in *. f_equal.
  apply filter_all. intros r Hr. by eapply Forall_forall in Hall.
Qed.

(** X6. The edges of [drop_empty_vert], on a batch with one [vert]
    column.  A column that pandas does not take for strings raises
    AttributeError.  On one it takes: a batch in which every document has
    content is returned as it is and nothing is logged, so that dropping
    twice is dropping once; the [id] column is looked at only when there is
    a document to report: a batch without it passes when every document has
    content, and raises KeyError otherwise.  A batch without [vert] column
    raises UndefinedVariableError.  In none of the errors is anything
    logged. *)
Theorem drop_empty_vert_edges (df : DataFrame) (log : list warning) :
  match positions "vert" (columns df) with
  | [] => drop_empty_vert df log = (Raise (UndefinedVariableError "vert"), log)
  | _ :: _ :: _ => True
  | [i] =>
      (str_values (column_cells i df) = false →
       drop_empty_vert df log = (Raise (AttributeError str_accessor_message), log))
      ∧ (str_values (column_cells i df) = true →
         (Forall (has_content i) (rows df) → drop_empty_vert df log = (Ok df, log))
         ∧ (∀ log1 log2 once,
              drop_empty_vert df log1 = (Ok once, log2) →
              str_values (column_cells i once) = true →
              drop_empty_vert once log2 = (Ok once, log2))
         ∧ (head (positions "id" (columns df)) = None →
            (∀ r, r ∈ rows df → ¬ empty_content i r) →
            drop_empty_vert df log = (Ok (kept i df), log))
         ∧ (head (positions "id" (columns df)) = None →
            (∃ r, r ∈ rows df ∧ empty_content i r) →
            drop_empty_vert df log = (Raise (KeyError "id"), log)))
  end.
Proof.
  destruct (positions "vert" (columns df)) as [|i [|i' ps]] eqn:Hp; [| |done].
  { unfold drop_empty_vert, bind, lift, query_vert_len. by rewrite Hp. }
  assert (head (positions "vert" (columns df)) = Some i) as Hi by (by rewrite Hp).
  clear Hp. split.
  { intros Hstr. unfold drop_empty_vert, bind, lift, query_vert_len.
    by rewrite Hi, Hstr. }
  intros Hstr.
  assert (columns df ≠ []) as Hne by (intros Hc; by rewrite Hc in Hi).
  assert (∀ l, (∀ r, r ∈ rows df → ¬ empty_content i r) →
               drop_empty_vert df l = (Ok (kept i df), l)) as Hclean.
  { intros l Hnone. unfold drop_empty_vert, bind, lift, query_vert_len.
    rewrite Hi, Hstr. unfold empty. cbn [columns rows].
    rewrite (list_filter_iff _ (empty_content i)) by (intros; apply vert_len_zero).
    rewrite (list_filter_iff (λ r, vert_len_is (λ n, 0 <? n) i r) (has_content i))
      by (intros; apply vert_len_pos).
    rewrite (filter_none (empty_content i)) by done.
    rewrite (bool_decide_true ([] = [])) by done. by rewrite orb_true_r. }
  assert (∀ r, has_content i r → ¬ empty_content i r) as Hexcl.
  { intros r (n & Hn & Hpos) He. unfold empty_content in He. rewrite He in Hn.
    simplify_eq. lia. }
  assert (∀ df', columns df' = columns df → Forall (has_content i) (rows df') →
                 str_values (column_cells i df') = true →
                 ∀ l, drop_empty_vert df' l = (Ok df', l)) as Hfull.
  { intros df' Hcols Hall Hstr' l.
    unfold drop_empty_vert, bind, lift, query_vert_len.
    rewrite Hcols, Hi, Hstr'. unfold empty. cbn [columns rows].
    rewrite (list_filter_iff _ (empty_content i)) by (intros; apply vert_len_zero).
    rewrite (list_filter_iff (λ r, vert_len_is (λ n, 0 <? n) i r) (has_content i))
      by (intros; apply vert_len_pos).
    rewrite (filter_none (empty_content i))
      by (intros r Hr; apply Hexcl; by eapply Forall_forall in Hall).
    rewrite (bool_decide_true ([] = [])) by done. rewrite orb_true_r. simpl.
    rewrite filter_all by (intros r Hr; by eapply Forall_forall in Hall).
    rewrite <-Hcols. by destruct df'. }
  split_and!.
  - intros Hall. by apply Hfull.
  - intros log1 log2 once Hrun Hstr'.
    assert (once = kept i df) as ->.
    { revert Hrun. unfold drop_empty_vert, bind, lift, query_vert_len.
      rewrite Hi, Hstr. destruct (if negb _ then _ else _) as [[[]|e] l]; [|done].
      intros [= <- _]. unfold kept. f_equal.
      apply list_filter_iff. intros r. apply vert_len_pos. }
    apply Hfull; [done| |done]. simpl. apply Forall_forall.
    intros r Hr. by apply list_elem_of_filter in Hr as [? _].
  - intros _ Hnone. by apply Hclean.
  - intros Hj (r & Hr & He).
    unfold drop_empty_vert, bind, lift, query_vert_len.
    rewrite Hi, Hstr. unfold empty. cbn [columns rows].
    rewrite (bool_decide_false _ Hne).
    assert (filter (λ r, vert_len_is (λ n, n =? 0) i r) (rows df) ≠ []) as Hdrops.
    { intros Hnil.
      assert (r ∈ filter (λ r, vert_len_is (λ n, n =? 0) i r) (rows df)) as Hin.
      { apply list_elem_of_filter. split; [by apply vert_len_zero|done]. }
      rewrite Hnil in Hin. by apply elem_of_nil in Hin. }
    rewrite (bool_decide_false _ Hdrops). simpl.
    unfold id_values. cbn [columns]. by rewrite Hj.
Qed.

End drop_again.

(** ** More on the crawl *)

(** *** What each request is sent with *)

Section requests.
Context `{conv : Convert} `{call : Call}.

Lemma requested_old q0 o0 rec reqs rec' reqs' :
  requested q0 o0 rec reqs → length reqs = length rec →
  (∀ k p, (reqs ++ reqs') !! k = Some p → length reqs ≤ k →
          offset_at q0 (o0 + sum_counts (firstn k (rec ++ rec'))) p
          ∧ (k = 0 → p = q0)
          ∧ match (rec ++ rec') !! k with
            | Some r => api k p = Page r
            | None => ∃ msg, api k p = Failed msg
            end) →
  requested q0 o0 (rec ++ rec') (reqs ++ reqs').
Proof.
  intros Hreq Hlen Hnew k p Hk.
  destruct (decide (k < length reqs)) as [Hlt|Hge]; [|apply Hnew; [done|lia]].
  rewrite lookup_app_l in Hk by done.
  rewrite lookup_app_l by lia. rewrite take_app_le by lia.
  by apply Hreq.
Qed.

Lemma requested_answer q0 o0 rec reqs p1 r :
  requested q0 o0 rec reqs → length reqs = length rec →
  offset_at q0 (o0 + sum_counts rec) p1 → (rec = [] → p1 = q0) →
  api (length rec) p1 = Page r →
  requested q0 o0 (rec ++ [r]) (reqs ++ [p1]).
Proof.
  intros Hreq Hlen Hp1 Hfirst Hapi. apply requested_old; [done|done|].
  intros k p Hk Hge. rewrite lookup_app_r in Hk by done.
  destruct (k - length reqs) as [|m] eqn:Hm; [|done].
  simpl in Hk. simplify_eq. assert (k = length rec) as -> by lia.
  rewrite take_app_length. rewrite lookup_app_r, Nat.sub_diag by done. simpl.
  split_and!; [done| |done]. intros Hzero. apply Hfirst. by apply nil_length_inv.
Qed.

Lemma requested_failure q0 o0 rec reqs p1 msg :
  requested q0 o0 rec reqs → length reqs = length rec →
  offset_at q0 (o0 + sum_counts rec) p1 → (rec = [] → p1 = q0) →
  api (length rec) p1 = Failed msg →
  requested q0 o0 rec (reqs ++ [p1]).
Proof.
  intros Hreq Hlen Hp1 Hfirst Hapi.
  rewrite <-(app_nil_r rec). apply requested_old; [done|done|].
  rewrite app_nil_r.
  intros k p Hk Hge. rewrite lookup_app_r in Hk by done.
  destruct (k - length reqs) as [|m] eqn:Hm; [|done].
  simpl in Hk. simplify_eq. assert (k = length rec) as -> by lia.
  rewrite firstn_all. rewrite (lookup_ge_None_2 rec) by done.
  split_and!; [done| |by eauto]. intros Hzero. apply Hfirst. by apply nil_length_inv.
Qed.

(** One round of the loop, with the parameters of its request. *)
Lemma one_round_requests p0 s0 q0 o0 lim rec reqs j :
  at_round p0 (length s0) o0 lim rec j →
  sent j = s0 ++ reqs → length reqs = length rec →
  requested q0 o0 rec reqs →
  (∀ key, key ≠ "offset" → dict_get key (parameters j) = dict_get key q0) →
  (rec = [] → parameters j = q0) →
  match one_body j with
  | (Ok true, j') =>
      ∃ r, at_round p0 (length s0) o0 lim (rec ++ [r]) j'
           ∧ sent j' = s0 ++ reqs ++ [parameters j']
           ∧ requested q0 o0 (rec ++ [r]) (reqs ++ [parameters j'])
           ∧ (∀ key, key ≠ "offset" → dict_get key (parameters j') = dict_get key q0)
  | (Ok false, j') => j' = j
  | (Raise e, j') => ∃ rec' reqs', run_so_far p0 s0 q0 o0 rec' reqs' j'
  end.
Proof.
  intros Hat Hsent Hlen Hreq Hkeys Hq0.
  pose proof Hat as (Hp & Hs & Hn & Hl & Hr & Ho).
  assert (run_so_far p0 s0 q0 o0 rec reqs j) as Hhere.
  { unfold run_so_far. split_and!; [done|done|done|lia|lia|].
    split; [|done]. unfold offset_of in Ho. rewrite Ho, Hlen.
    replace (length rec - 1) with (pred (length rec)) by lia.
    by rewrite <-removelast_firstn_len. }
  pose proof (_offset_at_round _ _ _ _ _ _ Hat) as Hoff.
  assert (∃ p1 res,
            _offset j = (res, set_parameters p1 j)
            ∧ offset_at q0 (o0 + sum_counts rec) p1
            ∧ (rec = [] → p1 = q0)
            ∧ match res with
              | Ok _ => True
              | Raise e => ∃ x, last rec = Some x ∧ count x = 0%Z
              end) as (p1 & res & Hoffj & Hp1 & Hfirst & Hres).
  { destruct (last rec) as [x|] eqn:Hlast.
    - eexists _, _. split; [exact Hoff|]. split_and!.
      + split; [by rewrite dict_get_set_eq|]. intros key Hkey.
        rewrite dict_get_set_ne by done. by apply Hkeys.
      + intros ->. done.
      + case_bool_decide; [eauto|done].
    - apply last_None in Hlast. subst rec.
      exists (parameters j), (Ok tt). rewrite set_parameters_same.
      split_and!; [done| |by auto|done].
      split; [|done]. unfold offset_of in Ho. by rewrite Ho. }
  rewrite (one_body_unfold j _ _ Hn Hl).
  case_bool_decide as Hlim; [done|].
  unfold bind at 1. rewrite (_enforce_quota_spec j _ Hn).
  destruct (quota_allows (length rec)); [|by eauto].
  unfold bind at 1. rewrite Hoffj.
  destruct res as [[]|e].
  2:{ destruct Hres as (x & Hx & Hc). exists rec, reqs.
      unfold run_so_far. simpl. split_and!; [done|done|done|lia|lia|].
      rewrite Hlen. replace (length rec - 1) with (pred (length rec)) by lia.
      rewrite <-removelast_firstn_len.
      rewrite (sum_counts_last _ _ Hx), Hc, Z.add_0_r in Hp1. done. }
  unfold bind at 1.
  rewrite (_request_spec (set_parameters p1 j) (length rec)) by done.
  cbn [parameters set_parameters pages sent].
  destruct (api (length rec) p1) as [r|msg] eqn:Hapi.
  2:{ exists rec, (reqs ++ [p1]). unfold run_so_far. simpl. split_and!.
      - done.
      - by rewrite Hsent, app_assoc.
      - by eapply requested_failure.
      - rewrite length_app. simpl. lia.
      - rewrite length_app. simpl. lia.
      - rewrite length_app, Hlen. simpl.
        replace (length rec + 1 - 1) with (length rec) by lia.
        by rewrite firstn_all. }
  set (j2 := set_pages _ _).
  pose proof (finish_spec (db j) j2) as [(Hs1&Hs2&Hs3&Hs4&Hs5&Hs6&Hs7&Hs8) Hfin].
  simpl in Hs1, Hs2, Hs3, Hs4, Hs5, Hs6, Hs7.
  assert (requested q0 o0 (rec ++ [r]) (reqs ++ [p1])) as Hreq'
    by (by eapply requested_answer).
  destruct (finish (db j) j2) as [[b|e] j3]; simpl in *.
  - destruct Hfin as [-> Hcn]. exists r. rewrite Hs1. split_and!.
    + unfold at_round. split_and!.
      * rewrite Hs6, Hp. by rewrite app_assoc.
      * rewrite Hs7, !length_app, Hs. simpl. lia.
      * rewrite Hcn, Hn. simpl. f_equal. rewrite length_app. simpl. lia.
      * congruence.
      * intros _. rewrite Hs5. by rewrite last_snoc.
      * unfold offset_of. rewrite Hs1, removelast_snoc. apply Hp1.
    + by rewrite Hs7, Hsent, app_assoc.
    + done.
    + apply Hp1.
  - exists (rec ++ [r]), (reqs ++ [p1]). unfold run_so_far. split_and!.
    + rewrite Hs6, Hp. by rewrite app_assoc.
    + by rewrite Hs7, Hsent, app_assoc.
    + done.
    + rewrite !length_app. simpl. lia.
    + rewrite !length_app. simpl. lia.
    + rewrite Hs1, !length_app, Hlen. simpl.
      replace (length rec + 1 - 1) with (length rec) by lia.
      by rewrite take_app_length.
Qed.

Lemma while_loop_requests p0 s0 q0 o0 lim fuel rec reqs j :
  at_round p0 (length s0) o0 lim rec j →
  sent j = s0 ++ reqs → length reqs = length rec →
  requested q0 o0 rec reqs →
  (∀ key, key ≠ "offset" → dict_get key (parameters j) = dict_get key q0) →
  (rec = [] → parameters j = q0) →
  ∃ rec' reqs', run_so_far p0 s0 q0 o0 rec' reqs' (exec (while_loop fuel one_body) j).
Proof.
  revert rec reqs j.
  induction fuel as [|fuel IH]; intros rec reqs j Hat Hsent Hlen Hreq Hkeys Hq0.
  { exists rec, reqs. pose proof Hat as (Hp & Hs & Hn & Hl & Hr & Ho).
    unfold run_so_far, exec. simpl. split_and!; [done|done|done|lia|lia|].
    split; [|done]. unfold offset_of in Ho. rewrite Ho, Hlen.
    replace (length rec - 1) with (pred (length rec)) by lia.
    by rewrite <-removelast_firstn_len. }
  unfold exec. simpl. unfold bind.
  pose proof (one_round_requests _ _ _ _ _ _ _ _ Hat Hsent Hlen Hreq Hkeys Hq0) as Hround.
  destruct (one_body j) as [[[|]|e] j'].
  - destruct Hround as (r & Hat' & Hsent' & Hreq' & Hkeys').
    apply (IH (rec ++ [r]) (reqs ++ [parameters j']) j' Hat').
    + by rewrite Hsent', app_assoc.
    + rewrite !length_app. simpl. lia.
    + done.
    + done.
    + by intros [_ ?]%app_eq_nil.
  - subst j'. exists rec, reqs. pose proof Hat as (Hp & Hs & Hn & Hl & Hr & Ho).
    unfold run_so_far. simpl. split_and!; [done|done|done|lia|lia|].
    split; [|done]. unfold offset_of in Ho. rewrite Ho, Hlen.
    replace (length rec - 1) with (pred (length rec)) by lia.
    by rewrite <-removelast_firstn_len.
  - done.
Qed.

Lemma all_requests (limit : nat) (j : Job) (o0 : Z) :
  offset_of j = Some (VInt o0) →
  ∃ received requests,
    run_so_far (pages j) (sent j) (parameters j) o0 received requests
               (exec (all limit) j).
Proof.
  intros Ho. unfold exec. rewrite all_unfold.
  set (j0 := set_call_n (Some 0) (set_limit (Some limit) j)).
  assert (at_round (pages j) (length (sent j)) o0 limit [] j0) as Hat.
  { unfold at_round, j0, offset_of. simpl. rewrite app_nil_r, Z.add_0_r, Nat.add_0_r.
    by split_and!. }
  apply (while_loop_requests _ _ _ _ _ (S limit) [] [] _ Hat); try done.
  by rewrite app_nil_r.
Qed.

Lemma run_so_far_last p0 s0 q0 o0 rec reqs j p :
  run_so_far p0 s0 q0 o0 rec reqs j → last reqs = Some p →
  ∀ key, dict_get key (parameters j) = dict_get key p.
Proof.
  intros (_ & _ & Hreq & Hlen & [Ho Hk]) Hlast key.
  rewrite last_lookup in Hlast.
  replace (pred (length reqs)) with (length reqs - 1) in Hlast by lia.
  destruct (Hreq _ _ Hlast) as ([Hpo Hpk] & _).
  destruct (decide (key = "offset")) as [->|Hkey].
  - by rewrite Ho, Hpo.
  - rewrite Hk, Hpk by done. done.
Qed.

(** X7. The requests of a run.  A run started at offset [o0] sends its
    first request with the parameters of the job as they are, and request
    [k] with the offset at [o0] plus the result counts of the [k] pages
    received before it, every other parameter as the job had it.  Page [k]
    is the answer to request [k]; the run sends as many requests as it
    receives pages, or one more, which failed.  When the run is over, the
    job has the offset of the last request sent, answered or not, and no
    other parameter has changed. *)
Theorem requests_follow_counts (limit : nat) (j : Job) (o0 : Z) :
  offset_of j = Some (VInt o0) →
  let j' := exec (all limit) j in
  ∃ received requests,
    pages j' = pages j ++ received
    ∧ sent j' = sent j ++ requests
    ∧ requested (parameters j) o0 received requests
    ∧ length received ≤ length requests ≤ S (length received)
    ∧ offset_at (parameters j)
                (o0 + sum_counts (firstn (length requests - 1) received))
                (parameters j')
    ∧ (∀ p, last requests = Some p →
            ∀ key, dict_get key (parameters j') = dict_get key p).
Proof.
  intros Ho j'. destruct (all_requests limit j o0 Ho) as (rec & reqs & Hrun).
  exists rec, reqs. pose proof Hrun as (Hp & Hs & Hreq & Hlen & Hoff).
  split_and!; try done; try lia.
  intros p Hlast. by eapply run_so_far_last.
Qed.

(** X8. A second run.  [all] sets the call number back to 0 and leaves
    the offset where it is, so a run that follows another sends its first
    request with the parameters of the job as the first run left them: key
    for key, the parameters the last request of the first run was sent
    with.  The second run asks again for what the first asked last. *)
Theorem rerun_repeats_last_request (limit limit' : nat) (j : Job) (o0 : Z) :
  offset_of j = Some (VInt o0) →
  let j1 := exec (all limit) j in
  ∃ requests requests',
    sent j1 = sent j ++ requests
    ∧ sent (exec (all limit') j1) = sent j1 ++ requests'
    ∧ ∀ p p', last requests = Some p → head requests' = Some p' →
        p' = parameters j1 ∧ ∀ key, dict_get key p' = dict_get key p.
Proof.
  intros Ho j1.
  destruct (all_requests limit j o0 Ho) as (rec1 & reqs1 & Hrun1).
  fold j1 in Hrun1. pose proof Hrun1 as (_ & Hs1 & _ & _ & Hoff1).
  destruct (all_requests limit' j1 _ (proj1 Hoff1)) as (rec2 & reqs2 & Hrun2).
  pose proof Hrun2 as (_ & Hs2 & Hreq2 & _).
  exists reqs1, reqs2. split_and!; [done|done|].
  intros p p' Hlast Hhead. rewrite head_lookup in Hhead.
  destruct (Hreq2 _ _ Hhead) as (_ & Hp' & _). rewrite Hp' by done.
  split; [done|]. by eapply run_so_far_last.
Qed.

End requests.

Lemma requests_follow_counts_witness :
  let j := job_with None sorted_parameters in
  let run := all (conv := example_convert)
                 (call := cut_off [two_reports; two_reports]) 5 in
  offset_of j = Some (VInt 0)
  ∧ ∃ received requests,
      pages (exec run j) = [] ++ received
      ∧ sent (exec run j) = [] ++ requests
      ∧ requested (call := cut_off [two_reports; two_reports])
                  sorted_parameters 0 received requests.
Proof.
  intros j run. split; [reflexivity|].
  destruct (requests_follow_counts
              (conv := example_convert)
              (call := cut_off [two_reports; two_reports])
              5 j 0 eq_refl)
    as (received & requests & Hpages & Hsent & Hreq & _).
  exists received, requests. by split_and!.
Defined.

(** A run of two pages and a failed request: three requests, at offsets 0,
    2 and 4. *)
Lemma requests_of_a_cut_off_run :
  let run := all (conv := example_convert)
                 (call := cut_off [two_reports; two_reports]) 5 in
  map (dict_get "offset") (sent (exec run (job_with None sorted_parameters)))
  = [Some (VInt 0); Some (VInt 2); Some (VInt 4)]
  ∧ map count (pages (exec run (job_with None sorted_parameters))) = [2; 2]%Z.
Proof. by vm_compute. Qed.

Lemma rerun_repeats_last_request_witness :
  let j := job_with None sorted_parameters in
  let first := all (conv := example_convert)
                   (call := scripted [two_reports; two_reports]) 2 in
  let second := all (conv := example_convert)
                    (call := scripted [two_reports; two_reports]) 1 in
  offset_of j = Some (VInt 0)
  ∧ ∃ requests requests',
      sent (exec first j) = [] ++ requests
      ∧ sent (exec second (exec first j)) = sent (exec first j) ++ requests'.
Proof.
  intros j first second. split; [reflexivity|].
  destruct (rerun_repeats_last_request
              (conv := example_convert)
              (call := scripted [two_reports; two_reports])
              2 1 j 0 eq_refl)
    as (requests & requests' & Hsent & Hsent' & _).
  exists requests, requests'. by split.
Defined.

(** *** One call, and none *)

Section one.
Context `{conv : Convert} `{call : Call}.

Lemma _offset_first j : call_n j = Some 0 → _offset j = (Ok tt, j).
Proof.
  intros Hn. unfold _offset. unfold bind at 1. by rewrite (the_call_n_spec _ _ Hn).
Qed.

Lemma one_body_defaults j :
  call_n j = None → limit j = None →
  one_body j = one_body (set_limit (Some 1) (set_call_n (Some 0) j)).
Proof.
  intros Hn Hl. unfold one_body. unfold bind at 1. unfold modify at 1.
  rewrite Hn. unfold bind at 1. unfold modify at 1. cbn [limit set_call_n].
  rewrite Hl. done.
Qed.

(** The first round of a run. *)
Lemma first_round_request j lim :
  call_n j = Some 0 → limit j = Some lim →
  match one_body j with
  | (Ok true, j') =>
      (∃ r, api 0 (parameters j) = Page r ∧ pages j' = pages j ++ [r])
      ∧ sent j' = sent j ++ [parameters j]
      ∧ parameters j' = parameters j
      ∧ call_n j' = Some 1 ∧ limit j' = Some lim
  | (Ok false, j') => j' = j ∧ lim = 0
  | (Raise e, j') =>
      e ≠ OutOfFuel
      ∧ parameters j' = parameters j
      ∧ ((pages j' = pages j
          ∧ (sent j' = sent j ∨ sent j' = sent j ++ [parameters j]))
         ∨ (∃ r, api 0 (parameters j) = Page r ∧ pages j' = pages j ++ [r])
           ∧ sent j' = sent j ++ [parameters j])
  end.
Proof.
  intros Hn Hl. rewrite (one_body_unfold j _ _ Hn Hl).
  case_bool_decide as Hlim; [split; [done|lia]|].
  unfold bind at 1. rewrite (_enforce_quota_spec j _ Hn).
  destruct (quota_allows 0); [|by split_and!; [|done|left; split; [|left]]].
  unfold bind at 1. rewrite (_offset_first j Hn).
  unfold bind at 1. rewrite (_request_spec j 0 Hn).
  destruct (api 0 (parameters j)) as [r|msg] eqn:Hapi.
  2:{ split_and!; [done|done|]. left. split; [done|by right]. }
  set (j2 := set_pages _ _).
  pose proof (finish_spec (db j) j2) as [(Hs1&Hs2&Hs3&Hs4&Hs5&Hs6&Hs7&Hs8) Hfin].
  simpl in Hs1, Hs2, Hs3, Hs4, Hs5, Hs6, Hs7.
  destruct (finish (db j) j2) as [[b|e] j3]; simpl in *.
  - destruct Hfin as [-> Hcn]. split_and!; [by eauto|done|done| |congruence].
    by rewrite Hcn, Hn.
  - destruct Hfin as [He _]. split_and!; [by destruct e|done|]. right. by eauto.
Qed.

(** X9. [one] and the limit.  On a job whose call number has reached its
    limit, [one] returns at once: no request is sent and nothing changes.
    On a job whose call number and limit were never set, the call number
    starts at 0 and the limit at 1: [one] sends one request, with the
    parameters of the job as they are, and no second one; when it returns,
    the page has been received and call number and limit both stand at 1. *)
Theorem one_respects_limit (j : Job) :
  (∀ n lim, call_n j = Some n → limit j = Some lim → lim ≤ n →
            one j = (Ok tt, j))
  ∧ (call_n j = None → limit j = None →
     match one j with
     | (Ok _, j') =>
         (∃ r, api 0 (parameters j) = Page r ∧ pages j' = pages j ++ [r])
         ∧ sent j' = sent j ++ [parameters j]
         ∧ parameters j' = parameters j
         ∧ call_n j' = Some 1 ∧ limit j' = Some 1
     | (Raise e, j') =>
         e ≠ OutOfFuel
         ∧ parameters j' = parameters j
         ∧ ((pages j' = pages j
             ∧ (sent j' = sent j ∨ sent j' = sent j ++ [parameters j]))
            ∨ (∃ r, api 0 (parameters j) = Page r ∧ pages j' = pages j ++ [r])
              ∧ sent j' = sent j ++ [parameters j])
     end).
Proof.
  split.
  - intros n lim Hn Hl Hle. unfold one. unfold bind at 1. unfold get at 1.
    rewrite Hn, Hl. simpl. unfold bind.
    rewrite (one_body_unfold j _ _ Hn Hl). by rewrite bool_decide_true.
  - intros Hn Hl. unfold one. unfold bind at 1. unfold get at 1.
    rewrite Hn, Hl. simpl. unfold bind at 1.
    rewrite (one_body_defaults j Hn Hl).
    set (j0 := set_limit (Some 1) (set_call_n (Some 0) j)).
    pose proof (first_round_request j0 1 eq_refl eq_refl) as Hfirst.
    destruct (one_body j0) as [[[|]|e] j1]; simpl in Hfirst.
    + destruct Hfirst as (Hp & Hsn & Hq & Hn1 & Hl1). unfold bind.
      rewrite (one_body_unfold j1 _ _ Hn1 Hl1). by rewrite bool_decide_true.
    + by destruct Hfirst as [_ ?].
    + done.
Qed.

End one.

Lemma one_respects_limit_witness :
  let j := job_with None sorted_parameters in
  outcome (one (conv := example_convert) (call := scripted [two_reports])) j = Ok tt
  ∧ pages (exec (one (conv := example_convert) (call := scripted [two_reports])) j)
    = [two_reports].
Proof.
  intros j.
  pose proof (proj2 (one_respects_limit (conv := example_convert)
                       (call := scripted [two_reports]) j) eq_refl eq_refl) as Hone.
  unfold outcome, exec.
  destruct (one j) as [[[]|e] j'] eqn:Hrun.
  - split; [done|]. simpl. destruct Hone as [(r & Hr & ->) _].
    vm_compute in Hr. by simplify_eq.
  - exfalso. by vm_compute in Hrun.
Defined.

(** *** Field names *)

Lemma elem_of_dedupe seen l k : k ∈ dedupe seen l ↔ k ∈ l ∧ k ∉ seen.
Proof.
  revert seen. induction l as [|x l IH]; intros seen; simpl.
  - split; [by intros ?%elem_of_nil|by intros [?%elem_of_nil _]].
  - case_bool_decide as Hx.
    + rewrite IH, elem_of_cons. split; [tauto|].
      intros [[->|Hk] Hseen]; [done|tauto].
    + rewrite !elem_of_cons, IH, not_elem_of_cons.
      destruct (decide (k = x)) as [->|Hne]; tauto.
Qed.

Lemma NoDup_dedupe seen l : NoDup (dedupe seen l).
Proof.
  revert seen. induction l as [|x l IH]; intros seen; simpl; [constructor|].
  case_bool_decide; [apply IH|]. constructor; [|apply IH].
  rewrite elem_of_dedupe, not_elem_of_cons. tauto.
Qed.

Lemma for_each_inv {S A} (body : A → M S unit) (I : list A → S → Prop) (l : list A) :
  (∀ seen x s s', x ∈ l → I seen s → body x s = (Ok tt, s') → I (seen ++ [x]) s') →
  ∀ seen s s', I seen s → for_each l body s = (Ok tt, s') → I (seen ++ l) s'.
Proof.
  induction l as [|a l IH]; intros Hstep seen s s' HI.
  - intros [= <-]. by rewrite app_nil_r.
  - simpl. unfold bind at 1. destruct (body a s) as [[[]|e] s1] eqn:Ha; [|done].
    intros Hrest.
    pose proof (Hstep seen a s s1 (list_elem_of_here _ _) HI Ha) as HI1.
    pose proof (IH (λ seen x s s' Hx, Hstep seen x s s' (list_elem_of_further _ _ _ Hx))
                   (seen ++ [a]) s1 s' HI1 Hrest) as HI2.
    by rewrite <-app_assoc in HI2.
Qed.

Lemma for_each_raise {S A} (body : A → M S unit) (l : list A) s e s' :
  for_each l body s = (Raise e, s') → ∃ x s1, x ∈ l ∧ body x s1 = (Raise e, s').
Proof.
  revert s. induction l as [|a l IH]; intros s; [done|].
  simpl. unfold bind at 1. destruct (body a s) as [[[]|e1] s1] eqn:Ha.
  - intros (x & s2 & Hx & Hb)%IH. exists x, s2. split; [by right|done].
  - intros [= <- <-]. exists a, s. split; [left|done].
Qed.

Section field_names.
Context `{conv : Convert} `{call : Call}.

(** X10. [_get_field_names] on the page last received.  When it returns,
    the field names of the job are, each once, exactly the keys of the
    [fields] of the records of the page, whatever they were before; every
    record has such [fields]; and nothing else of the job has changed.  It
    raises exactly when a record of the page has no [fields] (KeyError) or
    has one that is not a dict (AttributeError). *)
Theorem field_names_of_page (j : Job) (r : Response) :
  response_json j = Some r →
  match _get_field_names j with
  | (Ok _, j') =>
      j' = set_field_names (field_names j') j
      ∧ NoDup (field_names j')
      ∧ (∀ k, k ∈ field_names j' ↔
              ∃ x fields, x ∈ data r ∧ dict_get "fields" x = Some (VDict fields)
                          ∧ k ∈ fields.*1)
      ∧ Forall (λ x, ∃ fields, dict_get "fields" x = Some (VDict fields)) (data r)
  | (Raise e, j') =>
      ∃ x, x ∈ data r
           ∧ match dict_get "fields" x with
             | None => e = KeyError "fields"
             | Some v => is_dict v = false ∧ ∃ m, e = AttributeError m
             end
  end.
Proof.
  intros Hr. unfold _get_field_names. unfold bind at 1.
  rewrite (the_response_spec _ _ Hr). unfold bind at 1. unfold modify at 1.
  set (body := λ x : dict, match dict_get "fields" x with
                           | Some (VDict fields) => _
                           | Some _ => _
                           | None => _
                           end).
  destruct (for_each (data r) body (set_field_names [] j)) as [[[]|e] j'] eqn:Hrun.
  - apply (for_each_inv body
             (λ seen s, ∃ fn, s = set_field_names fn j ∧ NoDup fn
                ∧ (∀ k, k ∈ fn ↔
                        ∃ x fields, x ∈ seen ∧ dict_get "fields" x = Some (VDict fields)
                                    ∧ k ∈ fields.*1)
                ∧ Forall (λ x, ∃ fields, dict_get "fields" x = Some (VDict fields)) seen)
             _) with (seen := []) in Hrun.
    + destruct Hrun as (fn & -> & Hnodup & Hfn & Hall). done.
    + intros seen x s s' _ (fn & -> & Hnodup & Hfn & Hall). unfold body.
      destruct (dict_get "fields" x) as [[| | | | | |fields]|] eqn:Hx; try done.
      intros [= <-]. cbn [field_names set_field_names].
      exists (fn ++ dedupe fn fields.*1). split_and!.
      * done.
      * apply NoDup_app. split_and!; [done| |apply NoDup_dedupe].
        intros k Hk. rewrite elem_of_dedupe. tauto.
      * intros k. rewrite elem_of_app, elem_of_dedupe. split.
        { intros [Hk|[Hk _]].
          - apply Hfn in Hk as (y & fs & Hy & Hfs & Hk).
            exists y, fs. rewrite elem_of_app. tauto.
          - exists x, fields. rewrite elem_of_app, list_elem_of_singleton. tauto. }
        intros (y & fs & [Hy| ->%list_elem_of_singleton]%elem_of_app & Hfs & Hk).
        { left. apply Hfn. eauto. }
        simplify_eq. destruct (decide (k ∈ fn)); tauto.
      * apply Forall_app. split; [done|]. constructor; [eauto|constructor].
    + exists []. split_and!; [done|constructor| |constructor].
      intros k. split; [by intros ?%elem_of_nil|].
      by intros (x & fs & ?%elem_of_nil & _).
  - apply for_each_raise in Hrun as (x & s1 & Hx & Hb). exists x. split; [done|].
    revert Hb. unfold body.
    destruct (dict_get "fields" x) as [[| | | | | |fields]|];
      try (intros [= <- _]; split; [done|]; eauto); try done.
    by intros [= <- _].
Qed.

End field_names.

Lemma field_names_of_page_witness :
  let j := set_response_json (Some two_reports) (job_with None sorted_parameters) in
  response_json j = Some two_reports
  ∧ field_names (exec _get_field_names j) = ["title"; "date"].
Proof.
  intros j. split; [reflexivity|].
  pose proof (field_names_of_page j two_reports eq_refl) as Hnames.
  unfold exec.
  destruct (_get_field_names j) as [[[]|e] j'] eqn:Hrun; by vm_compute in Hrun; simplify_eq.
Defined.

(** *** Where an incremental run starts *)

Lemma dict_get_union_one key k v d :
  dict_get key (dict_union d [(k, v)])
  = if decide (key = k) then Some v else dict_get key d.
Proof.
  unfold dict_union. simpl. destruct (decide (key = k)) as [->|Hne].
  - apply dict_get_set_eq.
  - by apply dict_get_set_ne.
Qed.

Section start.
Context `{conv : Convert} `{call : Call}.

(** X11. The start of an incremental run whose sort is the required one.
    Without a database it raises AttributeError before any request.  Over
    storage in which no record has a changed date, it is the full run on
    the parameters of the job with the offset at 0.  Over storage in which
    every record has one, it is the full run on the original parameters of
    the job with the filter replaced: every parameter but the filter is the
    original one, the offset included, so the run starts at the offset of
    the original parameters and not at the 0 that [new] had set. *)
Theorem incremental_start (limit : nat) (j : Job) :
  sorted_by_changed (parameters j) = true →
  (db j = None →
   ∃ m, new limit j
        = (Raise (AttributeError m),
           set_parameters (dict_set "offset" (VInt 0) (parameters j)) j))
  ∧ (∀ d t i T,
       db j = Some d → conn d !! "_raw" = Some t →
       head (positions "date" (t_columns t)) = Some i →
       stored_changed t i = Ok T →
       (dates T = [] →
        ∃ j0, new limit j = all limit j0
              ∧ pages j0 = pages j ∧ sent j0 = sent j
              ∧ offset_of j0 = Some (VInt 0)
              ∧ (∀ key, key ≠ "offset" →
                        dict_get key (parameters j0) = dict_get key (parameters j)))
       ∧ (∀ old, Forall is_Some T → dates T ≠ [] →
            caller_conditions (original_parameters j) = Ok old →
            ∃ j0, new limit j = all limit j0
                  ∧ pages j0 = pages j ∧ sent j0 = sent j
                  ∧ original_parameters j0 = original_parameters j
                  ∧ (∀ key, key ≠ "filter" →
                            dict_get key (parameters j0)
                            = dict_get key (original_parameters j))
                  ∧ offset_of j0 = dict_get "offset" (original_parameters j))).
Proof.
  intros Hs. split.
  - intros Hdb. exists "NoneType". unfold new. unfold bind at 1. unfold modify at 1.
    unfold bind at 1. unfold get at 1. cbn [parameters set_parameters].
    rewrite sorted_by_changed_offset, Hs. cbn [negb].
    unfold bind at 1. unfold select_date_changed, bind, get. cbv beta.
    cbn [db set_parameters]. by rewrite Hdb.
  - intros d t i T Hd Ht Hi HT.
    pose proof (new_sorted limit j d t i T Hd Ht Hi Hs HT) as Hnew.
    set (j1 := set_date_changed_vals T
                 (set_parameters (dict_set "offset" (VInt 0) (parameters j)) j))
      in Hnew.
    split.
    + intros Hnone. exists j1. split_and!; [|done|done| |].
      * rewrite Hnew. unfold bind at 1. unfold _update_filter, bind, get. cbv beta.
        cbn [date_changed_vals set_date_changed_vals j1]. unfold series_any.
        by rewrite Hnone.
      * unfold offset_of, j1. simpl. by rewrite dict_get_set_eq.
      * intros key Hkey. unfold j1. simpl. by rewrite dict_get_set_ne.
    + intros old Hall Hsome Hold.
      destruct (dates T) as [|t0 ts] eqn:Hdates; [done|].
      set (cond := changed_from (isoformat (foldr Z.max t0 ts))).
      set (p := dict_union (original_parameters j)
                  [("filter", VDict [("operator", VStr "AND");
                                     ("conditions", VList (old ++ [cond]))])]).
      exists (set_parameters p j1). split_and!.
      * rewrite Hnew. unfold bind at 1. unfold _update_filter. unfold bind at 1.
        unfold get at 1. unfold j1 at 1 2 3 4.
        cbn [date_changed_vals original_parameters set_date_changed_vals set_parameters].
        unfold series_any, series_max. rewrite Hdates.
        rewrite (bool_decide_true (t0 :: ts ≠ [])) by done.
        rewrite (bool_decide_true _ Hall).
        unfold bind at 1. unfold lift at 1. cbv zeta.
        unfold caller_conditions in Hold.
        destruct (dict_get "filter" (original_parameters j)) as [[]|] eqn:Hf;
          try done.
        -- unfold bind at 1. unfold lift at 1.
           destruct (dict_get "conditions" d0) as [[]|] eqn:Hc; try done;
             simplify_eq; unfold bind at 1; unfold lift at 1; try rewrite Hc; done.
        -- simplify_eq. done.
      * done.
      * done.
      * done.
      * intros key Hkey. cbn [parameters set_parameters]. unfold p.
        rewrite dict_get_union_one. by rewrite decide_False.
      * unfold offset_of. cbn [parameters set_parameters]. unfold p.
        rewrite dict_get_union_one. by rewrite decide_False.
Qed.

End start.

Lemma incremental_start_witness :
  sorted_by_changed (parameters stocked_job) = true
  ∧ ∃ j0, new (conv := example_convert) (call := scripted []) 3 stocked_job
          = all (conv := example_convert) (call := scripted []) 3 j0
          ∧ offset_of j0 = Some (VInt 0).
Proof.
  split; [reflexivity|].
  destruct (proj2 (proj2 (incremental_start (conv := example_convert)
                            (call := scripted []) 3 stocked_job eq_refl)
              stocked_db
              {| t_columns := ["api_params_hash"; "id"; "api_input"; "api_date";
                               "date"; "file"; "title"];
                 t_key := "id";
                 t_rows := [[SText "hash-0"; SText "101"; SText "reports.yml";
                             SText "day-0"; SText "20240105"; SNull;
                             SText "Flood update"]] |}
              4 [Some 20240105%Z] eq_refl eq_refl eq_refl eq_refl)
              [] ltac:(by repeat constructor) ltac:(done) eq_refl)
    as (j0 & Hnew & _ & _ & _ & _ & Hoff).
  exists j0. by split.
Defined.

(** *** The log of a call *)

Section log.
Context `{conv : Convert} `{call : Call}.

Lemma set_db_same j d : db j = Some d → set_db (Some d) j = j.
Proof. intros Hd. destruct j. simpl in *. by subst. Qed.

Lemma log_frame_columns j r : columns (from_records [log_record j r]) = log_columns.
Proof. done. Qed.

Lemma log_column_once j r c :
  c ∈ log_columns →
  length (positions c (columns (from_records [log_record j r]))) = 1
  ∧ ∀ row, rows (from_records [log_record j r]) = [row] →
           column_value (from_records [log_record j r]) row c
           = default VNaN (dict_get c (log_record j r)).
Proof.
  unfold log_columns. rewrite !elem_of_cons, elem_of_nil.
  intros [->|[->|[->|[->|[->|[->|[]]]]]]]; (split; [done|]);
    intros row [= <-]; done.
Qed.

(** X12. The log entry of a call.  When the [_log] table exists with the
    columns of the registry, each listed once, and these are among the six
    of the record of a call, [_insert_log] writes exactly one row by one replace-on-conflict
    insert: under each column, in the order of the table, the text of the
    hash of the parameters, of the parameters, of the input name, of the
    time of the call, of the result count or of the total count.  A column
    of the registry that the record does not have makes it raise KeyError
    and write nothing. *)
Theorem call_is_logged (j : Job) (r : Response) (d : Database.Database)
    (cols : list string) (t : Table) :
  response_json j = Some r → db j = Some d →
  tables d !! "_log" = Some cols → conn d !! "_log" = Some t →
  length (t_columns t) = length cols → NoDup cols →
  ((∀ c, c ∈ cols → c ∈ log_columns) →
   _insert_log j
   = (Ok tt,
      set_db (Some (with_conn (alter (insert_or_replace (log_row j r cols)) "_log") d)) j))
  ∧ (∀ c, c ∈ cols → c ∉ log_columns →
          ∃ key, _insert_log j = (Raise (KeyError key), j)).
Proof.
  intros Hr Hdb Hcols Ht Hw _.
  assert (_insert_log j
          = ReliefWeb.on_db (Database.insert (from_records [log_record j r]) "_log") j)
    as ->.
  { unfold _insert_log. unfold bind at 1. rewrite (the_response_spec _ _ Hr).
    unfold bind at 1. done. }
  unfold ReliefWeb.on_db. rewrite Hdb, insert_closed_form.
  unfold insert_plan. rewrite Hcols. split.
  - intros Hsub.
    rewrite (map_result_total _ (λ c, positions c (columns (from_records [log_record j r]))))
      by (intros c Hc; apply locate_present; rewrite log_frame_columns; by apply Hsub).
    rewrite Ht, (bool_decide_true _ Hw).
    assert (length (concat (map (λ c, positions c (columns (from_records [log_record j r])))
                                cols)) = length cols) as ->.
    { clear -Hsub. induction cols as [|c cols IH]; [done|].
      cbn [map concat length]. rewrite length_app.
      rewrite (proj1 (log_column_once j r c (Hsub c (list_elem_of_here _ _)))).
      rewrite IH; [done|]. intros c' Hc'. apply Hsub. by right. }
    rewrite (bool_decide_true (length cols = length cols)) by done.
    rewrite orb_true_r. do 3 f_equal.
    unfold with_conn. f_equal. apply alter_ext. intros t' _.
    unfold upsert_all, projection, log_row. simpl. f_equal.
    apply map_ext_in. intros c Hc%list_elem_of_In. f_equal.
    by apply (log_column_once j r c (Hsub c Hc)).
  - intros c Hc Hnot.
    destruct (map_result_first_raise (locate (from_records [log_record j r])) cols c Hc)
      as (y & e & Hy & Hfy & ->).
    { exists (KeyError c). apply locate_absent. by rewrite log_frame_columns. }
    unfold locate in Hfy.
    destruct (positions y (columns (from_records [log_record j r]))); [|done].
    simplify_eq. rewrite (set_db_same _ _ Hdb). eauto.
Qed.

(** *** A page without attachments *)

(** X13. [_insert_pdf] on a page without attachments.  When the page last
    stored has one [file] column and no record of it has a file, nothing
    is written and nothing changes; when the page has no [file] column at
    all, KeyError is raised, and nothing changes either. *)
Theorem no_attachments_no_rows (j : Job) :
  match positions "file" (columns (df_raw j)) with
  | [] => _insert_pdf j = (Raise (KeyError "file"), j)
  | _ :: _ :: _ => True
  | [i] =>
      Forall (λ row, notna (cell_at row i) = false) (rows (df_raw j)) →
      _insert_pdf j = (Ok tt, j)
  end.
Proof.
  destruct (positions "file" (columns (df_raw j))) as [|i [|i' ps]] eqn:Hp;
    [| |done];
    [assert (head (positions "file" (columns (df_raw j))) = None) as Hi
       by (by rewrite Hp)
    |assert (head (positions "file" (columns (df_raw j))) = Some i) as Hi
       by (by rewrite Hp)];
    clear Hp; [|].
  2:{ intros Hnone. unfold _insert_pdf. unfold bind at 1. unfold get at 1.
    unfold bind at 1. unfold lift at 1. unfold column_index at 1. rewrite Hi.
    cbv zeta. unfold empty. cbn [columns rows].
    rewrite filter_none; [by rewrite orb_true_r|].
    intros row Hrow Hna. eapply Forall_forall in Hnone; [|done].
    by rewrite Hnone in Hna. }
  unfold _insert_pdf. unfold bind at 1. unfold get at 1.
    unfold bind at 1. unfold lift at 1. unfold column_index at 1. by rewrite Hi.
Qed.

End log.

Lemma call_is_logged_witness :
  let j := set_response_json (Some two_reports) (job_with (Some fresh_db) sorted_parameters) in
  response_json j = Some two_reports ∧ db j = Some fresh_db
  ∧ outcome (_insert_log (conv := example_convert) (call := scripted [])) j = Ok tt.
Proof.
  intros j. split_and!; [reflexivity|reflexivity|].
  assert (NoDup log_columns) as Honce by (apply (bool_decide_unpack (NoDup log_columns)); by vm_compute).
  destruct (call_is_logged (conv := example_convert) (call := scripted [])
              j two_reports fresh_db log_columns
              {| t_columns := log_columns; t_key := "api_params_hash"; t_rows := [] |}
              eq_refl eq_refl eq_refl eq_refl eq_refl Honce) as [Hok _].
  unfold outcome. by rewrite Hok.
Defined.

(** *** The pages kept without a database *)

Section raw.
Context `{conv : Convert} `{call : Call}.

Lemma set_field_names_same j : set_field_names (field_names j) j = j.
Proof. by destruct j. Qed.

(** [_get_field_names] touches the field names only, also when it raises. *)
Lemma _get_field_names_only j : ∃ fn, (_get_field_names j).2 = set_field_names fn j.
Proof.
  unfold _get_field_names. unfold bind at 1. unfold the_response, bind, get. cbv beta.
  destruct (response_json j) as [r|]; simpl.
  2:{ exists (field_names j). by rewrite set_field_names_same. }
  unfold modify at 1.
  assert (∀ fn, ∃ fn', (for_each (data r)
            (λ x, match dict_get "fields" x with
                  | Some (VDict fields) =>
                      modify (λ j, set_field_names
                                     (field_names j ++ dedupe (field_names j) (map fst fields)) j)
                  | Some _ => raise (AttributeError "keys")
                  | None => raise (KeyError "fields")
                  end) (set_field_names fn j)).2 = set_field_names fn' j) as Hloop.
  { induction (data r) as [|x l IH]; intros fn; [by exists fn|].
    cbn [for_each]. unfold bind at 1.
    destruct (dict_get "fields" x) as [[| | | | | |fields]|];
      try (by exists fn).
    unfold modify at 1. cbn [field_names set_field_names].
    apply (IH (fn ++ dedupe fn (map fst fields))). }
  apply (Hloop []).
Qed.

(** What the rest of a round does to [raw] when there is no database. *)
Lemma finish_raw j n r :
  call_n j = Some n → response_json j = Some r →
  match finish None j with
  | (Ok _, j') => raw j' = <[n := r]> (raw j) ∧ pages j' = pages j ∧ db j' = db j
  | (Raise _, j') =>
      (raw j' = raw j ∨ raw j' = <[n := r]> (raw j))
      ∧ pages j' = pages j ∧ db j' = db j
  end.
Proof.
  intros Hn Hr. unfold finish, after_request.
  unfold bind at 1. unfold bind at 1.
  destruct (_get_field_names_only j) as [fn Hfn].
  destruct (_get_field_names j) as [[[]|e] j1]; simpl in Hfn; subst j1.
  2:{ split_and!; [by left|done|done]. }
  unfold bind at 1. rewrite _hash_spec. unfold bind at 1.
  rewrite (store_none_spec _ n r) by done.
  rewrite (_wait_spec _ n) by done.
  destruct (wait_allows n); simpl.
  - unfold bind, modify, ret. simpl. by split_and!.
  - split_and!; [by right|done|done].
Qed.

Lemma one_body_raw j n lim :
  call_n j = Some n → limit j = Some lim → db j = None →
  match one_body j with
  | (Ok true, j') =>
      db j' = None ∧ ∃ r, pages j' = pages j ++ [r] ∧ raw j' = <[n := r]> (raw j)
  | (Ok false, j') => j' = j
  | (Raise _, j') =>
      db j' = None
      ∧ ((pages j' = pages j ∧ raw j' = raw j)
         ∨ ∃ r, pages j' = pages j ++ [r]
                ∧ (raw j' = raw j ∨ raw j' = <[n := r]> (raw j)))
  end.
Proof.
  intros Hn Hl Hdb. rewrite (one_body_unfold j _ _ Hn Hl).
  case_bool_decide as Hlim; [done|].
  unfold bind at 1. rewrite (_enforce_quota_spec j _ Hn).
  destruct (quota_allows n); [|by split; [|left]].
  unfold bind at 1. destruct (_offset_frame j) as [p Hp].
  destruct (_offset j) as [[[]|e] j1]; simpl in Hp; subst j1.
  2:{ split; [done|]. by left. }
  unfold bind at 1. rewrite (_request_spec (set_parameters p j) n) by done.
  cbn [parameters set_parameters pages].
  destruct (api n p) as [r|msg]; [|split; [done|by left]].
  set (j2 := set_pages _ _).
  cbn [db set_parameters]. rewrite Hdb.
  pose proof (finish_raw j2 n r Hn eq_refl) as Hfin.
  assert (finish_spec_true : ∀ b j3, finish None j2 = (Ok b, j3) → b = true).
  { intros b j3 Hrun. pose proof (finish_spec None j2) as [_ Hb].
    rewrite Hrun in Hb. simpl in Hb. by destruct Hb. }
  destruct (finish None j2) as [[b|e] j3] eqn:Hrun.
  - rewrite (finish_spec_true b j3 eq_refl).
    destruct Hfin as (Hraw & Hpages & Hdb'). simpl in *.
    split; [by rewrite Hdb'|]. exists r. by split.
  - destruct Hfin as (Hraw & Hpages & Hdb'). simpl in *.
    split; [by rewrite Hdb'|]. right. exists r. by split.
Qed.

(** The pages stored so far: those of the run under their call numbers,
    and what [raw] held elsewhere. *)
Lemma while_loop_raw p0 n0 o0 lim fuel rec (raw0 : gmap nat Response) j :
  at_round p0 n0 o0 lim rec j → db j = None →
  (∀ k, raw j !! k = if decide (k < length rec) then rec !! k else raw0 !! k) →
  ∃ rec',
    pages (exec (while_loop fuel one_body) j) = p0 ++ rec'
    ∧ (∀ k, length rec' ≤ k →
            raw (exec (while_loop fuel one_body) j) !! k = raw0 !! k)
    ∧ (∀ k r, rec' !! k = Some r →
              S k < length rec' ∨ outcome (while_loop fuel one_body) j = Ok tt →
              raw (exec (while_loop fuel one_body) j) !! k = Some r).
Proof.
  revert rec j. induction fuel as [|fuel IH]; intros rec j Hat Hdb Hraw.
  { exists rec. split_and!; [apply Hat| |].
    - intros k Hk. simpl. rewrite Hraw. by rewrite decide_False by lia.
    - intros k r Hk _. simpl. rewrite Hraw.
      apply lookup_lt_Some in Hk as Hlt. by rewrite decide_True. }
  pose proof Hat as (Hp & _ & Hn & Hl & _).
  pose proof (one_round _ _ _ _ _ _ Hat) as Hround.
  pose proof (one_body_raw j _ _ Hn Hl Hdb) as Hbody.
  unfold exec, outcome. simpl. unfold bind.
  destruct (one_body j) as [[[|]|e] j'].
  - destruct Hround as (_ & r & Hat'). destruct Hbody as (Hdb' & r' & Hpages & Hraw').
    assert (r' = r) as ->.
    { destruct Hat' as (Hp' & _). rewrite Hp', Hp, <-app_assoc in Hpages.
      apply app_inv_head in Hpages. by apply app_inj_tail in Hpages as [_ ?]. }
    apply (IH (rec ++ [r]) j' Hat' Hdb').
    intros k. rewrite Hraw', length_app. simpl.
    destruct (decide (k = length rec)) as [->|Hne].
    + rewrite lookup_insert_eq, decide_True by lia.
      by rewrite lookup_app_r, Nat.sub_diag by lia.
    + rewrite lookup_insert_ne by done. rewrite Hraw.
      destruct (decide (k < length rec)).
      * rewrite decide_True by lia. by rewrite lookup_app_l.
      * by rewrite decide_False by lia.
  - subst j'. exists rec. simpl. split_and!; [apply Hat| |].
    + intros k Hk. rewrite Hraw. by rewrite decide_False by lia.
    + intros k r Hk _. rewrite Hraw.
      apply lookup_lt_Some in Hk as Hlt. by rewrite decide_True.
  - simpl. destruct Hbody as (_ & [[Hpages Hraw']|(r & Hpages & Hraw')]).
    + exists rec. split_and!; [by rewrite Hpages| |].
      * intros k Hk. rewrite Hraw', Hraw. by rewrite decide_False by lia.
      * intros k r Hk [Hlt|?]; [|done]. rewrite Hraw', Hraw.
        by rewrite decide_True by lia.
    + exists (rec ++ [r]). split_and!; [by rewrite Hpages, Hp, app_assoc| |].
      * intros k. rewrite length_app. simpl. intros Hk.
        destruct Hraw' as [->| ->]; [|rewrite lookup_insert_ne by lia];
          rewrite Hraw; by rewrite decide_False by lia.
      * intros k r' Hk. rewrite length_app. simpl. intros [Hlt|?]; [|done].
        rewrite lookup_app_l in Hk by lia.
        destruct Hraw' as [->| ->]; [|rewrite lookup_insert_ne by lia];
          rewrite Hraw; by rewrite decide_True by lia.
Qed.

(** X14. The pages kept without a database.  A run without database keeps
    the pages it receives in [raw], each under its call number, counted
    from 0 in every run: every page but the last is kept, and the last one
    too when the run returns; what [raw] held under these call numbers
    before the run is overwritten, what it held under higher ones stays. *)
Theorem raw_keeps_pages (limit : nat) (j : Job) (o0 : Z) :
  db j = None → offset_of j = Some (VInt o0) →
  let j' := exec (all limit) j in
  ∃ received,
    pages j' = pages j ++ received
    ∧ (∀ k, length received ≤ k → raw j' !! k = raw j !! k)
    ∧ (∀ k r, received !! k = Some r →
              S k < length received ∨ outcome (all limit) j = Ok tt →
              raw j' !! k = Some r).
Proof.
  intros Hdb Ho. unfold exec, outcome. rewrite all_unfold.
  set (j0 := set_call_n (Some 0) (set_limit (Some limit) j)).
  assert (at_round (pages j) (length (sent j)) o0 limit [] j0) as Hat.
  { unfold at_round, j0, offset_of. simpl. rewrite app_nil_r, Z.add_0_r.
    by split_and!. }
  apply (while_loop_raw _ _ _ _ (S limit) [] (raw j) j0 Hat); [done|].
  intros k. by rewrite decide_False by (simpl; lia).
Qed.

End raw.

Lemma raw_keeps_pages_witness :
  let j := job_with None sorted_parameters in
  db j = None ∧ offset_of j = Some (VInt 0)
  ∧ ∃ received,
      pages (exec (all (conv := example_convert)
                       (call := scripted [two_reports; two_reports]) 2) j)
      = [] ++ received
      ∧ ∀ k r, received !! k = Some r → S k < length received →
               raw (exec (all (conv := example_convert)
                              (call := scripted [two_reports; two_reports]) 2) j) !! k
               = Some r.
Proof.
  intros j. split_and!; [reflexivity|reflexivity|].
  destruct (raw_keeps_pages (conv := example_convert)
              (call := scripted [two_reports; two_reports]) 2 j 0 eq_refl eq_refl)
    as (received & Hpages & _ & Hraw).
  exists received. split; [done|]. intros k r Hk Hlt. apply Hraw; [done|by left].
Defined.

(** *** The end of results and the pages that have records *)

Lemma setitem_scalar_len c v df :
  length (rows (setitem_scalar c v df)) = length (rows df).
Proof.
  unfold setitem_scalar. destruct (positions c (columns df)); simpl;
    by rewrite length_map.
Qed.

Lemma setitem_scalar_columns c v df : columns (setitem_scalar c v df) ≠ [].
Proof.
  unfold setitem_scalar. destruct (positions c (columns df)) as [|p ps] eqn:Hp; simpl.
  - by intros [_ ?]%app_eq_nil.
  - intros Hnil. by rewrite Hnil in Hp.
Qed.

Lemma setitem_scalars_shape cs v df :
  columns df ≠ [] →
  columns (foldl (λ df c, setitem_scalar c v df) df cs) ≠ []
  ∧ length (rows (foldl (λ df c, setitem_scalar c v df) df cs)) = length (rows df).
Proof.
  revert df. induction cs as [|c cs IH]; intros df Hne; [done|].
  simpl. destruct (IH (setitem_scalar c v df)) as [Hc Hr].
  - apply setitem_scalar_columns.
  - split; [done|]. by rewrite Hr, setitem_scalar_len.
Qed.

Section classes.
Context `{conv : Convert} `{call : Call}.
Context (E : exn → Prop).
Context (HKey : ∀ k, E (KeyError k)) (HOp : ∀ m, E (OperationalError m))
        (HProg : ∀ m, E (ProgrammingError m)) (HAttr : ∀ m, E (AttributeError m))
        (HType : ∀ m, E (TypeError m)) (HVal : ∀ m, E (ValueError m)).

Lemma database_insert_class df table :
  within (λ _ _, True) E (Database.insert df table).
Proof.
  intros db. split; [done|]. intros e. rewrite insert_closed_form.
  unfold insert_plan.
  destruct (tables db !! table) as [cols|]; [|by intros [= <-]].
  destruct (map_result (locate df) cols) as [idx|e'] eqn:Hidx.
  - destruct (conn db !! table); [|by intros [= <-]].
    case_bool_decide; [|by intros [= <-]].
    destruct (_ || _); [done|by intros [= <-]].
  - intros [= <-]. eapply (map_result_raises E); [|exact Hidx].
    intros c e. unfold locate. destruct (positions c (columns df)); [|done].
    by intros [= <-].
Qed.

Lemma add_missing_columns_class df table :
  within (λ _ _, True) E (add_missing_columns df table).
Proof.
  intros db. split; [done|]. intros e. unfold add_missing_columns, bind, get.
  destruct (tables db !! table); [done|]. by intros [= <-].
Qed.

Lemma on_db_class {A} (m : M Database.Database A) :
  within (λ _ _, True) E m → within any_state E (ReliefWeb.on_db m).
Proof.
  intros Hm j. split; [done|]. unfold ReliefWeb.on_db.
  destruct (db j) as [d|]; [|by intros e [= <-]].
  destruct (Hm d) as [_ HE]. by destruct (m d) as [r d'].
Qed.

Lemma _insert_log_class : within any_state E _insert_log.
Proof.
  unfold _insert_log. apply within_bind; try apply _.
  { unfold the_response. apply within_bind; try apply _; [by apply within_get|].
    intros j. destruct (response_json j); [by apply within_ret|by apply within_raise]. }
  intros r. apply within_bind; try apply _; [by apply within_get|]. intros j.
  apply on_db_class, database_insert_class.
Qed.

Lemma _insert_pdf_class : within any_state E _insert_pdf.
Proof.
  unfold _insert_pdf. apply within_bind; try apply _; [by apply within_get|].
  intros j. apply within_bind; try apply _.
  { apply within_lift; try apply _. intros e. unfold column_index.
    destruct (head _); [done|by intros [= <-]]. }
  intros file. cbv zeta. case_match; [|by apply within_ret].
  apply within_bind; try apply _.
  { apply within_lift; try apply _. intros e. unfold json_normalize.
    destruct (map_result _ _) as [records|e'] eqn:Hrec; [done|].
    intros [= <-]. eapply (map_result_raises E); [|exact Hrec].
    intros x e. by destruct x; intros [= <-]. }
  intros df_flat. apply within_bind; try apply _.
  { apply within_lift; try apply _. intros e. apply map_result_raises.
    intros row e'. unfold ids_of_row, column_index.
    destruct (head _); [|by intros [= <-]].
    unfold py_len. by destruct (cell_at row file); intros [= <-]. }
  intros ids. apply within_bind; try apply _.
  { apply within_lift; try apply _. intros e. unfold setitem_list.
    case_bool_decide; [by destruct (positions _ _)|by intros [= <-]]. }
  intros df_flat'. apply within_bind; try apply _.
  { apply on_db_class, add_missing_columns_class. }
  intros df. apply on_db_class, database_insert_class.
Qed.

End classes.

Section end_of_results.
Context `{conv : Convert} `{call : Call}.

(** X15. The end of results is an empty page, and nothing else.  On a job
    with a database whose registry has the raw table, [insert] raises a
    warning exactly when the page last received has no record: a page that
    has records is stored or fails with an error, and is never taken for
    the end of the results. *)
Theorem end_of_results_only_on_empty_page (j : Job) (r : Response)
    (d : Database.Database) (cols : list string) :
  response_json j = Some r → db j = Some d → tables d !! "_raw" = Some cols →
  (∃ m, outcome ReliefWeb.insert j = Raise (UserWarning m)) ↔ data r = [].
Proof.
  intros Hr Hdb Hcols. split.
  2:{ intros Hdata.
      destruct (insert_empty_page j r d cols Hr Hdata Hdb Hcols) as (df & d' & Hrun & _).
      eexists. unfold outcome. by rewrite Hrun. }
  intros [m Hm]. destruct (data r) as [|x data'] eqn:Hdata; [done|]. exfalso.
  revert Hm. unfold outcome, ReliefWeb.insert. unfold bind at 1.
  rewrite (the_response_spec _ _ Hr). unfold bind at 1. unfold get at 1.
  cbv zeta.
  set (df0 := setitem_scalar "api_params_hash" _ _).
  destruct (add_missing_columns_spec df0 "_raw" d cols Hcols) as (d' & Hadd & _).
  unfold bind at 1. unfold ReliefWeb.on_db at 1. rewrite Hdb, Hadd.
  set (df := foldl _ df0 _).
  assert (empty df = false) as Hempty.
  { destruct (setitem_scalars_shape (filter (λ c, c ∉ columns df0) cols) VNone df0)
      as [Hc Hrows]; [apply setitem_scalar_columns|].
    fold df in Hc, Hrows. unfold empty.
    rewrite (bool_decide_false _ Hc). simpl. apply bool_decide_eq_false.
    intros Hnil. rewrite Hnil in Hrows. revert Hrows. unfold df0.
    rewrite !setitem_scalar_len. simpl. rewrite !length_map. by rewrite Hdata. }
  unfold bind at 1. unfold modify at 1. unfold bind at 1. rewrite Hempty.
  cbn [negb].
  assert (within any_state not_warning
            (do! ReliefWeb.on_db (Database.insert df "_raw") in
             do! _insert_log in _insert_pdf)) as Hrest.
  { apply within_bind; try apply _.
    { by apply on_db_class, database_insert_class. }
    intros _. apply within_bind; try apply _.
    { by apply _insert_log_class. }
    intros _. by apply _insert_pdf_class. }
  intros Hm. eapply (Hrest _) in Hm. done.
Qed.

End end_of_results.

Lemma end_of_results_only_on_empty_page_witness :
  let j := set_response_json (Some two_reports)
             (job_with (Some fresh_db) sorted_parameters) in
  response_json j = Some two_reports ∧ db j = Some fresh_db
  ∧ ¬ ∃ m, outcome (ReliefWeb.insert (conv := example_convert) (call := scripted [])) j
           = Raise (UserWarning m).
Proof.
  intros j. split_and!; [reflexivity|reflexivity|].
  intros Hm.
  by apply (end_of_results_only_on_empty_page
              (conv := example_convert) (call := scripted [])
              j two_reports fresh_db
              ["api_params_hash"; "id"; "api_input"; "api_date"; "date"; "file"; "title"]
              eq_refl eq_refl eq_refl) in Hm.
Defined.

(** ** The run of datamgr *)

(** *** Methods that leave the counters alone *)

#[global] Instance keeps_counters_refl : Reflexive keeps_counters.
Proof. intros j. by split_and!. Qed.

#[global] Instance keeps_counters_trans : Transitive keeps_counters.
Proof.
  intros j1 j2 j3 (?&?&?) (?&?&?). unfold keeps_counters.
  split_and!; [congruence|congruence|auto].
Qed.

Lemma bind_ext_within {S A B} (R : S → S → Prop) (E : exn → Prop)
    (m : M S A) (f g : A → M S B) s :
  within R E m → (∀ a s', R s s' → f a s' = g a s') → bind m f s = bind m g s.
Proof.
  intros Hm Hfg. unfold bind. destruct (Hm s) as [HR _].
  destruct (m s) as [[a|e] s']; [by apply Hfg|done].
Qed.

Section counters.
Context `{conv : Convert} `{call : Call}.

Lemma the_call_n_keeps : within keeps_counters any_exception the_call_n.
Proof. unfold the_call_n. wstep; [wstep|]. destruct (call_n a); wstep. Qed.

Lemma the_response_keeps : within keeps_counters any_exception the_response.
Proof. unfold the_response. wstep; [wstep|]. destruct (response_json a); wstep. Qed.

Lemma _enforce_quota_keeps : within keeps_counters any_exception _enforce_quota.
Proof.
  unfold _enforce_quota. wstep; [apply the_call_n_keeps|].
  destruct (quota_allows a); wstep.
Qed.

Lemma _offset_keeps : within keeps_counters any_exception _offset.
Proof.
  unfold _offset. wstep; [apply the_call_n_keeps|].
  case_bool_decide; [|wstep]. wstep; [wstep|].
  wstep. { by apply within_lift; try apply _. }
  wstep; [apply the_response_keeps|].
  wstep; [by wstep|]. case_bool_decide; wstep.
Qed.

Lemma _request_keeps : within keeps_counters any_exception _request.
Proof.
  unfold _request. wstep; [apply the_call_n_keeps|].
  wstep; [wstep|]. wstep; [by wstep|].
  destruct (api _ _); [|wstep]. repeat (wstep; [by wstep|]). by wstep.
Qed.

Lemma _get_field_names_keeps : within keeps_counters any_exception _get_field_names.
Proof.
  unfold _get_field_names. wstep; [apply the_response_keeps|].
  wstep; [by wstep|].
  wstep. destruct (dict_get "fields" x) as [[]|]; try wstep. by intros s.
Qed.

Lemma _hash_keeps : within keeps_counters any_exception _hash.
Proof. unfold _hash. by wstep. Qed.

Lemma _wait_keeps : within keeps_counters any_exception _wait.
Proof.
  unfold _wait. wstep; [apply the_call_n_keeps|]. destruct (wait_allows a); wstep.
Qed.

Lemma store_none_keeps : within keeps_counters any_exception (store None).
Proof.
  unfold store. wstep; [wstep|]. wstep; [apply the_response_keeps|]. by wstep.
Qed.

Lemma round_without_database_keeps :
  within keeps_counters any_exception round_without_database.
Proof.
  unfold round_without_database, after_request.
  wstep; [apply _enforce_quota_keeps|]. wstep; [apply _offset_keeps|].
  wstep; [apply _request_keeps|]. wstep; [apply _get_field_names_keeps|].
  wstep; [apply _hash_keeps|]. wstep; [apply store_none_keeps|].
  apply _wait_keeps.
Qed.

(** *** Methods that do not look at the limit *)

Lemma ignores_limit_ret {A} (a : A) : ignores_limit (ret a).
Proof. done. Qed.

Lemma ignores_limit_raise {A} e : ignores_limit (raise (A := A) e).
Proof. done. Qed.

Lemma ignores_limit_lift {A} (r : result A) : ignores_limit (lift r).
Proof. done. Qed.

Lemma ignores_limit_modify (g : Job → Job) :
  (∀ l j, g (set_limit l j) = set_limit l (g j)) → ignores_limit (modify g).
Proof. intros Hg l j. unfold modify. simpl. by rewrite Hg. Qed.

Lemma ignores_limit_bind {A B} (m : M Job A) (k : A → M Job B) :
  ignores_limit m → (∀ a, ignores_limit (k a)) → ignores_limit (bind m k).
Proof.
  intros Hm Hk l j. unfold bind. rewrite Hm.
  destruct (m j) as [[a|e] j1]; simpl; [apply Hk|done].
Qed.

Lemma ignores_limit_get {A} (f : Job → M Job A) :
  (∀ j, ignores_limit (f j)) → (∀ l j, f (set_limit l j) = f j) →
  ignores_limit (bind get f).
Proof.
  intros Hf Heq l j. unfold bind, get. rewrite Heq. apply Hf.
Qed.

Lemma ignores_limit_for_each {A} (l : list A) (body : A → M Job unit) :
  (∀ x, ignores_limit (body x)) → ignores_limit (for_each l body).
Proof.
  intros Hb. induction l as [|x l IH]; [done|].
  simpl. apply ignores_limit_bind; [apply Hb|]. intros _. apply IH.
Qed.

Ltac lstep :=
  first
    [ apply ignores_limit_ret
    | apply ignores_limit_raise
    | apply ignores_limit_lift
    | apply ignores_limit_modify; by intros
    | apply ignores_limit_get; [intros ?|by intros]
    | apply ignores_limit_bind; [|intros ?]
    | apply ignores_limit_for_each; intros ? ].

Lemma the_call_n_limit : ignores_limit the_call_n.
Proof. unfold the_call_n. lstep. destruct (call_n _); lstep. Qed.

Lemma the_response_limit : ignores_limit the_response.
Proof. unfold the_response. lstep. destruct (response_json _); lstep. Qed.

Lemma round_without_database_limit : ignores_limit round_without_database.
Proof.
  unfold round_without_database, after_request.
  lstep.
  { unfold _enforce_quota. lstep; [apply the_call_n_limit|].
    destruct (quota_allows _); lstep. }
  lstep.
  { unfold _offset. lstep; [apply the_call_n_limit|].
    case_bool_decide; [|lstep]. lstep. lstep; [lstep|].
    lstep; [apply the_response_limit|]. lstep; [lstep|].
    case_bool_decide; lstep. }
  lstep.
  { unfold _request. lstep; [apply the_call_n_limit|]. lstep.
    lstep; [lstep|]. destruct (api _ _); lstep. }
  lstep.
  { unfold _get_field_names. lstep; [apply the_response_limit|].
    lstep; [lstep|]. lstep. destruct (dict_get "fields" _) as [[]|]; lstep. }
  lstep; [unfold _hash; lstep|].
  lstep.
  { unfold store. lstep. lstep; [apply the_response_limit|]. lstep. }
  unfold _wait. lstep; [apply the_call_n_limit|]. destruct (wait_allows _); lstep.
Qed.

(** *** One round of either loop *)

(** A round of [one] that has calls left, on a job without database. *)
Lemma one_body_round j n lim :
  call_n j = Some n → limit j = Some lim → n < lim → db j = None →
  one_body j
  = match round_without_database j with
    | (Ok _, t) => (Ok true, set_call_n (S <$> call_n t) t)
    | (Raise e, t) => (Raise e, t)
    end.
Proof.
  intros Hn Hl Hlt Hdb. rewrite (one_body_unfold j _ _ Hn Hl).
  rewrite bool_decide_false by lia. rewrite Hdb.
  unfold round_without_database, finish, bind.
  destruct (_enforce_quota j) as [[[]|e1] j1]; [|done].
  destruct (_offset j1) as [[[]|e2] j2]; [|done].
  destruct (_request j2) as [[[]|e3] j3]; [|done].
  by destruct (after_request None j3) as [[[]|e4] j4].
Qed.

(** A turn of the loop of [run], after the call number is set. *)
Lemma run_body_round k j :
  db j = None →
  Datamgr.run_body k j = round_without_database (set_call_n (Some k) j).
Proof.
  intros Hdb. unfold Datamgr.run_body. unfold bind at 1. unfold modify at 1.
  set (j0 := set_call_n (Some k) j).
  assert (keeps_counters j0 j0) as Hj0 by done. revert Hj0.
  generalize j0 at 2 3 4 as s. intros s Hs.
  unfold round_without_database, after_request.
  eapply bind_ext_within; [apply _enforce_quota_keeps|]. intros _ s1 Hs1.
  assert (keeps_counters j0 s1) as Hk1 by (by etrans). clear s Hs Hs1.
  eapply bind_ext_within; [apply _offset_keeps|]. intros _ s2 Hs2.
  assert (keeps_counters j0 s2) as Hk2 by (by etrans). clear s1 Hk1 Hs2.
  eapply bind_ext_within; [apply _request_keeps|]. intros _ s3 Hs3.
  assert (keeps_counters j0 s3) as Hk3 by (by etrans). clear s2 Hk2 Hs3.
  eapply bind_ext_within; [apply _get_field_names_keeps|]. intros _ s4 Hs4.
  assert (keeps_counters j0 s4) as Hk4 by (by etrans). clear s3 Hk3 Hs4.
  eapply bind_ext_within; [apply _hash_keeps|]. intros _ s5 Hs5.
  assert (keeps_counters j0 s5) as (Hn5 & _ & Hdb5) by (by etrans).
  clear s4 Hk4 Hs5. simpl in Hn5. specialize (Hdb5 Hdb).
  unfold bind at 1. unfold get at 1. rewrite Hdb5.
  unfold store, the_response, bind, get, modify, ret, raise. cbv beta.
  rewrite Hn5. by destruct (response_json s5).
Qed.

Lemma same_but_counters_set k j j' :
  same_but_counters j j' → call_n j = Some k →
  set_call_n (Some k) j' = set_limit (limit j') j.
Proof.
  unfold same_but_counters. destruct j, j'. simpl. intros Heq ->.
  by simplify_eq.
Qed.

Lemma round_simulation k n j j' :
  call_n j = Some k → limit j = Some n → k < n → db j = None →
  same_but_counters j j' →
  match one_body j, Datamgr.run_body k j' with
  | (Ok true, t), (Ok _, t') =>
      same_but_counters t t'
      ∧ call_n t = Some (S k) ∧ limit t = Some n ∧ db t = None
  | (Raise e, t), (Raise e', t') => e = e' ∧ same_but_counters t t'
  | _, _ => False
  end.
Proof.
  intros Hn Hl Hlt Hdb Hsame.
  assert (db j' = None) as Hdb'.
  { unfold same_but_counters in Hsame. destruct j, j'. simpl in *. by simplify_eq. }
  rewrite (one_body_round j k n Hn Hl Hlt Hdb), (run_body_round k j' Hdb').
  rewrite (same_but_counters_set k j j' Hsame Hn).
  rewrite round_without_database_limit.
  destruct (round_without_database_keeps j) as [(Hn1 & Hl1 & Hdb1) _].
  destruct (round_without_database j) as [[[]|e] t]; simpl in *.
  - split_and!; [done|by rewrite Hn1, Hn|congruence|auto].
  - done.
Qed.

Lemma loop_simulation m :
  ∀ k n j j',
    n - k = m → k ≤ n →
    call_n j = Some k → limit j = Some n → db j = None →
    same_but_counters j j' →
    outcome (while_loop (S m) one_body) j
    = outcome (for_each (seq k m) Datamgr.run_body) j'
    ∧ same_but_counters (exec (while_loop (S m) one_body) j)
                        (exec (for_each (seq k m) Datamgr.run_body) j').
Proof.
  induction m as [|m IH]; intros k n j j' Hm Hle Hn Hl Hdb Hsame.
  - unfold outcome, exec. simpl. unfold bind.
    rewrite (one_body_unfold j _ _ Hn Hl). by rewrite bool_decide_true by lia.
  - pose proof (round_simulation k n j j' Hn Hl ltac:(lia) Hdb Hsame) as Hround.
    unfold outcome, exec.
    change (while_loop (S (S m)) one_body)
      with (let! again := one_body in
            if again then while_loop (S m) one_body else ret tt).
    cbn [seq for_each]. unfold bind at 1 2 3 4.
    destruct (one_body j) as [[[|]|e] t];
      destruct (Datamgr.run_body k j') as [[[]|e'] t']; try done.
    + destruct Hround as (Hsame' & Hn' & Hl' & Hdb').
      apply (IH (S k) n t t'); [lia|lia|done..].
    + by destruct Hround as [-> ?].
Qed.

(** X16. The two loops.  Without a database, the [run] of datamgr over
    [n] calls and the [all] of corpusama with limit [n] are the same run:
    they return or raise alike and leave jobs that differ in their counters
    at most, with the same pages received, the same parameters and the same
    pages kept in [raw]. *)
Theorem run_is_all (n : nat) (j : Job) :
  db j = None →
  outcome (all n) j = outcome (Datamgr.run n) j
  ∧ same_but_counters (exec (all n) j) (exec (Datamgr.run n) j)
  ∧ pages (exec (all n) j) = pages (exec (Datamgr.run n) j)
  ∧ parameters (exec (all n) j) = parameters (exec (Datamgr.run n) j)
  ∧ raw (exec (all n) j) = raw (exec (Datamgr.run n) j).
Proof.
  intros Hdb. unfold outcome, exec. rewrite all_unfold. unfold Datamgr.run.
  destruct (loop_simulation n 0 n (set_call_n (Some 0) (set_limit (Some n) j)) j)
    as [Hout Hsame]; [lia|lia|done..|].
  unfold outcome, exec in Hout, Hsame. split_and!; [done|done|..].
  - by apply (f_equal pages) in Hsame.
  - by apply (f_equal parameters) in Hsame.
  - by apply (f_equal raw) in Hsame.
Qed.

(** X17. The end of the results in datamgr.  Its [insert] has no guard
    for a page without records: the frame of such a page has no [id] column
    to drop, so [insert] raises KeyError and nothing is stored or logged;
    a turn of [run] with a database that receives such a page ends that way,
    with the database as it was. *)
Theorem datamgr_empty_page (k : nat) (j j1 : Job) (d : Database.Database)
    (r : Response) :
  db j = Some d → quota_allows k = true →
  _offset (set_call_n (Some k) j) = (Ok tt, j1) →
  api k (parameters j1) = Page r → data r = [] →
  (∀ s r, response_json s = Some r → data r = [] →
          Datamgr.insert s = (Raise (KeyError "id"), s))
  ∧ outcome (Datamgr.run_body k) j = Raise (KeyError "id")
  ∧ db (exec (Datamgr.run_body k) j) = Some d
  ∧ pages (exec (Datamgr.run_body k) j) = pages j ++ [r].
Proof.
  intros Hdb Hq Hoff Hapi Hdata.
  assert (∀ s r, response_json s = Some r → data r = [] →
                 Datamgr.insert s = (Raise (KeyError "id"), s)) as Hins.
  { intros s r' Hr Hd. unfold Datamgr.insert. unfold bind at 1.
    rewrite (the_response_spec _ _ Hr). unfold bind at 1. unfold get at 1.
    cbv zeta. by rewrite Hd. }
  split; [done|].
  destruct (_offset_frame (set_call_n (Some k) j)) as [p Hp].
  rewrite Hoff in Hp. simpl in Hp. subst j1. cbn [parameters set_parameters] in Hapi.
  assert (Datamgr.run_body k j
          = (Raise (KeyError "id"),
             set_hash (params_hash p)
               (set_field_names []
                  (set_pages (pages j ++ [r])
                     (set_now (clock k)
                        (set_response_json (Some r)
                           (set_sent (sent j ++ [p])
                              (set_parameters p (set_call_n (Some k) j))))))))) as Hrun.
  { unfold Datamgr.run_body. unfold bind at 1. unfold modify at 1.
    unfold bind at 1. rewrite (_enforce_quota_spec _ k) by done. rewrite Hq.
    unfold bind at 1. rewrite Hoff.
    unfold bind at 1. rewrite (_request_spec _ k) by done.
    cbn [parameters set_parameters pages sent set_call_n]. rewrite Hapi.
    unfold bind at 1. rewrite (_get_field_names_empty _ r) by done.
    unfold bind at 1. rewrite _hash_spec.
    unfold bind at 1. unfold get at 1. cbn [db set_hash set_field_names set_pages
      set_now set_response_json set_sent set_parameters set_call_n parameters].
    rewrite Hdb.
    unfold bind at 1. by rewrite (Hins _ r). }
  unfold outcome, exec. rewrite Hrun. simpl. by split_and!.
Qed.

End counters.

Lemma run_is_all_witness :
  let j := job_with None sorted_parameters in
  db j = None
  ∧ outcome (all (conv := example_convert)
                 (call := scripted [two_reports; two_reports]) 2) j
    = outcome (Datamgr.run (conv := example_convert)
                 (call := scripted [two_reports; two_reports]) 2) j.
Proof.
  intros j. split; [reflexivity|].
  exact (proj1 (run_is_all (conv := example_convert)
                  (call := scripted [two_reports; two_reports]) 2 j eq_refl)).
Defined.

Lemma datamgr_empty_page_witness :
  let j := job_with (Some fresh_db) sorted_parameters in
  db j = Some fresh_db
  ∧ outcome (Datamgr.run_body (conv := example_convert) (call := scripted []) 0) j
    = Raise (KeyError "id").
Proof.
  intros j. split; [reflexivity|].
  exact (proj1 (proj2 (datamgr_empty_page (conv := example_convert) (call := scripted [])
                         0 j (set_call_n (Some 0) j) fresh_db no_page
                         eq_refl eq_refl eq_refl eq_refl eq_refl))).
Defined.

(** ** What a batch of annotation leaves alone *)

Lemma drop_empty_vert_within `{inf : Inferred} (df : DataFrame) :
  within prefix any_exception (drop_empty_vert df).
Proof.
  unfold drop_empty_vert.
  apply within_bind; try apply _; [by apply within_lift; try apply _|]. intros drops.
  apply within_bind; try apply _; [|intros _; by apply within_lift; try apply _].
  destruct (negb (empty drops)); [|by apply within_ret; apply _].
  apply within_bind; try apply _; [by apply within_lift; try apply _|]. intros ids.
  apply within_modify; try apply _. intros log. by apply prefix_app_r.
Qed.

Section batch.
Context `{conv : Convert} `{inf : Inferred} `{ann : Annotator}.

(** X18. What [batch_run] leaves alone.  A batch writes to the [_vert]
    table only: the registry, every other table and the tagset are as they
    were, and the log has only grown, whether the batch returns or raises.
    When the tagger fails nothing changes at all; when the batch returns,
    it returns the number of tokens the tagger counted. *)
Theorem batch_run_writes_vert_only (batch : DataFrame) (c : Corpus) :
  let c' := exec (batch_run batch) c in
  tables (corpus_db c') = tables (corpus_db c)
  ∧ (∀ other, other ≠ "_vert" →
              conn (corpus_db c') !! other = conn (corpus_db c) !! other)
  ∧ corpus_tagset c' = corpus_tagset c
  ∧ corpus_log c `prefix_of` corpus_log c'
  ∧ (∀ e, stanza_run batch = Raise e → batch_run batch c = (Raise e, c))
  ∧ (∀ n, outcome (batch_run batch) c = Ok n →
          ∃ stan, stanza_run batch = Ok stan ∧ n = bundle_token stan).
Proof.
  intros c'. unfold c', exec, outcome.
  destruct (batch_run batch c) as [res c1] eqn:Hrun. cbn [fst snd].
  revert Hrun. unfold batch_run. unfold bind at 1. unfold lift.
  destruct (stanza_run batch) as [stan|e] eqn:Hstan.
  2:{ intros [= <- <-]. split_and!; try done. by intros e' [= <-]. }
  unfold bind at 1. unfold get. unfold bind at 1. unfold on_log at 1. unfold zoom.
  destruct (stanza_to_vert_within stan (corpus_tagset c) (corpus_log c)) as [Hpre1 _].
  destruct (stanza_to_vert stan (corpus_tagset c) (corpus_log c))
    as [[vert|e] log1] eqn:Hvert; simpl in Hpre1.
  2:{ intros [= <- <-]. by split_and!. }
  apply stanza_to_vert_token in Hvert as Htoken.
  unfold bind at 1. unfold on_log at 1. unfold zoom.
  cbn [corpus_log corpus_db corpus_tagset].
  destruct (drop_empty_vert_within (docbundle_to_df vert) log1) as [Hpre2 _].
  destruct (drop_empty_vert (docbundle_to_df vert) log1) as [[df|e] log2];
    simpl in Hpre2.
  2:{ intros [= <- <-]. split_and!; [done|done|done|by etrans|done|done]. }
  unfold bind at 1. unfold Vertical.on_db at 1. unfold zoom.
  cbn [corpus_log corpus_db corpus_tagset].
  destruct (insert_frame df "_vert" (corpus_db c)) as [Htables Hother].
  destruct (Database.insert df "_vert" (corpus_db c)) as [[[]|e] db'];
    cbn [fst snd] in *; unfold ret; intros [= <- <-]; cbn [corpus_db corpus_log corpus_tagset].
  - split_and!; [done|done|done|by etrans|done|].
    intros n [= <-]. eauto.
  - split_and!; [done|done|done|by etrans|done|done].
Qed.

End batch.
